(** * UiPath job automation: a shallow embedding of [uipath_automation.py]

    The script drives a web console through Playwright.  Everything it
    learns about the page comes from calls into the Playwright runtime
    (and one read of standard input); everything it does is a call, a log
    record or a line printed.  The embedding therefore is a state-and-
    exception monad over a [world] holding

    - the [UiPathAutomation] object ([self]) with its four optional
      handles, and
    - the [trace] of every call, log record and printed line so far,

    run against a [Runtime]: an oracle that answers each call from the
    trace that precedes it.  A runtime is the "fake scope where strategy
    success is independently controllable" of the specification; it may
    answer, raise an [Exception], or deliver a [KeyboardInterrupt]. *)

From Stdlib Require Import List String Ascii ZArith Bool Arith Lia.
From Stdlib Require Import DecimalString.
Import ListNotations.
Open Scope string_scope.

(** ** Python strings *)

Module Py.

(** The double quote, which the selectors embed around attribute values
    and job names. *)
Definition dq : string := String (ascii_of_nat 34) EmptyString.
Definition quoted (s : string) : string := dq ++ s ++ dq.

(** The newline that starts several printed lines. *)
Definition nl : string := String (ascii_of_nat 10) EmptyString.

(** [str(n)] for a length. *)
Definition str_of_nat (n : nat) : string :=
  NilEmpty.string_of_uint (Nat.to_uint n).

(** [bool(s)]: a string is true when it is not empty. *)
Definition truthy (s : string) : bool :=
  match s with EmptyString => false | String _ _ => true end.

(** A string holds the UTF-8 encoding of a Python [str]: a character is
    the one to four bytes that encode it.  [str.isspace] holds of
    U+0009..U+000D, U+001C..U+0020, U+0085, U+00A0, U+1680,
    U+2000..U+200A, U+2028, U+2029, U+202F, U+205F and U+3000; the tests
    below are on their encodings, by length. *)
Definition isspace1 (c1 : ascii) : bool :=
  let n := nat_of_ascii c1 in
  (((9 <=? n) && (n <=? 13)) || ((28 <=? n) && (n <=? 32)))%nat.

Definition isspace2 (c1 c2 : ascii) : bool :=
  let n1 := nat_of_ascii c1 in
  let n2 := nat_of_ascii c2 in
  ((n1 =? 194) && ((n2 =? 133) || (n2 =? 160)))%nat.    (* U+0085, U+00A0 *)

Definition isspace3 (c1 c2 c3 : ascii) : bool :=
  let n1 := nat_of_ascii c1 in
  let n2 := nat_of_ascii c2 in
  let n3 := nat_of_ascii c3 in
  (((n1 =? 225) && (n2 =? 154) && (n3 =? 128))            (* U+1680 *)
   || ((n1 =? 226) && (n2 =? 128)
       && (((128 <=? n3) && (n3 <=? 138))                 (* U+2000..U+200A *)
           || (n3 =? 168) || (n3 =? 169)                  (* U+2028, U+2029 *)
           || (n3 =? 175)))                               (* U+202F *)
   || ((n1 =? 226) && (n2 =? 129) && (n3 =? 159))         (* U+205F *)
   || ((n1 =? 227) && (n2 =? 128) && (n3 =? 128)))%nat.   (* U+3000 *)

(** [ch.isspace()] for one character, given by its encoding. *)
Definition isspace (ch : string) : bool :=
  match ch with
  | String c1 EmptyString => isspace1 c1
  | String c1 (String c2 EmptyString) => isspace2 c1 c2
  | String c1 (String c2 (String c3 EmptyString)) => isspace3 c1 c2 c3
  | _ => false
  end.

(** [s.lstrip()]: the whitespace characters at the start are dropped, one
    encoded character at a time. *)
Fixpoint lstrip (s : string) : string :=
  match s with
  | EmptyString => EmptyString
  | String c1 s1 =>
      if isspace1 c1 then lstrip s1
      else
        match s1 with
        | EmptyString => s
        | String c2 s2 =>
            if isspace2 c1 c2 then lstrip s2
            else
              match s2 with
              | EmptyString => s
              | String c3 s3 =>
                  if isspace3 c1 c2 c3 then lstrip s3 else s
              end
        end
  end.

(** [s.rstrip()]: going from the end, what is left of the tail is dropped
    whenever it is one whitespace character. *)
Fixpoint rstrip (s : string) : string :=
  match s with
  | EmptyString => EmptyString
  | String c s' =>
      let t := String c (rstrip s') in
      if isspace t then EmptyString else t
  end.

(** [s.rstrip(chars)] for characters of one byte, the set given as a
    test. *)
Fixpoint rstrip_by (p : ascii -> bool) (s : string) : string :=
  match s with
  | EmptyString => EmptyString
  | String c s' =>
      match rstrip_by p s' with
      | EmptyString => if p c then EmptyString else String c EmptyString
      | r => String c r
      end
  end.

(** [s.strip()] *)
Definition strip (s : string) : string := rstrip (lstrip s).

(** [s.rstrip('/')] *)
Definition rstrip_slash (s : string) : string :=
  rstrip_by (Ascii.eqb "/"%char) s.

(** [sub in s] *)
Fixpoint contains (sub s : string) : bool :=
  String.prefix sub s
  || match s with
     | EmptyString => false
     | String _ s' => contains sub s'
     end.

End Py.

(** ** Exceptions and outcomes *)

(** The handlers of the script distinguish two classes only: [except
    Exception] catches every error of the runtime, a bare [except:] also
    catches [KeyboardInterrupt]. *)
Inductive exn : Type :=
| Exception (msg : string)
| KeyboardInterrupt.

Inductive outcome (A : Type) : Type :=
| Returns (a : A)
| Raises (e : exn).
Arguments Returns {A} a.
Arguments Raises {A} e.

(** ** Locators, calls and events *)

(** Locators are descriptions, built without touching the page. *)
Inductive locator : Type :=
| Locator (selector : string)                   (* page.locator(selector) *)
| Sub (parent : locator) (selector : string)    (* parent.locator(selector) *)
| First (l : locator)                           (* l.first *)
| Nth (l : locator) (i : nat).                  (* l.nth(i): the items of l.all() *)

Inductive call : Type :=
| SyncPlaywrightStart
| Launch (headless : bool) (slow_mo : Z)
| NewContext (width height : Z)
| NewPage
| SetDefaultTimeout (ms : Z)
| Goto (url : string)
| WaitForLoadState (state : string) (timeout : option Z)
| IsVisible (l : locator) (timeout : Z)
| Fill (selector value : string)
| Click (selector : string)
| LocatorClick (l : locator)
| KeyboardPress (key : string)
| PageUrl
| WaitForTimeout (ms : Z)
| All (l : locator)
| Count (l : locator)
| InnerText (l : locator)
| Screenshot (path : string)
| PageClose
| ContextClose
| BrowserClose
| PlaywrightStop
| Input.

Inductive level : Type := DEBUG | INFO | WARNING | ERROR.

Inductive event : Type :=
| Called (c : call)
| Log (lvl : level) (msg : string)
| Print (msg : string)
| PrintHelp.

(** The runtime answers a call from the events that came before it.  Each
    call has one result type, and is put to the oracle of that type. *)
Record Runtime : Type := {
  run_unit : list event -> call -> outcome unit;
  run_bool : list event -> call -> outcome bool;
  run_nat : list event -> call -> outcome nat;
  run_str : list event -> call -> outcome string
}.

(** ** The automation object and the world *)

Inductive handle : Type := Handle.

Record UiPathAutomation : Type := {
  url : string;
  username : string;
  password : string;
  headless : bool;
  timeout : Z;
  config_browser_slow_mo : Z;    (* self.config.get('browser', {}).get('slow_mo', 0) *)
  playwright : option handle;
  browser : option handle;
  context : option handle;
  page : option handle
}.

Record world : Type := {
  self : UiPathAutomation;
  trace : list event
}.

Definition emit (ev : event) (w : world) : world :=
  {| self := self w; trace := trace w ++ [ev] |}.

Definition set_playwright (h : option handle) (a : UiPathAutomation) :=
  {| url := url a; username := username a; password := password a;
     headless := headless a; timeout := timeout a;
     config_browser_slow_mo := config_browser_slow_mo a;
     playwright := h; browser := browser a; context := context a;
     page := page a |}.

Definition set_browser (h : option handle) (a : UiPathAutomation) :=
  {| url := url a; username := username a; password := password a;
     headless := headless a; timeout := timeout a;
     config_browser_slow_mo := config_browser_slow_mo a;
     playwright := playwright a; browser := h; context := context a;
     page := page a |}.

Definition set_context (h : option handle) (a : UiPathAutomation) :=
  {| url := url a; username := username a; password := password a;
     headless := headless a; timeout := timeout a;
     config_browser_slow_mo := config_browser_slow_mo a;
     playwright := playwright a; browser := browser a; context := h;
     page := page a |}.

Definition set_page (h : option handle) (a : UiPathAutomation) :=
  {| url := url a; username := username a; password := password a;
     headless := headless a; timeout := timeout a;
     config_browser_slow_mo := config_browser_slow_mo a;
     playwright := playwright a; browser := browser a; context := context a;
     page := h |}.

Definition set_headless (b : bool) (a : UiPathAutomation) :=
  {| url := url a; username := username a; password := password a;
     headless := b; timeout := timeout a;
     config_browser_slow_mo := config_browser_slow_mo a;
     playwright := playwright a; browser := browser a; context := context a;
     page := page a |}.

(** ** The monad: state that survives an exception *)

Definition M (A : Type) : Type := world -> outcome A * world.

Definition ret {A} (a : A) : M A := fun w => (Returns a, w).

Definition bind {A B} (m : M A) (k : A -> M B) : M B :=
  fun w =>
    match m w with
    | (Returns a, w') => k a w'
    | (Raises e, w') => (Raises e, w')
    end.

Declare Scope py_scope.
Delimit Scope py_scope with py.
Notation "x <- m ;; k" := (bind m (fun x => k))
  (at level 61, m at next level, right associativity) : py_scope.
Notation "m ;; k" := (bind m (fun _ => k))
  (at level 61, right associativity) : py_scope.
Open Scope py_scope.

Definition raise {A} (e : exn) : M A := fun w => (Raises e, w).

(** [try: body / except: handler] *)
Definition try_except {A} (body : M A) (handler : exn -> M A) : M A :=
  fun w =>
    match body w with
    | (Returns a, w') => (Returns a, w')
    | (Raises e, w') => handler e w'
    end.

(** [try: body / except Exception as e: handler]; the handler gets
    [str(e)].  A [KeyboardInterrupt] passes through. *)
Definition try_except_Exception {A} (body : M A) (handler : string -> M A)
  : M A :=
  fun w =>
    match body w with
    | (Raises (Exception msg), w') => handler msg w'
    | r => r
    end.

(** [try: body / finally: final] *)
Definition try_finally {A} (body : M A) (final : M unit) : M A :=
  fun w =>
    match body w with
    | (r, w') =>
        match final w' with
        | (Returns _, w'') => (r, w'')
        | (Raises e, w'') => (Raises e, w'')
        end
    end.

(** [for x in xs: ...] where the body says whether it left the loop
    ([break] or [return]); the result is the item it left at. *)
Fixpoint for_first {A} (body : A -> M bool) (xs : list A) : M (option A) :=
  match xs with
  | [] => ret None
  | x :: xs' =>
      left <- body x ;;
      if left then ret (Some x) else for_first body xs'
  end.

Definition get_self : M UiPathAutomation := fun w => (Returns (self w), w).

Definition update_self (f : UiPathAutomation -> UiPathAutomation) : M unit :=
  fun w => (Returns tt, {| self := f (self w); trace := trace w |}).

Definition logger (lvl : level) (msg : string) : M unit :=
  fun w => (Returns tt, emit (Log lvl msg) w).

Definition print (msg : string) : M unit :=
  fun w => (Returns tt, emit (Print msg) w).

Definition print_help : M unit :=
  fun w => (Returns tt, emit PrintHelp w).

(** [for x in xs: body] *)
Fixpoint for_each {A} (body : A -> M unit) (xs : list A) : M unit :=
  match xs with
  | [] => ret tt
  | x :: xs' => body x ;; for_each body xs'
  end.

(** [for x in xs: body], the body updating a local variable. *)
Fixpoint for_fold {A S} (body : S -> A -> M S) (xs : list A) (s : S) : M S :=
  match xs with
  | [] => ret s
  | x :: xs' => s' <- body s x ;; for_fold body xs' s'
  end.

Definition is_set (h : option handle) : bool :=
  match h with Some _ => true | None => false end.

Definition found {A} (o : option A) : bool :=
  match o with Some _ => true | None => false end.

(** [enumerate(xs)] *)
Definition enumerate {A} (xs : list A) : list (nat * A) :=
  combine (seq 0 (List.length xs)) xs.

(** [s * n] *)
Fixpoint repeat_str (s : string) (n : nat) : string :=
  match n with
  | O => EmptyString
  | S n' => s ++ repeat_str s n'
  end.

(** [d[k] = v] on a dict, which keeps the order of first insertion. *)
Fixpoint dict_set (k : string) (v : bool) (d : list (string * bool))
  : list (string * bool) :=
  match d with
  | [] => [(k, v)]
  | (k', v') :: d' =>
      if String.eqb k k' then (k, v) :: d' else (k', v') :: dict_set k v d'
  end.

(** A discovered job: [{'name': ..., 'index': ..., 'element': ...}]. *)
Record job : Type := {
  name : string;
  index : nat;
  element : locator
}.

(** The parsed command line. *)
Module Args.
Record t : Type := {
  jobs : option (list string);    (* --job, action='append': None when absent *)
  list_jobs : bool;
  all : bool;
  config : string;
  headless : bool
}.
End Args.

(** ** Selector tables, as the methods spell them *)

Import Py.

Definition username_selectors : list string :=
  [ "input[name=" ++ quoted "email" ++ "]";
    "input[name=" ++ quoted "username" ++ "]";
    "input[type=" ++ quoted "email" ++ "]";
    "input[type=" ++ quoted "text" ++ "][placeholder*=" ++ quoted "email" ++ " i]";
    "input[placeholder*=" ++ quoted "username" ++ " i]" ].

Definition password_selectors : list string :=
  [ "input[name=" ++ quoted "password" ++ "]";
    "input[type=" ++ quoted "password" ++ "]" ].

Definition login_button_selectors : list string :=
  [ "button[type=" ++ quoted "submit" ++ "]";
    "button:has-text(" ++ quoted "Sign in" ++ ")";
    "button:has-text(" ++ quoted "Login" ++ ")";
    "button:has-text(" ++ quoted "Log in" ++ ")";
    "input[type=" ++ quoted "submit" ++ "]" ].

Definition logged_in_indicators : list string :=
  [ "text=Jobs";
    "text=Processes";
    "text=Robots";
    "text=Orchestrator";
    "[data-testid*=" ++ quoted "menu" ++ "]";
    "nav";
    "[role=" ++ quoted "navigation" ++ "]" ].

Definition login_indicators : list string :=
  [ "text=Sign in";
    "text=Login";
    "input[type=" ++ quoted "password" ++ "]" ].

Definition job_links : list string :=
  [ "a:has-text(" ++ quoted "Jobs" ++ ")";
    "a:has-text(" ++ quoted "Processes" ++ ")";
    "a[href*=" ++ quoted "/jobs" ++ "]";
    "a[href*=" ++ quoted "/processes" ++ "]";
    "button:has-text(" ++ quoted "Jobs" ++ ")";
    "button:has-text(" ++ quoted "Processes" ++ ")" ].

Definition job_item_selectors : list string :=
  [ "tr[data-testid*=" ++ quoted "job" ++ "]";
    "tr[data-testid*=" ++ quoted "process" ++ "]";
    "div[data-testid*=" ++ quoted "job" ++ "]";
    "div[data-testid*=" ++ quoted "process" ++ "]";
    ".job-row";
    ".process-row";
    "tbody tr";
    "[class*=" ++ quoted "job" ++ "]";
    "[class*=" ++ quoted "process" ++ "]" ].

(** The name cell looked up inside a row. *)
Definition name_selector : string :=
  "td:first-child, [class*=" ++ quoted "name" ++ "], [class*="
  ++ quoted "title" ++ "]".

(** The page-global selectors of [run_job], with the job name embedded. *)
Definition play_button_selectors (job_name : string) : list string :=
  [ "button:has-text(" ++ quoted job_name ++ ") + button[aria-label*="
      ++ quoted "play" ++ " i]";
    "button:has-text(" ++ quoted job_name ++ ") + button[aria-label*="
      ++ quoted "run" ++ " i]";
    "tr:has-text(" ++ quoted job_name ++ ") button[aria-label*="
      ++ quoted "play" ++ " i]";
    "tr:has-text(" ++ quoted job_name ++ ") button[aria-label*="
      ++ quoted "run" ++ " i]";
    "[data-testid*=" ++ quoted "job" ++ "]:has-text(" ++ quoted job_name
      ++ ") button:has-text(" ++ quoted "Play" ++ ")";
    "[data-testid*=" ++ quoted "job" ++ "]:has-text(" ++ quoted job_name
      ++ ") button:has-text(" ++ quoted "Run" ++ ")";
    "button[title*=" ++ quoted "play" ++ " i]:near(:text=" ++ quoted job_name
      ++ ")";
    "button[title*=" ++ quoted "run" ++ " i]:near(:text=" ++ quoted job_name
      ++ ")" ].

(** The row of a job: any [tr] or [div] whose text has the name. *)
Definition job_row_selector (job_name : string) : string :=
  "tr:has-text(" ++ quoted job_name ++ "), div:has-text(" ++ quoted job_name
  ++ ")".

(** The action control looked up inside the row. *)
Definition row_play_button_selector : string :=
  "button[aria-label*=" ++ quoted "play" ++ " i], "
  ++ "button[aria-label*=" ++ quoted "run" ++ " i], "
  ++ "button:has-text(" ++ quoted "Play" ++ "), "
  ++ "button:has-text(" ++ quoted "Run" ++ "), "
  ++ "button[title*=" ++ quoted "play" ++ " i], "
  ++ "button[title*=" ++ quoted "run" ++ " i], "
  ++ "[class*=" ++ quoted "play" ++ "], "
  ++ "[class*=" ++ quoted "run" ++ "]".

(** The most records one listing returns ([elements[:50]]). *)
Definition max_jobs : nat := 50.

(** ** The script, against a runtime *)

Section Script.

Variable rt : Runtime.

(** A call is answered from the trace before it, and recorded. *)
Definition call_with {A} (oracle : list event -> call -> outcome A)
    (c : call) : M A :=
  fun w => (oracle (trace w) c, emit (Called c) w).

Definition AttributeError (attr : string) : exn :=
  Exception ("'NoneType' object has no attribute '" ++ attr ++ "'").

(** [self.page.attr] raises when [self.page] is [None]. *)
Definition self_page (attr : string) : M handle :=
  fun w =>
    match page (self w) with
    | Some h => (Returns h, w)
    | None => (Raises (AttributeError attr), w)
    end.

Definition page_goto (u : string) : M unit :=
  self_page "goto" ;; call_with (run_unit rt) (Goto u).

Definition page_wait_for_load_state (state : string) (t : option Z)
  : M unit :=
  self_page "wait_for_load_state" ;;
  call_with (run_unit rt) (WaitForLoadState state t).

Definition page_locator (selector : string) : M locator :=
  self_page "locator" ;; ret (Locator selector).

Definition page_fill (selector value : string) : M unit :=
  self_page "fill" ;; call_with (run_unit rt) (Fill selector value).

Definition page_click (selector : string) : M unit :=
  self_page "click" ;; call_with (run_unit rt) (Click selector).

Definition page_keyboard_press (key : string) : M unit :=
  self_page "keyboard" ;; call_with (run_unit rt) (KeyboardPress key).

Definition page_url : M string :=
  self_page "url" ;; call_with (run_str rt) PageUrl.

Definition page_wait_for_timeout (ms : Z) : M unit :=
  self_page "wait_for_timeout" ;; call_with (run_unit rt) (WaitForTimeout ms).

Definition page_screenshot (path : string) : M unit :=
  self_page "screenshot" ;; call_with (run_unit rt) (Screenshot path).

Definition page_set_default_timeout (ms : Z) : M unit :=
  self_page "set_default_timeout" ;;
  call_with (run_unit rt) (SetDefaultTimeout ms).

Definition is_visible (l : locator) (t : Z) : M bool :=
  call_with (run_bool rt) (IsVisible l t).

Definition locator_click (l : locator) : M unit :=
  call_with (run_unit rt) (LocatorClick l).

(** [l.all()] is [[l.nth(i) for i in range(l.count())]]. *)
Definition locator_all (l : locator) : M (list locator) :=
  n <- call_with (run_nat rt) (All l) ;;
  ret (map (Nth l) (seq 0 n)).

Definition locator_count (l : locator) : M nat :=
  call_with (run_nat rt) (Count l).

Definition inner_text (l : locator) : M string :=
  call_with (run_str rt) (InnerText l).

Definition input : M string := call_with (run_str rt) Input.

(** *** start_browser *)

Definition start_browser : M unit :=
  logger INFO "Starting browser..." ;;
  call_with (run_unit rt) SyncPlaywrightStart ;;
  update_self (set_playwright (Some Handle)) ;;
  a <- get_self ;;
  call_with (run_unit rt) (Launch (headless a) (config_browser_slow_mo a)) ;;
  update_self (set_browser (Some Handle)) ;;
  call_with (run_unit rt) (NewContext 1920 1080) ;;
  update_self (set_context (Some Handle)) ;;
  call_with (run_unit rt) NewPage ;;
  update_self (set_page (Some Handle)) ;;
  a <- get_self ;;
  page_set_default_timeout (timeout a) ;;
  logger INFO "Browser started successfully".

(** *** _is_logged_in *)

(** One turn of an indicator loop:
    [try: if self.page.locator(indicator).is_visible(timeout=t): return ...]
    [except: continue]. *)
Definition indicator_visible (t : Z) (indicator : string) : M bool :=
  try_except
    (l <- page_locator indicator ;; is_visible l t)
    (fun _ => ret false).

Definition _is_logged_in : M bool :=
  try_except_Exception
    (positive <- for_first (indicator_visible 2000) logged_in_indicators ;;
     if found positive then ret true
     else
       negative <- for_first (indicator_visible 1000) login_indicators ;;
       if found negative then ret false
       else ret true)
    (fun e =>
       logger DEBUG ("Could not determine login status: " ++ e) ;;
       ret false).

(** *** login *)

(** One turn of a selector loop of [login] and [navigate_to_jobs]:
    [try: if self.page.locator(selector).is_visible(timeout=2000):]
    [         act; break]
    [except: continue]. *)
Definition attempt (selector : string) (act : M unit) : M bool :=
  try_except
    (l <- page_locator selector ;;
     visible <- is_visible l 2000 ;;
     if visible then act ;; ret true else ret false)
    (fun _ => ret false).

Definition fill_username (a : UiPathAutomation) (selector : string)
  : M bool :=
  attempt selector
    (page_fill selector (username a) ;;
     logger INFO ("Filled username using selector: " ++ selector)).

Definition fill_password (a : UiPathAutomation) (selector : string)
  : M bool :=
  attempt selector
    (page_fill selector (password a) ;;
     logger INFO "Filled password").

Definition click_login (selector : string) : M bool :=
  attempt selector
    (page_click selector ;;
     logger INFO ("Clicked login button using selector: " ++ selector)).

Definition login : M bool :=
  a <- get_self ;;
  logger INFO ("Navigating to " ++ url a ++ "...") ;;
  try_except_Exception
    (page_goto (url a) ;;
     page_wait_for_load_state "networkidle" None ;;
     already <- _is_logged_in ;;
     if already then
       logger INFO "Already logged in" ;;
       ret true
     else if truthy (username a) && truthy (password a) then
       logger INFO "Attempting to log in..." ;;
       username_filled <- for_first (fill_username a) username_selectors ;;
       if negb (found username_filled) then
         logger WARNING
           "Could not find username field. You may need to log in manually." ;;
         ret false
       else
         password_filled <- for_first (fill_password a) password_selectors ;;
         if negb (found password_filled) then
           logger WARNING "Could not find password field." ;;
           ret false
         else
           login_clicked <- for_first click_login login_button_selectors ;;
           (if negb (found login_clicked) then
              logger WARNING
                "Could not find login button. Trying to press Enter..." ;;
              page_keyboard_press "Enter"
            else ret tt) ;;
           page_wait_for_load_state "networkidle" (Some 10000%Z) ;;
           logged <- _is_logged_in ;;
           if logged then
             logger INFO "Login successful" ;;
             ret true
           else
             logger WARNING "Login may have failed. Check credentials." ;;
             ret false
     else
       logger WARNING
         "No credentials provided. Please log in manually or set UIPATH_USERNAME and UIPATH_PASSWORD" ;;
       ret false)
    (fun e =>
       logger ERROR ("Error during login: " ++ e) ;;
       ret false).

(** *** navigate_to_jobs *)

Definition click_job_link (link_selector : string) : M bool :=
  attempt link_selector
    (page_click link_selector ;;
     page_wait_for_load_state "networkidle" None ;;
     logger INFO ("Clicked on jobs link: " ++ link_selector)).

Definition navigate_to_jobs : M unit :=
  logger INFO "Navigating to jobs page..." ;;
  try_except_Exception
    (clicked <- for_first click_job_link job_links ;;
     if found clicked then ret tt
     else
       u <- page_url ;;
       on_jobs <- (if contains "/jobs" u then ret true
                   else u' <- page_url ;; ret (contains "/processes" u')) ;;
       if on_jobs then logger INFO "Already on jobs page"
       else
         logger WARNING
           "Could not find jobs link. Attempting direct navigation..." ;;
         a <- get_self ;;
         page_goto (rstrip_slash (url a) ++ "/jobs") ;;
         page_wait_for_load_state "networkidle" None)
    (fun e => logger ERROR ("Error navigating to jobs: " ++ e)).

(** *** list_jobs *)

(** The body of the inner loop: one row, its position [i], the records
    gathered so far.  [jobs.append] is the last statement of the [try],
    so a row either adds one record or leaves [jobs] as it was. *)
Definition extract_job (jobs : list job) (row : nat * locator)
  : M (list job) :=
  let (i, element) := row in
  try_except
    (let name := First (Sub element name_selector) in
     n <- locator_count name ;;
     if (0 <? n)%nat then
       text <- inner_text name ;;
       let job_name := strip text in
       if truthy job_name then
         ret (jobs ++ [{| name := job_name; index := i;
                          element := element |}])%list
       else ret jobs
     else ret jobs)
    (fun _ => ret jobs).

(** The inner loop over [enumerate(elements[:50])]. *)
Definition extract_jobs (elements : list locator) (jobs : list job)
  : M (list job) :=
  for_fold extract_job (enumerate (firstn max_jobs elements)) jobs.

(** One turn of the outer loop; the flag says whether it ends the loop
    ([if jobs: break]). *)
Definition try_job_items (jobs : list job) (selector : string)
  : M (list job * bool) :=
  try_except
    (l <- page_locator selector ;;
     elements <- locator_all l ;;
     if (0 <? List.length elements)%nat then
       logger INFO ("Found " ++ str_of_nat (List.length elements)
                    ++ " items using selector: " ++ selector) ;;
       jobs' <- extract_jobs elements jobs ;;
       ret (jobs', match jobs' with [] => false | _ => true end)
     else ret (jobs, false))
    (fun _ => ret (jobs, false)).

Fixpoint scan_job_items (selectors : list string) (jobs : list job)
  : M (list job) :=
  match selectors with
  | [] => ret jobs
  | selector :: rest =>
      r <- try_job_items jobs selector ;;
      if snd r then ret (fst r) else scan_job_items rest (fst r)
  end.

Definition list_jobs : M (list job) :=
  logger INFO "Listing available jobs..." ;;
  navigate_to_jobs ;;
  page_wait_for_timeout 2000 ;;
  jobs <- scan_job_items job_item_selectors [] ;;
  (match jobs with
   | [] =>
       logger WARNING
         "Could not find jobs using standard selectors. Page structure may be different." ;;
       u <- page_url ;;
       logger INFO ("Page URL: " ++ u) ;;
       logger INFO "Saving page screenshot for debugging..." ;;
       page_screenshot "jobs_page_debug.png"
   | _ => ret tt
   end) ;;
  ret jobs.

(** *** run_job *)

(** The guarded block: the row, then the button inside the row. *)
Definition row_pass (job_name : string) : M bool :=
  l <- page_locator (job_row_selector job_name) ;;
  let job_row := First l in
  row_visible <- is_visible job_row 5000 ;;
  if row_visible then
    logger INFO ("Found job row for: " ++ job_name) ;;
    let play_button := First (Sub job_row row_play_button_selector) in
    button_visible <- is_visible play_button 2000 ;;
    if button_visible then
      logger INFO ("Found play button for job: " ++ job_name) ;;
      locator_click play_button ;;
      page_wait_for_timeout 2000 ;;
      logger INFO ("Successfully triggered job: " ++ job_name) ;;
      ret true
    else
      logger ERROR ("Could not find play button for job: " ++ job_name) ;;
      ret false
  else
    logger ERROR ("Could not find job: " ++ job_name) ;;
    ret false.

(** One turn of the loop of the handler. *)
Definition click_play (selector : string) : M bool :=
  attempt selector
    (page_click selector ;;
     page_wait_for_timeout 2000 ;;
     logger INFO ("Successfully triggered job using selector: " ++ selector)).

(** The handler's loop over the page-global selectors. *)
Definition fallback_pass (job_name : string) : M bool :=
  clicked <- for_first click_play (play_button_selectors job_name) ;;
  if found clicked then ret true
  else
    logger ERROR ("Could not trigger job: " ++ job_name) ;;
    ret false.

Definition run_job (job_name : string) : M bool :=
  logger INFO ("Attempting to run job: " ++ job_name) ;;
  navigate_to_jobs ;;
  page_wait_for_timeout 2000 ;;
  try_except_Exception
    (row_pass job_name)
    (fun e =>
       logger ERROR ("Error running job " ++ job_name ++ ": " ++ e) ;;
       fallback_pass job_name).

(** *** run_all_jobs *)

Definition run_all_jobs : M (list (string * bool)) :=
  logger INFO "Running all jobs..." ;;
  jobs <- list_jobs ;;
  for_fold
    (fun results j =>
       let job_name := name j in
       ok <- run_job job_name ;;
       page_wait_for_timeout 1000 ;;
       ret (dict_set job_name ok results))
    jobs [].

(** *** close *)

Definition close : M unit :=
  logger INFO "Closing browser..." ;;
  try_except_Exception
    (a <- get_self ;;
     (if is_set (page a) then call_with (run_unit rt) PageClose
      else ret tt) ;;
     (if is_set (context a) then call_with (run_unit rt) ContextClose
      else ret tt) ;;
     (if is_set (browser a) then call_with (run_unit rt) BrowserClose
      else ret tt) ;;
     (if is_set (playwright a) then call_with (run_unit rt) PlaywrightStop
      else ret tt) ;;
     logger INFO "Browser closed")
    (fun e => logger ERROR ("Error closing browser: " ++ e)).

(** *** main, from the [try] on

    Parsing the command line and building the [UiPathAutomation] object
    come before; they give [args] and the [self] of the starting
    world. *)

Definition status (success : bool) : string :=
  if success then "✓ Success" else "✗ Failed".

Definition print_results (results : list (string * bool)) : M unit :=
  for_each
    (fun r => print ("  " ++ status (snd r) ++ ": " ++ fst r))
    results.

Definition main_steps (args : Args.t) : M unit :=
  start_browser ;;
  logged <- login ;;
  (if negb logged then
     logger ERROR
       "Login failed. Please check credentials or log in manually." ;;
     print (nl ++ "Browser will remain open for manual login. Press Enter after logging in...") ;;
     input ;;
     ret tt
   else ret tt) ;;
  (if Args.list_jobs args then
     jobs <- list_jobs ;;
     match jobs with
     | [] =>
         print (nl ++ "No jobs found. The page structure may be different.") ;;
         print "Check 'jobs_page_debug.png' for a screenshot of the current page."
     | _ =>
         print (nl ++ "Available Jobs:") ;;
         print (repeat_str "-" 50) ;;
         for_each (fun j => print ("  - " ++ name j)) jobs ;;
         print (nl ++ "Total: " ++ str_of_nat (List.length jobs)
                ++ " jobs found")
     end
   else if Args.all args then
     results <- run_all_jobs ;;
     print (nl ++ "Job Execution Results:") ;;
     print (repeat_str "-" 50) ;;
     print_results results
   else
     match Args.jobs args with
     | Some (first_name :: more_names) =>
         results <-
           for_fold
             (fun results job_name =>
                success <- run_job job_name ;;
                (if success then
                   print ("✓ Successfully triggered job: " ++ job_name)
                 else
                   print ("✗ Failed to trigger job: " ++ job_name)) ;;
                ret (dict_set job_name success results))
             (first_name :: more_names) [] ;;
         print (nl ++ "Summary:") ;;
         print (repeat_str "-" 50) ;;
         print_results results
     | _ =>
         print_help ;;
         print (nl ++ "Please specify --job, --list-jobs, or --all")
     end) ;;
  a <- get_self ;;
  if negb (headless a) then
    print (nl ++ "Browser will close in 5 seconds...") ;;
    page_wait_for_timeout 5000
  else ret tt.

Definition on_interrupt : M unit :=
  logger INFO "Interrupted by user" ;;
  print (nl ++ "Interrupted by user").

Definition on_error (e : string) : M unit :=
  logger ERROR ("Unexpected error: " ++ e) ;;
  print (nl ++ "Error: " ++ e) ;;
  a <- get_self ;;
  if is_set (page a) then
    call_with (run_unit rt) (Screenshot "error_screenshot.png") ;;
    print "Error screenshot saved as 'error_screenshot.png'"
  else ret tt.

Definition main (args : Args.t) : M unit :=
  (if Args.headless args then update_self (set_headless true)
   else ret tt) ;;
  try_finally
    (try_except
       (main_steps args)
       (fun e =>
          match e with
          | KeyboardInterrupt => on_interrupt
          | Exception msg => on_error msg
          end))
    close.

End Script.


(** * What the properties talk about *)

(** ** Events a computation adds *)

(** [adds P m]: whatever [m] appends to the trace satisfies [P]. *)
Definition adds {A} (P : event -> Prop) (m : M A) : Prop :=
  forall w, exists evs,
    trace (snd (m w)) = (trace w ++ evs)%list /\ Forall P evs.

(** [keeps_self m]: [m] assigns to no attribute of [self]. *)
Definition keeps_self {A} (m : M A) : Prop :=
  forall w, self (snd (m w)) = self w.

(** ** The four targets resolved by a selector loop *)

Inductive target : Type :=
| UsernameField
| PasswordField
| LoginButton
| JobsLink.

Definition strategies (t : target) : list string :=
  match t with
  | UsernameField => username_selectors
  | PasswordField => password_selectors
  | LoginButton => login_button_selectors
  | JobsLink => job_links
  end.

(** The turn of the loop that resolves the target. *)
Definition turn (rt : Runtime) (a : UiPathAutomation) (t : target)
  : string -> M bool :=
  match t with
  | UsernameField => fill_username rt a
  | PasswordField => fill_password rt a
  | LoginButton => click_login rt
  | JobsLink => click_job_link rt
  end.

Definition resolve (rt : Runtime) (a : UiPathAutomation) (t : target)
  : M (option string) :=
  for_first (turn rt a t) (strategies t).

(** What a turn does with the element once its probe has succeeded. *)
Definition action (rt : Runtime) (a : UiPathAutomation) (t : target)
    (selector : string) : M unit :=
  match t with
  | UsernameField =>
      page_fill rt selector (username a) ;;
      logger INFO ("Filled username using selector: " ++ selector)
  | PasswordField =>
      page_fill rt selector (password a) ;;
      logger INFO "Filled password"
  | LoginButton =>
      page_click rt selector ;;
      logger INFO ("Clicked login button using selector: " ++ selector)
  | JobsLink =>
      page_click rt selector ;;
      page_wait_for_load_state rt "networkidle" None ;;
      logger INFO ("Clicked on jobs link: " ++ selector)
  end.

(** The probe of a strategy: the page is there and says "visible". *)
Definition probe_succeeds (rt : Runtime) (selector : string) (w : world)
  : Prop :=
  page (self w) <> None
  /\ run_bool rt (trace w) (IsVisible (Locator selector) 2000) = Returns true.

Definition after_probe (selector : string) (w : world) : world :=
  emit (Called (IsVisible (Locator selector) 2000)) w.

(** The property as the specification words it: on a page whose probes do
    not depend on what was done before, the strategy returned is the first
    one in list order whose probe succeeds, and no later one is probed. *)
Definition first_visible_wins (t : target) : Prop :=
  forall rt a w pre s post,
    page (self w) <> None ->
    strategies t = (pre ++ s :: post)%list ->
    (forall tr x, In x pre ->
       run_bool rt tr (IsVisible (Locator x) 2000) = Returns false) ->
    (forall tr, run_bool rt tr (IsVisible (Locator s) 2000) = Returns true) ->
    exists w' evs,
      resolve rt a t w = (Returns (Some s), w')
      /\ trace w' = (trace w ++ evs)%list
      /\ forall x, In x post ->
           ~ In (Called (IsVisible (Locator x) 2000)) evs.

(** ** Sample pages *)

(** A page that answers the same whatever came before. *)
Definition still (shows : call -> outcome bool) (does : call -> outcome unit)
    (holds : call -> outcome nat) (reads : call -> outcome string)
  : Runtime :=
  {| run_unit := fun _ => does;
     run_bool := fun _ => shows;
     run_nat := fun _ => holds;
     run_str := fun _ => reads |}.

Definition nothing_shown (c : call) : outcome bool := Returns false.
Definition all_shown (c : call) : outcome bool := Returns true.
Definition done (c : call) : outcome unit := Returns tt.
Definition none_held (c : call) : outcome nat := Returns 0.
Definition reads_jobs_url (c : call) : outcome string :=
  Returns "https://platform.uipath.com/jobs".

(** The probe is on one of the given selectors of the page. *)
Definition probes_one_of (selectors : list string) (c : call) : bool :=
  match c with
  | IsVisible (Locator s) _ => existsb (String.eqb s) selectors
  | _ => false
  end.

Definition robot : UiPathAutomation :=
  {| url := "https://platform.uipath.com";
     username := "robot@example.com";
     password := "secret";
     headless := true;
     timeout := 30000;
     config_browser_slow_mo := 0;
     playwright := Some Handle;
     browser := Some Handle;
     context := Some Handle;
     page := Some Handle |}.

(** The object as [__init__] leaves it: no handle yet. *)
Definition fresh : UiPathAutomation :=
  set_page None
    (set_context None (set_browser None (set_playwright None robot))).

Definition started : world := {| self := robot; trace := [] |}.
Definition not_started : world := {| self := fresh; trace := [] |}.

(** Every field is shown, but the first username field cannot be filled
    (say, it is disabled). *)
Definition first_field_disabled : Runtime :=
  still all_shown
    (fun c =>
       match c with
       | Fill s _ =>
           if String.eqb s ("input[name=" ++ quoted "email" ++ "]")
           then Raises (Exception "Timeout 30000ms exceeded")
           else Returns tt
       | _ => Returns tt
       end)
    none_held reads_jobs_url.

(** The second and the third username field are shown, the first is not. *)
Definition two_fields_shown : Runtime :=
  still
    (fun c =>
       Returns (probes_one_of
                  [ "input[name=" ++ quoted "username" ++ "]";
                    "input[type=" ++ quoted "email" ++ "]" ] c))
    done none_held reads_jobs_url.

(** ** Session state *)

Inductive SessionState : Type :=
| Authenticated
| Unauthenticated
| Unknown.

(** The classifier in the specification's words, to be compared with
    [_is_logged_in]: positive indicators first, then negative ones, and
    [Unknown] when neither kind is seen. *)
Definition spec_classify (rt : Runtime) : M SessionState :=
  positive <- for_first (indicator_visible rt 2000) logged_in_indicators ;;
  if found positive then ret Authenticated
  else
    negative <- for_first (indicator_visible rt 1000) login_indicators ;;
    if found negative then ret Unauthenticated
    else ret Unknown.

(** No indicator of either kind is ever reported visible. *)
Definition no_indicator_shown (rt : Runtime) : Prop :=
  (forall tr ind, In ind logged_in_indicators ->
     run_bool rt tr (IsVisible (Locator ind) 2000) <> Returns true)
  /\ (forall tr ind, In ind login_indicators ->
        run_bool rt tr (IsVisible (Locator ind) 1000) <> Returns true).

(** The property as the specification words it: the answer given for a
    page without evidence is an answer of its own, given for no page that
    shows evidence. *)
Definition unknown_is_explicit : Prop :=
  forall rt w rt' w',
    fst (spec_classify rt w) = Returns Unknown ->
    fst (spec_classify rt' w') <> Returns Unknown ->
    fst (_is_logged_in rt w) <> fst (_is_logged_in rt' w').

(** The probes of a list of indicators, in list order. *)
Definition probes (t : Z) (inds : list string) : list event :=
  map (fun ind => Called (IsVisible (Locator ind) t)) inds.

(** Probed one after the other from the trace [tr] on, none of the
    indicators is reported visible when its turn comes (the probe says
    "not visible" or raises). *)
Fixpoint none_visible (rt : Runtime) (t : Z) (tr : list event)
    (inds : list string) : Prop :=
  match inds with
  | [] => True
  | ind :: rest =>
      run_bool rt tr (IsVisible (Locator ind) t) <> Returns true
      /\ none_visible rt t (tr ++ [Called (IsVisible (Locator ind) t)]) rest
  end.

(** The world after the given events. *)
Definition after (evs : list event) (w : world) : world :=
  {| self := self w; trace := trace w ++ evs |}.

(** A page that shows nothing at all. *)
Definition blank : Runtime :=
  still nothing_shown done none_held reads_jobs_url.

(** The console after login: the text "Jobs" is shown. *)
Definition jobs_page : Runtime :=
  still (fun c => Returns (probes_one_of ["text=Jobs"] c))
    done none_held reads_jobs_url.

(** A page in between: the menu is shown, and so are a "Sign in" text and
    a password field. *)
Definition mixed_signals : Runtime :=
  still
    (fun c =>
       Returns (probes_one_of
                  [ "[data-testid*=" ++ quoted "menu" ++ "]";
                    "text=Sign in";
                    "input[type=" ++ quoted "password" ++ "]" ] c))
    done none_held reads_jobs_url.

(** ** The job trigger *)

(** What [run_job] does before its guarded block. *)
Definition before_row_pass (rt : Runtime) (job_name : string) : M unit :=
  logger INFO ("Attempting to run job: " ++ job_name) ;;
  navigate_to_jobs rt ;;
  page_wait_for_timeout rt 2000.

(** The record [run_job] logs when it catches an error of the row pass. *)
Definition row_error (job_name msg : string) : event :=
  Log ERROR ("Error running job " ++ job_name ++ ": " ++ msg).

(** A probe of one of the page-global selectors for the job. *)
Definition fallback_probe (job_name : string) (ev : event) : Prop :=
  exists s,
    In s (play_button_selectors job_name)
    /\ ev = Called (IsVisible (Locator s) 2000).

(** The property as the specification words it: when the row pass fails
    without raising, the page-global pass is tried before the trigger
    gives up. *)
Definition fallback_before_failure : Prop :=
  forall rt job_name w w1 w2 w',
    before_row_pass rt job_name w = (Returns tt, w1) ->
    row_pass rt job_name w1 = (Returns false, w2) ->
    run_job rt job_name w = (Returns false, w') ->
    exists evs,
      trace w' = (trace w2 ++ evs)%list
      /\ Exists (fallback_probe job_name) evs.

(** The property as the specification words it: the trigger returns a
    boolean whatever happens, and an exception it catches becomes
    [False]. *)
Definition trigger_converts_exceptions : Prop :=
  forall rt job_name w,
    (exists b, fst (run_job rt job_name w) = Returns b)
    /\ (forall w1 e w2,
          before_row_pass rt job_name w = (Returns tt, w1) ->
          row_pass rt job_name w1 = (Raises e, w2) ->
          fst (run_job rt job_name w) = Returns false).

(** What a turn of the page-global pass does once its probe has
    succeeded: the click, the wait, the record. *)
Definition play_action (rt : Runtime) (selector : string) : M unit :=
  page_click rt selector ;;
  page_wait_for_timeout rt 2000 ;;
  logger INFO ("Successfully triggered job using selector: " ++ selector).

(** Started in [w], the page-global pass triggers the job and ends in
    [w']: the turns of the selectors before [s] have failed, the probe of
    [s] says "visible", and the click on it and the wait complete. *)
Definition fallback_triggers (rt : Runtime) (job_name : string)
    (w w' : world) : Prop :=
  exists pre s post w1,
    play_button_selectors job_name = (pre ++ s :: post)%list
    /\ for_first (click_play rt) pre w = (Returns None, w1)
    /\ probe_succeeds rt s w1
    /\ play_action rt s (after_probe s w1) = (Returns tt, w').

(** Started in [w], the page-global pass triggers nothing and ends in
    [w']: the turn of every selector has failed, and the failure is
    logged. *)
Definition fallback_gives_up (rt : Runtime) (job_name : string)
    (w w' : world) : Prop :=
  exists w1,
    for_first (click_play rt) (play_button_selectors job_name) w
    = (Returns None, w1)
    /\ w' = emit (Log ERROR ("Could not trigger job: " ++ job_name)) w1.

(** Nothing on the page answers to the selectors made for the job: its
    row is never reported visible (and the probe of the row is not
    interrupted), and no page-global selector for it is ever reported
    visible.  What the page shows otherwise is left open. *)
Definition job_not_shown (rt : Runtime) (job_name : string) : Prop :=
  (forall tr,
     run_bool rt tr (IsVisible (First (Locator (job_row_selector job_name))) 5000)
     <> Returns true
     /\ run_bool rt tr
          (IsVisible (First (Locator (job_row_selector job_name))) 5000)
        <> Raises KeyboardInterrupt)
  /\ (forall tr s, In s (play_button_selectors job_name) ->
        run_bool rt tr (IsVisible (Locator s) 2000) <> Returns true).

(** The console shows its Jobs link; probing the row of the job asked
    for times out, and nothing else is shown. *)
Definition ghost_job : Runtime :=
  still
    (fun c =>
       match c with
       | IsVisible (First _) _ => Raises (Exception "Timeout 5000ms exceeded")
       | _ => Returns (probes_one_of ["a:has-text(" ++ quoted "Jobs" ++ ")"] c)
       end)
    done none_held reads_jobs_url.

(** The row is not shown; everything asked for by a plain selector is. *)
Definition row_hidden : Runtime :=
  still
    (fun c =>
       match c with
       | IsVisible (First _) _ => Returns false
       | _ => Returns true
       end)
    done none_held reads_jobs_url.

(** Probing the row raises (two rows carry the name); everything asked for
    by a plain selector is shown. *)
Definition row_probe_raises : Runtime :=
  still
    (fun c =>
       match c with
       | IsVisible (First _) _ => Raises (Exception "strict mode violation")
       | _ => Returns true
       end)
    done none_held reads_jobs_url.

(** The page is gone: every wait raises. *)
Definition waits_fail : Runtime :=
  still nothing_shown
    (fun c =>
       match c with
       | WaitForTimeout _ => Raises (Exception "Target page has been closed")
       | _ => Returns tt
       end)
    none_held reads_jobs_url.

(** ** Job discovery *)

(** What [list_jobs] does before it scans the row selectors. *)
Definition before_listing (rt : Runtime) : M unit :=
  logger INFO "Listing available jobs..." ;;
  navigate_to_jobs rt ;;
  page_wait_for_timeout rt 2000.

(** The name cell of a row. *)
Definition name_cell (row : locator) : locator :=
  First (Sub row name_selector).

(** A record was made from row [i] of the rows a selector matched. *)
Definition row_of (selector : string) (j : job) : Prop :=
  element j = Nth (Locator selector) (index j) /\ name j <> "".

(** One row never ends the inner loop: its turn returns, with the records
    as they were or with one record for this row added, and the loop goes
    on with the rows that follow. *)
Definition rows_are_skipped_not_fatal (rt : Runtime) : Prop :=
  forall (jobs : list job) (i : nat) (row : locator) (rest : list (nat * locator))
         (w : world),
    exists jobs' w',
      extract_job rt jobs (i, row) w = (Returns jobs', w')
      /\ (jobs' = jobs
          \/ exists n, n <> ""
               /\ jobs' = (jobs ++ [{| name := n; index := i;
                                       element := row |}])%list)
      /\ for_fold (extract_job rt) ((i, row) :: rest) jobs w
         = for_fold (extract_job rt) rest jobs' w'
      /\ ((forall n, run_nat rt (trace w) (Count (name_cell row))
                     <> Returns (S n))
          -> jobs' = jobs)
      /\ ((forall text,
             run_str rt (trace (emit (Called (Count (name_cell row))) w))
               (InnerText (name_cell row)) = Returns text ->
             strip text = "")
          -> jobs' = jobs).

(** The query [list_jobs] makes for a row selector. *)
Definition queries (selector : string) : event :=
  Called (All (Locator selector)).

(** The property as the specification words it: discovery stops at the
    first strategy that matches at least one row, so no strategy after it
    is queried. *)
Definition stops_at_first_matching_rows : Prop :=
  forall rt w w' jobs evs pre sel post n,
    list_jobs rt w = (Returns jobs, w') ->
    trace w' = (trace w ++ evs)%list ->
    job_item_selectors = (pre ++ sel :: post)%list ->
    (forall tr x, In x pre -> run_nat rt tr (All (Locator x)) = Returns 0) ->
    (forall tr, run_nat rt tr (All (Locator sel)) = Returns (S n)) ->
    forall x, In x post -> ~ In (queries x) evs.

(** From [w] to [w'], the turns of the outer loop for these selectors,
    in order, each entered with no record and ending without one. *)
Inductive passed_over (rt : Runtime) : list string -> world -> world -> Prop :=
| passed_none (w : world) : passed_over rt [] w w
| passed_next (sel : string) (rest : list string) (w w1 w2 : world) :
    try_job_items rt [] sel w = (Returns ([], false), w1) ->
    passed_over rt rest w1 w2 ->
    passed_over rt (sel :: rest) w w2.

(** An event that is not a query for rows. *)
Definition no_query (ev : event) : Prop :=
  match ev with
  | Called (All _) => False
  | _ => True
  end.

(** Sixty rows match ["tbody tr"], each with a name; nothing else
    matches. *)
Definition sixty_rows : Runtime :=
  still nothing_shown done
    (fun c =>
       match c with
       | All (Locator s) => Returns (if String.eqb s "tbody tr" then 60 else 0)
       | Count _ => Returns 1
       | _ => Returns 0
       end)
    (fun c =>
       match c with
       | InnerText _ => Returns "Nightly export"
       | _ => Returns "https://platform.uipath.com/jobs"
       end).

(** Three rows match ["tbody tr"]: the first has a name, reading the
    second raises, the third has a name with blanks around it.  Five
    elements match the later selector [[class*="job"]], all with names. *)
Definition three_rows : Runtime :=
  still nothing_shown done
    (fun c =>
       match c with
       | All (Locator s) =>
           Returns (if String.eqb s "tbody tr" then 3
                    else if String.eqb s ("[class*=" ++ quoted "job" ++ "]")
                         then 5 else 0)
       | Count _ => Returns 1
       | _ => Returns 0
       end)
    (fun c =>
       match c with
       | InnerText (First (Sub (Nth (Locator s) i) _)) =>
           if String.eqb s "tbody tr" then
             match i with
             | 0 => Returns "Invoice Sync"
             | 1 => Raises (Exception "Element is not attached to the DOM")
             | _ => Returns ("  Cleanup" ++ nl)
             end
           else Returns "job"
       | _ => Returns "https://platform.uipath.com/jobs"
       end).

(** ** Login *)

(** The world once [login] has logged its first record, gone to the
    console and waited for it to load. *)
Definition arrived (w : world) : world :=
  emit (Called (WaitForLoadState "networkidle" None))
    (emit (Called (Goto (url (self w))))
       (emit (Log INFO ("Navigating to " ++ url (self w) ++ "...")) w)).

(** The runtime lets [login] arrive: the page is there, and neither the
    navigation nor the wait raises. *)
Definition arrives (rt : Runtime) (w : world) : Prop :=
  page (self w) <> None
  /\ run_unit rt
       (trace (emit (Log INFO ("Navigating to " ++ url (self w) ++ "...")) w))
       (Goto (url (self w))) = Returns tt
  /\ run_unit rt
       (trace (emit (Called (Goto (url (self w))))
                 (emit (Log INFO ("Navigating to " ++ url (self w) ++ "..."))
                    w)))
       (WaitForLoadState "networkidle" None) = Returns tt.

(** An event that only looks at the page or writes a log record: no
    field is filled, nothing is clicked, no key is pressed. *)
Definition only_looks (ev : event) : Prop :=
  match ev with
  | Called (IsVisible _ _) => True
  | Log _ _ => True
  | _ => False
  end.

(** ** Teardown *)

(** A release call is made only on a handle that is set. *)
Definition releases_what_is_set (a : UiPathAutomation) (ev : event) : Prop :=
  match ev with
  | Called PageClose => page a <> None
  | Called ContextClose => context a <> None
  | Called BrowserClose => browser a <> None
  | Called PlaywrightStop => playwright a <> None
  | Log _ _ => True
  | _ => False
  end.

(** The record [close] writes on entry, and nothing else writes. *)
Definition is_closing (ev : event) : bool :=
  match ev with
  | Log INFO msg => String.eqb msg "Closing browser..."
  | _ => false
  end.

(** How often [close] was entered, read off a trace. *)
Definition closings (tr : list event) : nat :=
  List.length (filter is_closing tr).

Definition not_closing (ev : event) : Prop := is_closing ev = false.

(** The four release calls of [close]. *)
Definition is_release (ev : event) : bool :=
  match ev with
  | Called PageClose | Called ContextClose | Called BrowserClose
  | Called PlaywrightStop => true
  | _ => false
  end.

(** An event that is no part of a teardown: neither the record [close]
    writes on entry nor a release call. *)
Definition no_teardown (ev : event) : Prop :=
  is_closing ev = false /\ is_release ev = false.

(** [if args.headless: automation.headless = True], the statement before
    the [try] of [main]. *)
Definition apply_headless (args : Args.t) : M unit :=
  if Args.headless args then update_self (set_headless true) else ret tt.

(** The guarded part of [main]: its steps under the two handlers, without
    the [finally]. *)
Definition guarded_steps (rt : Runtime) (args : Args.t) : M unit :=
  try_except
    (main_steps rt args)
    (fun e =>
       match e with
       | KeyboardInterrupt => on_interrupt
       | Exception msg => on_error rt msg
       end).

(** The property as the claim words it: [close] returns to its caller
    whatever the runtime does. *)
Definition close_never_raises : Prop :=
  forall rt w, exists w', close rt w = (Returns tt, w').

(** The user interrupts the release of the page. *)
Definition interrupted_release : Runtime :=
  still nothing_shown
    (fun c =>
       match c with
       | PageClose => Raises KeyboardInterrupt
       | _ => Returns tt
       end)
    none_held reads_jobs_url.

(** Every release call raises: the browser has crashed. *)
Definition release_fails : Runtime :=
  still nothing_shown
    (fun c => Raises (Exception "Browser has been closed"))
    none_held reads_jobs_url.

(** Two rows match ["tbody tr"] but their name cells are blank; one
    element matches the later selector [[class*="job"]] and has a name. *)
Definition nameless_rows : Runtime :=
  still nothing_shown done
    (fun c =>
       match c with
       | All (Locator s) =>
           Returns (if String.eqb s "tbody tr" then 2
                    else if String.eqb s ("[class*=" ++ quoted "job" ++ "]")
                         then 1 else 0)
       | Count _ => Returns 1
       | _ => Returns 0
       end)
    (fun c =>
       match c with
       | InnerText (First (Sub (Nth (Locator s) _) _)) =>
           if String.eqb s "tbody tr" then Returns "   "
           else Returns "Report Gen"
       | _ => Returns "https://platform.uipath.com/jobs"
       end).

(** ** Runs of [main] *)

Definition run_one_job : Args.t :=
  {| Args.jobs := Some ["Invoice Sync"];
     Args.list_jobs := false;
     Args.all := false;
     Args.config := "config.json";
     Args.headless := true |}.

(** Chromium cannot be launched. *)
Definition launch_fails : Runtime :=
  still nothing_shown
    (fun c =>
       match c with
       | Launch _ _ => Raises (Exception "Executable doesn't exist")
       | _ => Returns tt
       end)
    none_held reads_jobs_url.

(** The user interrupts the settle wait of the trigger. *)
Definition interrupted_wait : Runtime :=
  still nothing_shown
    (fun c =>
       match c with
       | WaitForTimeout _ => Raises KeyboardInterrupt
       | _ => Returns tt
       end)
    none_held reads_jobs_url.

(** * Further properties: what they talk about *)

From Stdlib Require Import Sorted.

(** ** The classifier's probes *)

(** A probe of the classifier: a positive indicator with the long
    time-out, or a negative one with the short time-out. *)
Definition indicator_probe (ev : event) : Prop :=
  exists ind t,
    ev = Called (IsVisible (Locator ind) t)
    /\ ((In ind logged_in_indicators /\ t = 2000%Z)
        \/ (In ind login_indicators /\ t = 1000%Z)).

(** The time-outs of the probes of a trace, added up (milliseconds). *)
Fixpoint probe_budget (tr : list event) : Z :=
  match tr with
  | [] => 0
  | Called (IsVisible _ t) :: tr' => t + probe_budget tr'
  | _ :: tr' => probe_budget tr'
  end.

(** The login page: "Sign in" and a password field are shown, and so are
    the second username field and the submit button. *)
Definition login_page : Runtime :=
  still
    (fun c =>
       Returns (probes_one_of
                  [ "text=Sign in";
                    "input[name=" ++ quoted "username" ++ "]";
                    "input[type=" ++ quoted "password" ++ "]";
                    "button[type=" ++ quoted "submit" ++ "]" ] c))
    done none_held reads_jobs_url.

(** ** Login *)

(** The first record of [login]. *)
Definition navigating (w : world) : event :=
  Log INFO ("Navigating to " ++ url (self w) ++ "...").

(** A credential is typed only where it belongs: the username into an
    element found by a username selector, the password into one found by
    a password selector. *)
Definition fills_where_meant (a : UiPathAutomation) (ev : event) : Prop :=
  match ev with
  | Called (Fill selector value) =>
      (In selector username_selectors /\ value = username a)
      \/ (In selector password_selectors /\ value = password a)
  | _ => True
  end.

(** Events that submit something: a click or a key press. *)
Definition is_submit (ev : event) : bool :=
  match ev with
  | Called (Click _) | Called (LocatorClick _) | Called (KeyboardPress _) => true
  | _ => false
  end.

(** In the events [pre], made from the trace [tr] on, [value] was typed
    into a field found by one of the selectors: the fill was called, and
    the call returned. *)
Definition typed (rt : Runtime) (selectors : list string) (value : string)
    (tr pre : list event) : Prop :=
  exists p1 selector p2,
    pre = (p1 ++ Called (Fill selector value) :: p2)%list
    /\ In selector selectors
    /\ run_unit rt (tr ++ p1) (Fill selector value) = Returns tt.

(** Both credentials were typed, each where it belongs. *)
Definition form_filled (rt : Runtime) (a : UiPathAutomation)
    (tr pre : list event) : Prop :=
  typed rt username_selectors (username a) tr pre
  /\ typed rt password_selectors (password a) tr pre.

(** In a run of events made from the trace [tr] on, every submit comes
    after [R] has been established. *)
Definition submits_after (R : list event -> list event -> Prop)
    (tr evs : list event) : Prop :=
  forall pre ev post,
    evs = (pre ++ ev :: post)%list ->
    is_submit ev = true ->
    R tr pre.

(** The navigation fails: the console cannot be reached. *)
Definition unreachable : Runtime :=
  still nothing_shown
    (fun c =>
       match c with
       | Goto _ => Raises (Exception "net::ERR_NAME_NOT_RESOLVED")
       | _ => Returns tt
       end)
    none_held reads_jobs_url.

(** The object of [robot] without credentials. *)
Definition anonymous : UiPathAutomation :=
  {| url := url robot; username := ""; password := "";
     headless := headless robot; timeout := timeout robot;
     config_browser_slow_mo := config_browser_slow_mo robot;
     playwright := playwright robot; browser := browser robot;
     context := context robot; page := page robot |}.

(** The login page without a submit button. *)
Definition login_page_no_button : Runtime :=
  still
    (fun c =>
       Returns (probes_one_of
                  [ "text=Sign in";
                    "input[name=" ++ quoted "username" ++ "]";
                    "input[type=" ++ quoted "password" ++ "]" ] c))
    done none_held reads_jobs_url.

(** [guards R m]: in what [m] adds to the trace, every submit comes after
    [R] has been established. *)
Definition guards {A} (R : list event -> list event -> Prop) (m : M A)
  : Prop :=
  forall w, exists evs,
    trace (snd (m w)) = (trace w ++ evs)%list
    /\ submits_after R (trace w) evs.

Definition no_submit (ev : event) : Prop := is_submit ev = false.

(** ** Navigation *)






(** ** Discovery *)

(** The string starts with a whitespace character. *)
Definition starts_with_space (s : string) : bool :=
  match s with
  | String c1 s1 =>
      isspace1 c1
      || match s1 with
         | String c2 s2 =>
             isspace2 c1 c2
             || match s2 with
                | String c3 _ => isspace3 c1 c2 c3
                | EmptyString => false
                end
         | EmptyString => false
         end
  | EmptyString => false
  end.

(** U+2003 EM SPACE and U+00A0 NO-BREAK SPACE, as they are encoded. *)
Definition em_space : string :=
  String (ascii_of_nat 226)
    (String (ascii_of_nat 128) (String (ascii_of_nat 131) EmptyString)).

Definition nbsp : string :=
  String (ascii_of_nat 194) (String (ascii_of_nat 160) EmptyString).

(** Three rows match ["tbody tr"]: the name of the first ends in an
    accented letter and is followed by a no-break space, the name cell of
    the second holds an em space and nothing else, the name of the third
    comes after an em space. *)
Definition accented_rows : Runtime :=
  still nothing_shown done
    (fun c =>
       match c with
       | All (Locator s) => Returns (if String.eqb s "tbody tr" then 3 else 0)
       | Count _ => Returns 1
       | _ => Returns 0
       end)
    (fun c =>
       match c with
       | InnerText (First (Sub (Nth _ i) _)) =>
           match i with
           | 0 => Returns ("Attività" ++ nbsp)
           | 1 => Returns em_space
           | _ => Returns (em_space ++ "Report")
           end
       | _ => Returns "https://platform.uipath.com/jobs"
       end).

(** A record as [list_jobs] makes them: the name is not empty and
    stripping it changes nothing (no whitespace character at either end),
    the position is below the limit. *)
Definition well_formed (j : job) : Prop :=
  name j <> "" /\ strip (name j) = name j /\ index j < max_jobs.

Definition is_screenshot (ev : event) : bool :=
  match ev with
  | Called (Screenshot _) => true
  | _ => false
  end.

(** ** The trigger *)

(** The action control of the row of a job. *)
Definition row_button (job_name : string) : locator :=
  First (Sub (First (Locator (job_row_selector job_name)))
           row_play_button_selector).

(** A click that triggers the job: on the control inside its row, or on
    an element found by one of the page-global selectors for it. *)
Definition triggers (job_name : string) (c : call) : Prop :=
  c = LocatorClick (row_button job_name)
  \/ exists s, In s (play_button_selectors job_name) /\ c = Click s.

(** From the trace [tr] on, the events [evs] end with a trigger that
    worked: a click that triggers the job was called and returned, the
    wait of two seconds after it was called and returned, and the success
    was logged. *)
Definition ends_triggered (rt : Runtime) (job_name : string)
    (tr evs : list event) : Prop :=
  exists pre c msg,
    evs = (pre ++ [Called c; Called (WaitForTimeout 2000); Log INFO msg])%list
    /\ triggers job_name c
    /\ run_unit rt (tr ++ pre) c = Returns tt
    /\ run_unit rt (tr ++ pre ++ [Called c]) (WaitForTimeout 2000) = Returns tt.

(** The listing with one job shown, its row and its play button: every
    probe succeeds. *)
Definition job_shown : Runtime :=
  still all_shown done none_held reads_jobs_url.

(** ** Running all jobs *)

(** The keys of a dict after assigning to [k]: a new key goes to the end,
    a known key stays where it is. *)
Definition add_key (ks : list string) (k : string) : list string :=
  if existsb (String.eqb k) ks then ks else (ks ++ [k])%list.

(** The keys of a dict that was empty and then assigned to in this
    order. *)
Definition keys_in_order (names : list string) : list string :=
  fold_left add_key names [].

(** One run of the trigger for a listed name, and the pause after it. *)
Definition run_and_pause (rt : Runtime) (job_name : string) : M bool :=
  ok <- run_job rt job_name ;;
  page_wait_for_timeout rt 1000 ;;
  ret ok.

(** The names are run one after the other, in order; the result is each
    name with the outcome of its run, in the same order. *)
Fixpoint run_each (rt : Runtime) (names : list string)
  : M (list (string * bool)) :=
  match names with
  | [] => ret []
  | n :: rest =>
      ok <- run_and_pause rt n ;;
      more <- run_each rt rest ;;
      ret ((n, ok) :: more)
  end.

(** [d.get(k)] *)
Fixpoint dict_get (k : string) (d : list (string * bool)) : option bool :=
  match d with
  | [] => None
  | (k', v) :: d' => if String.eqb k k' then Some v else dict_get k d'
  end.

(** The outcome of the last run of a name, if it was run. *)
Definition last_outcome (n : string) (outcomes : list (string * bool))
  : option bool :=
  fold_left (fun r p => if String.eqb n (fst p) then Some (snd p) else r)
    outcomes None.

(** Three rows match ["tbody tr"]; the first and the third carry the same
    name. *)
Definition twin_rows : Runtime :=
  still nothing_shown done
    (fun c =>
       match c with
       | All (Locator s) => Returns (if String.eqb s "tbody tr" then 3 else 0)
       | Count _ => Returns 1
       | _ => Returns 0
       end)
    (fun c =>
       match c with
       | InnerText (First (Sub (Nth _ i) _)) =>
           match i with
           | 1 => Returns "Report Gen"
           | _ => Returns "Invoice Sync"
           end
       | _ => Returns "https://platform.uipath.com/jobs"
       end).

(** ** Start and teardown *)

(** The handles are acquired in the order playwright, browser, context,
    page: a later one is never set without the ones before it. *)
Definition acquired_in_order (a : UiPathAutomation) : Prop :=
  (page a <> None -> context a <> None)
  /\ (context a <> None -> browser a <> None)
  /\ (browser a <> None -> playwright a <> None).

(** [start_browser] touched nothing but the four handles. *)
Definition same_settings (a b : UiPathAutomation) : Prop :=
  url a = url b /\ username a = username b /\ password a = password b
  /\ headless a = headless b /\ timeout a = timeout b
  /\ config_browser_slow_mo a = config_browser_slow_mo b.

(** The release calls [close] has to make for an object, in the order
    page, context, browser, playwright: one for each handle that is
    set. *)
Definition releases (a : UiPathAutomation) : list call :=
  ((if is_set (page a) then [PageClose] else [])
   ++ (if is_set (context a) then [ContextClose] else [])
   ++ (if is_set (browser a) then [BrowserClose] else [])
   ++ (if is_set (playwright a) then [PlaywrightStop] else []))%list.

(** The calls are made one after the other. *)
Definition release_all (rt : Runtime) (cs : list call) : M unit :=
  for_each (fun c => call_with (run_unit rt) c) cs.

(** Made one after the other from the trace [tr] on, each of the calls
    returns. *)
Fixpoint all_return (rt : Runtime) (tr : list event) (cs : list call)
  : Prop :=
  match cs with
  | [] => True
  | c :: rest =>
      run_unit rt tr c = Returns tt
      /\ all_return rt (tr ++ [Called c]) rest
  end.

(** The context cannot be created. *)
Definition context_fails : Runtime :=
  still nothing_shown
    (fun c =>
       match c with
       | NewContext _ _ => Raises (Exception "Browser closed")
       | _ => Returns tt
       end)
    none_held reads_jobs_url.

(** Closing the context raises; every other call returns. *)
Definition context_close_fails : Runtime :=
  still nothing_shown
    (fun c =>
       match c with
       | ContextClose => Raises (Exception "Target closed")
       | _ => Returns tt
       end)
    none_held reads_jobs_url.

(** ** main *)

Definition is_launch (ev : event) : bool :=
  match ev with
  | Called (Launch _ _) => true
  | _ => false
  end.

(** A launch, if the event is one, has these arguments. *)
Definition launches_with (h : bool) (slow_mo : Z) (ev : event) : Prop :=
  match ev with
  | Called (Launch h' slow_mo') => h' = h /\ slow_mo' = slow_mo
  | _ => True
  end.

(** How many browsers a trace launches. *)
Definition launches (tr : list event) : nat :=
  List.length (filter is_launch tr).

(** The object of [fresh] set to show the browser window. *)
Definition fresh_headed : UiPathAutomation := set_headless false fresh.

Definition run_headless : Args.t :=
  {| Args.jobs := None;
     Args.list_jobs := true;
     Args.all := false;
     Args.config := "config.json";
     Args.headless := true |}.

(** Every job fails: nothing is shown, and every wait raises. *)
Definition everything_fails : Runtime :=
  still (fun c => Raises (Exception "Target closed"))
    (fun c =>
       match c with
       | SyncPlaywrightStart | Launch _ _ | NewContext _ _ | NewPage
       | SetDefaultTimeout _ | Screenshot _ => Returns tt
       | _ => Raises (Exception "Target closed")
       end)
    (fun c => Raises (Exception "Target closed"))
    (fun c => Raises (Exception "Target closed")).

(** * The constructor

    [__init__] reads the configuration file and the environment.  Both
    are given by a [Host]; the values of the configuration are Python
    values as [json.load] makes them. *)

#[local] Set Warnings "-register-all".

Inductive pyval : Type :=
| PyNone
| PyBool (b : bool)
| PyInt (z : Z)
| PyFloat (repr : string)
| PyStr (s : string)
| PyList (items : list pyval)
| PyDict (items : list (string * pyval)).   (* a dict as the list of its items *)

Record Host : Type := {
  getenv : string -> option string;          (* os.environ, after load_dotenv *)
  path_exists : string -> outcome bool;      (* Path(p).exists() *)
  load_json : string -> outcome pyval;       (* open(p, 'r'), then json.load *)
  int_ : pyval -> outcome Z                  (* the builtin int *)
}.

Module Init.

(** The attributes [__init__] has assigned when it returns; the four
    handles are [None]. *)
Record t : Type := {
  config : pyval;
  url : pyval;
  username : string;
  password : string;
  headless : pyval;
  timeout : Z
}.

End Init.

(** [type(v).__name__] *)
Definition type_name (v : pyval) : string :=
  match v with
  | PyNone => "NoneType"
  | PyBool _ => "bool"
  | PyInt _ => "int"
  | PyFloat _ => "float"
  | PyStr _ => "str"
  | PyList _ => "list"
  | PyDict _ => "dict"
  end.

Fixpoint lookup (k : string) (items : list (string * pyval)) : option pyval :=
  match items with
  | [] => None
  | (k', v) :: items' => if String.eqb k k' then Some v else lookup k items'
  end.

(** [v.get(k, default)]: only a dict has the method. *)
Definition get (v : pyval) (k : string) (default : pyval) : M pyval :=
  match v with
  | PyDict items =>
      ret (match lookup k items with Some x => x | None => default end)
  | _ =>
      raise (Exception ("'" ++ type_name v ++ "' object has no attribute 'get'"))
  end.

(** [os.getenv(k, default)] *)
Definition os_getenv (h : Host) (k : string) (default : pyval) : pyval :=
  match getenv h k with
  | Some s => PyStr s
  | None => default
  end.

(** [s.lower()] on the letters of ASCII.  The result is only compared with
    ["true"], and that comparison does not depend on what [lower] does to
    a character outside ASCII: no such character becomes a letter of
    ["true"]. *)
Definition lower_char (c : ascii) : ascii :=
  let n := nat_of_ascii c in
  if ((65 <=? n) && (n <=? 90))%nat then ascii_of_nat (n + 32) else c.

Fixpoint lower (s : string) : string :=
  match s with
  | EmptyString => EmptyString
  | String c s' => String (lower_char c) (lower s')
  end.

Definition lift {A} (o : outcome A) : M A := fun w => (o, w).

Definition _load_config (h : Host) (config_path : string) : M pyval :=
  try_except_Exception
    (present <- lift (path_exists h config_path) ;;
     if present then lift (load_json h config_path)
     else ret (PyDict []))
    (fun e =>
       logger WARNING ("Could not load config file: " ++ e ++ ". Using defaults.") ;;
       ret (PyDict [])).

Definition __init__ (h : Host) (config_path : string) : M Init.t :=
  config <- _load_config h config_path ;;
  uipath <- get config "uipath" (PyDict []) ;;
  url_default <- get uipath "url" (PyStr "https://platform.uipath.com") ;;
  let url := os_getenv h "UIPATH_URL" url_default in
  let username :=
    match getenv h "UIPATH_USERNAME" with Some s => s | None => "" end in
  let password :=
    match getenv h "UIPATH_PASSWORD" with Some s => s | None => "" end in
  let headless :=
    PyBool (String.eqb
              (lower (match getenv h "HEADLESS" with
                      | Some s => s
                      | None => "false"
                      end))
              "true") in
  headless <-
    (match config with
     | PyDict items =>
         match lookup "browser" items with     (* 'browser' in self.config *)
         | Some browser => get browser "headless" headless
         | None => ret headless
         end
     | _ => ret headless     (* not reached: the first [get] has raised *)
     end) ;;
  uipath <- get config "uipath" (PyDict []) ;;
  timeout_default <- get uipath "timeout" (PyInt 30000) ;;
  timeout <- lift (int_ h (os_getenv h "BROWSER_TIMEOUT" timeout_default)) ;;
  ret {| Init.config := config; Init.url := url; Init.username := username;
         Init.password := password; Init.headless := headless;
         Init.timeout := timeout |}.

(** A host without a configuration file and with an empty environment;
    [int] of a Python int is that int. *)
Definition bare_host : Host :=
  {| getenv := fun _ => None;
     path_exists := fun _ => Returns false;
     load_json := fun _ => Raises (Exception "No such file or directory");
     int_ := fun v =>
       match v with
       | PyInt z => Returns z
       | _ => Raises (Exception "invalid literal for int()")
       end |}.

(** A host whose configuration file is there but is not JSON. *)
Definition garbled_host : Host :=
  {| getenv := getenv bare_host;
     path_exists := fun _ => Returns true;
     load_json := fun _ =>
       Raises (Exception "Expecting value: line 1 column 1 (char 0)");
     int_ := int_ bare_host |}.

(** A host whose file sets the address and a headless browser, and whose
    environment sets another address and [HEADLESS=false]. *)
Definition env_and_file : Host :=
  {| getenv := fun k =>
       if String.eqb k "UIPATH_URL" then Some "https://cloud.example.com"
       else if String.eqb k "HEADLESS" then Some "false"
       else None;
     path_exists := fun _ => Returns true;
     load_json := fun _ =>
       Returns (PyDict [ ("uipath", PyDict [ ("url", PyStr "https://file.example.com");
                                             ("timeout", PyInt 5000) ]);
                         ("browser", PyDict [ ("headless", PyBool true) ]) ]);
     int_ := int_ bare_host |}.

(** A host whose file has a string where the [uipath] section should be,
    and whose environment sets everything. *)
Definition bad_section : Host :=
  {| getenv := fun k =>
       if String.eqb k "UIPATH_URL" then Some "https://cloud.example.com"
       else if String.eqb k "BROWSER_TIMEOUT" then Some "1000"
       else None;
     path_exists := fun _ => Returns true;
     load_json := fun _ => Returns (PyDict [ ("uipath", PyStr "cloud") ]);
     int_ := fun _ => Returns 1000%Z |}.

(** The value the file gives for [key] of [section], when the file is a
    dict with a dict under [section] that has [key]. *)
Definition setting (config : pyval) (section key : string) : option pyval :=
  match config with
  | PyDict items =>
      match lookup section items with
      | Some (PyDict entries) => lookup key entries
      | _ => None
      end
  | _ => None
  end.

(** The same host without its configuration file. *)
Definition without_file (h : Host) : Host :=
  {| getenv := getenv h;
     path_exists := fun _ => Returns false;
     load_json := load_json h;
     int_ := int_ h |}.

Definition is_dict (v : pyval) : bool :=
  match v with
  | PyDict _ => true
  | _ => false
  end.

(** ** More sample runtimes *)

(** The console cannot be reached and there is no terminal: reading the
    standard input raises. *)
Definition no_terminal : Runtime :=
  still nothing_shown
    (fun c =>
       match c with
       | Goto _ => Raises (Exception "net::ERR_NAME_NOT_RESOLVED")
       | _ => Returns tt
       end)
    none_held
    (fun c =>
       match c with
       | Input => Raises (Exception "EOF when reading a line")
       | _ => Returns "https://platform.uipath.com/jobs"
       end).

(** Everything is shown and every call returns, except the wait that
    comes right after the click on a control inside a row. *)
Definition slow_after_row_click : Runtime :=
  {| run_unit := fun tr c =>
       match c, last tr PrintHelp with
       | WaitForTimeout _, Called (LocatorClick _) =>
           Raises (Exception "Timeout 30000ms exceeded")
       | _, _ => Returns tt
       end;
     run_bool := fun _ _ => Returns true;
     run_nat := fun _ _ => Returns 0;
     run_str := fun _ _ => Returns "https://platform.uipath.com/jobs" |}.

Definition is_trigger_click (ev : event) : bool :=
  match ev with
  | Called (LocatorClick _) => true
  | Called (Click s) => String.prefix "button:has-text(" s
  | _ => false
  end.
(** * Reasoning about runs *)

(** ** Stepping through [bind] and the handlers *)

Lemma bind_returns {A B} (m : M A) (k : A -> M B) (w w' : world) (a : A) :
  m w = (Returns a, w') -> bind m k w = k a w'.
Proof. intros E. unfold bind. now rewrite E. Qed.

Lemma bind_assoc {A B C} (m : M A) (k : A -> M B) (h : B -> M C) (w : world) :
  bind (bind m k) h w = bind m (fun a => bind (k a) h) w.
Proof.
  unfold bind. destruct (m w) as [[a | e] w1]; reflexivity.
Qed.

Lemma bind_inv {A B} (m : M A) (k : A -> M B) (w w' : world) (b : B) :
  bind m k w = (Returns b, w') ->
  exists a w1, m w = (Returns a, w1) /\ k a w1 = (Returns b, w').
Proof.
  unfold bind. destruct (m w) as [[a | e] w1]; intros E.
  - now exists a, w1.
  - discriminate.
Qed.

(** A bare [except:] that returns a value turns every body into one that
    returns. *)
Lemma try_except_total {A} (body : M A) (a : A) (w : world) :
  exists r w', try_except body (fun _ => ret a) w = (Returns r, w').
Proof.
  unfold try_except. destruct (body w) as [[r | e] w1].
  - now exists r, w1.
  - now exists a, w1.
Qed.

(** ** The selector loops *)

(** A loop over turns that all return ends at the first turn that says
    so, and runs no turn after it. *)
Lemma for_first_stops {A} (body : A -> M bool) (pre post : list A) (x : A)
    (w w1 w2 : world) :
  for_first body pre w = (Returns None, w1) ->
  body x w1 = (Returns true, w2) ->
  for_first body (pre ++ x :: post) w = (Returns (Some x), w2).
Proof.
  revert w. induction pre as [| y pre IH]; intros w Hpre Hx; simpl in *.
  - injection Hpre as <-. now rewrite (bind_returns _ _ _ _ _ Hx).
  - unfold bind in *. destruct (body y w) as [[[|] | e] w'].
    + discriminate.
    + now apply IH.
    + discriminate.
Qed.

Lemma for_first_skips {A} (body : A -> M bool) (pre rest : list A)
    (w w1 : world) :
  for_first body pre w = (Returns None, w1) ->
  for_first body (pre ++ rest) w = for_first body rest w1.
Proof.
  revert w. induction pre as [| y pre IH]; intros w Hpre; simpl in *.
  - now injection Hpre as <-.
  - unfold bind in *. destruct (body y w) as [[[|] | e] w'].
    + discriminate.
    + now apply IH.
    + discriminate.
Qed.

(** When no turn raises, the loop does not raise, and what it returns is
    an item of the list. *)
Lemma for_first_total {A} (body : A -> M bool) (xs : list A) :
  (forall x w, exists b w', body x w = (Returns b, w')) ->
  forall w, exists r w', for_first body xs w = (Returns r, w').
Proof.
  intros Hbody. induction xs as [| x xs IH]; intros w; simpl.
  - now exists None, w.
  - unfold bind. destruct (Hbody x w) as (b & w1 & E). rewrite E.
    destruct b.
    + now exists (Some x), w1.
    + apply IH.
Qed.

Lemma for_first_none {A} (body : A -> M bool) (xs : list A) :
  (forall x w, In x xs -> exists w', body x w = (Returns false, w')) ->
  forall w, exists w', for_first body xs w = (Returns None, w').
Proof.
  induction xs as [| x xs IH]; intros Hbody w; simpl.
  - now exists w.
  - unfold bind. destruct (Hbody x w (or_introl eq_refl)) as (w1 & E).
    rewrite E. apply IH. intros y w2 Hy. apply Hbody. now right.
Qed.

(** What decides a turn of [attempt]. *)
Lemma attempt_returns rt (selector : string) (act : M unit) (w : world) :
  exists b w', attempt rt selector act w = (Returns b, w').
Proof. apply try_except_total. Qed.

Lemma attempt_true rt (selector : string) (act : M unit) (w w' : world) :
  page (self w) <> None ->
  run_bool rt (trace w) (IsVisible (Locator selector) 2000) = Returns true ->
  act (emit (Called (IsVisible (Locator selector) 2000)) w) = (Returns tt, w') ->
  attempt rt selector act w = (Returns true, w').
Proof.
  intros Hp Hv Ha.
  unfold attempt, try_except, page_locator, self_page, is_visible, call_with,
    bind, ret.
  destruct (page (self w)); [| contradiction]. rewrite Hv, Ha. reflexivity.
Qed.

Lemma attempt_true_inv rt (selector : string) (act : M unit) (w w' : world) :
  attempt rt selector act w = (Returns true, w') ->
  page (self w) <> None
  /\ run_bool rt (trace w) (IsVisible (Locator selector) 2000) = Returns true
  /\ act (emit (Called (IsVisible (Locator selector) 2000)) w) = (Returns tt, w').
Proof.
  unfold attempt, try_except, page_locator, self_page, is_visible, call_with,
    bind, ret.
  destruct (page (self w)); [| discriminate].
  destruct (run_bool rt (trace w) _) as [[|] | e]; try discriminate.
  destruct (act _) as [[[] | e] w1]; try discriminate.
  intros E. injection E as <-. repeat split. discriminate.
Qed.

(** A probe that succeeds does not settle the turn: when the action on the
    element raises, the turn counts as failed and the loop goes on. *)
Lemma attempt_act_raises rt (selector : string) (act : M unit) (w w' : world)
    (e : exn) :
  page (self w) <> None ->
  run_bool rt (trace w) (IsVisible (Locator selector) 2000) = Returns true ->
  act (emit (Called (IsVisible (Locator selector) 2000)) w) = (Raises e, w') ->
  attempt rt selector act w = (Returns false, w').
Proof.
  intros Hp Hv Ha.
  unfold attempt, try_except, page_locator, self_page, is_visible, call_with,
    bind, ret.
  destruct (page (self w)); [| contradiction]. rewrite Hv, Ha. reflexivity.
Qed.

Lemma turn_is_attempt rt a (t : target) (selector : string) :
  turn rt a t selector = attempt rt selector (action rt a t selector).
Proof. destruct t; reflexivity. Qed.

(** The loop of [login] over the username fields, on a page that shows
    every field but cannot fill the first one, goes on after the first
    probe has succeeded and settles on the second strategy. *)
Example resolve_first_field_disabled :
  fst (resolve first_field_disabled robot UsernameField started)
  = Returns (Some ("input[name=" ++ quoted "username" ++ "]")).
Proof. vm_compute. reflexivity. Qed.

Example resolve_first_field_disabled_trace :
  trace (snd (resolve first_field_disabled robot UsernameField started))
  = [ Called (IsVisible (Locator ("input[name=" ++ quoted "email" ++ "]")) 2000);
      Called (Fill ("input[name=" ++ quoted "email" ++ "]") "robot@example.com");
      Called (IsVisible (Locator ("input[name=" ++ quoted "username" ++ "]")) 2000);
      Called (Fill ("input[name=" ++ quoted "username" ++ "]") "robot@example.com");
      Log INFO ("Filled username using selector: input[name="
                ++ quoted "username" ++ "]") ].
Proof. vm_compute. reflexivity. Qed.

(** C1, as worded, fails: the first strategy whose probe succeeds is not
    always the one used.  On [first_field_disabled] the probe of the first
    username strategy succeeds, filling it raises, the bare [except]
    swallows the error and the next strategy is probed and used. *)
Lemma C1_first_visible_wins_fails : ~ first_visible_wins UsernameField.
Proof.
  intros H.
  destruct (H first_field_disabled robot started []
              ("input[name=" ++ quoted "email" ++ "]")
              (tl username_selectors))
    as (w' & evs & E & _).
  - discriminate.
  - reflexivity.
  - intros tr x [].
  - reflexivity.
  - apply (f_equal fst) in E. rewrite resolve_first_field_disabled in E.
    vm_compute in E. discriminate E.
Qed.

(** C1, amended: for each of the four targets, the loop settles on the
    first strategy in list order whose probe succeeds and whose action
    (fill, click, and for the jobs link the wait that follows) completes;
    it ends in the world that action left, so nothing later in the list is
    probed.  A strategy whose probe succeeds but whose action raises is
    passed over like one whose probe fails: the loop goes on with the
    strategies after it. *)
Theorem C1_first_completed_strategy_wins
    rt a (t : target) (pre post : list string) (s : string) (w w1 : world) :
  strategies t = (pre ++ s :: post)%list ->
  for_first (turn rt a t) pre w = (Returns None, w1) ->
  probe_succeeds rt s w1 ->
  (forall w2,
     action rt a t s (after_probe s w1) = (Returns tt, w2) ->
     resolve rt a t w = (Returns (Some s), w2))
  /\ (forall e w2,
        action rt a t s (after_probe s w1) = (Raises e, w2) ->
        resolve rt a t w = for_first (turn rt a t) post w2).
Proof.
  intros Hsplit Hpre [Hpage Hvis]. unfold resolve. rewrite Hsplit. split.
  - intros w2 Hact. apply for_first_stops with (w1 := w1); [exact Hpre |].
    rewrite turn_is_attempt. now apply attempt_true.
  - intros e w2 Hact. rewrite (for_first_skips _ _ _ _ _ Hpre).
    cbn [for_first]. unfold bind at 1. rewrite turn_is_attempt.
    now rewrite (attempt_act_raises rt s _ _ _ e Hpage Hvis Hact).
Qed.

Lemma C1_first_completed_strategy_wins_witness :
  exists w1 w2,
    for_first (turn two_fields_shown robot UsernameField)
      [ "input[name=" ++ quoted "email" ++ "]" ] started = (Returns None, w1)
    /\ probe_succeeds two_fields_shown
         ("input[name=" ++ quoted "username" ++ "]") w1
    /\ resolve two_fields_shown robot UsernameField started
       = (Returns (Some ("input[name=" ++ quoted "username" ++ "]")), w2)
    /\ ~ In (Called (IsVisible
                       (Locator ("input[type=" ++ quoted "email" ++ "]"))
                       2000))
            (trace w2).
Proof.
  eexists. eexists.
  assert (Hpre : for_first (turn two_fields_shown robot UsernameField)
            [ "input[name=" ++ quoted "email" ++ "]" ] started
          = (Returns None,
             after_probe ("input[name=" ++ quoted "email" ++ "]") started))
    by reflexivity.
  assert (Hprobe : probe_succeeds two_fields_shown
            ("input[name=" ++ quoted "username" ++ "]")
            (after_probe ("input[name=" ++ quoted "email" ++ "]") started))
    by (split; [discriminate | reflexivity]).
  split; [exact Hpre |]. split; [exact Hprobe |].
  split.
  - apply (proj1 (C1_first_completed_strategy_wins two_fields_shown robot
                    UsernameField
                    [ "input[name=" ++ quoted "email" ++ "]" ]
                    (tl (tl username_selectors))
                    ("input[name=" ++ quoted "username" ++ "]")
                    started _ eq_refl Hpre Hprobe)).
    reflexivity.
  - vm_compute. intros H.
    repeat (destruct H as [H | H]; [discriminate H |]). exact H.
Defined.

(** ** What a computation adds to the trace *)

Section Footprint.

Variable P : event -> Prop.

Lemma adds_ret {A} (a : A) : adds P (ret a).
Proof. intros w. exists []. now rewrite app_nil_r. Qed.

Lemma adds_raise {A} (e : exn) : adds P (@raise A e).
Proof. intros w. exists []. now rewrite app_nil_r. Qed.

Lemma adds_get_self : adds P get_self.
Proof. intros w. exists []. now rewrite app_nil_r. Qed.

Lemma adds_update_self f : adds P (update_self f).
Proof. intros w. exists []. simpl. now rewrite app_nil_r. Qed.

Lemma adds_emit {A} (ev : event) (r : world -> outcome A) :
  P ev -> adds P (fun w => (r w, emit ev w)).
Proof. intros H w. exists [ev]. simpl. split; [reflexivity | now constructor]. Qed.

Lemma adds_logger lvl msg : P (Log lvl msg) -> adds P (logger lvl msg).
Proof. apply (adds_emit (Log lvl msg) (fun _ => Returns tt)). Qed.

Lemma adds_print msg : P (Print msg) -> adds P (print msg).
Proof. apply (adds_emit (Print msg) (fun _ => Returns tt)). Qed.

Lemma adds_print_help : P PrintHelp -> adds P print_help.
Proof. apply (adds_emit PrintHelp (fun _ => Returns tt)). Qed.

Lemma adds_call_with {A} (oracle : list event -> call -> outcome A) c :
  P (Called c) -> adds P (call_with oracle c).
Proof. apply (adds_emit (Called c) (fun w => oracle (trace w) c)). Qed.

Lemma adds_self_page attr : adds P (self_page attr).
Proof.
  intros w. exists []. unfold self_page.
  destruct (page (self w)); simpl; now rewrite app_nil_r.
Qed.

Lemma adds_bind {A B} (m : M A) (k : A -> M B) :
  adds P m -> (forall a, adds P (k a)) -> adds P (bind m k).
Proof.
  intros Hm Hk w. unfold bind. destruct (Hm w) as (e1 & E1 & F1).
  destruct (m w) as [[a | e] w1]; simpl in *.
  - destruct (Hk a w1) as (e2 & E2 & F2). exists (e1 ++ e2)%list.
    rewrite E2, E1, app_assoc. split; [reflexivity | now apply Forall_app].
  - now exists e1.
Qed.

Lemma adds_try_except {A} (body : M A) (handler : exn -> M A) :
  adds P body -> (forall e, adds P (handler e)) ->
  adds P (try_except body handler).
Proof.
  intros Hm Hk w. unfold try_except. destruct (Hm w) as (e1 & E1 & F1).
  destruct (body w) as [[a | e] w1]; simpl in *.
  - now exists e1.
  - destruct (Hk e w1) as (e2 & E2 & F2). exists (e1 ++ e2)%list.
    rewrite E2, E1, app_assoc. split; [reflexivity | now apply Forall_app].
Qed.

Lemma adds_try_except_Exception {A} (body : M A) (handler : string -> M A) :
  adds P body -> (forall e, adds P (handler e)) ->
  adds P (try_except_Exception body handler).
Proof.
  intros Hm Hk w. unfold try_except_Exception.
  destruct (Hm w) as (e1 & E1 & F1).
  destruct (body w) as [[a | [msg |]] w1]; simpl in *.
  - now exists e1.
  - destruct (Hk msg w1) as (e2 & E2 & F2). exists (e1 ++ e2)%list.
    rewrite E2, E1, app_assoc. split; [reflexivity | now apply Forall_app].
  - now exists e1.
Qed.

Lemma adds_try_finally {A} (body : M A) (final : M unit) :
  adds P body -> adds P final -> adds P (try_finally body final).
Proof.
  intros Hm Hk w. unfold try_finally. destruct (Hm w) as (e1 & E1 & F1).
  destruct (body w) as [r w1]; simpl in *.
  destruct (Hk w1) as (e2 & E2 & F2). exists (e1 ++ e2)%list.
  destruct (final w1) as [[[] | e] w2]; simpl in *;
    rewrite E2, E1, app_assoc; (split; [reflexivity | now apply Forall_app]).
Qed.

Lemma adds_for_first {A} (body : A -> M bool) (xs : list A) :
  (forall x, In x xs -> adds P (body x)) -> adds P (for_first body xs).
Proof.
  induction xs as [| x xs IH]; intros H; simpl.
  - apply adds_ret.
  - apply adds_bind; [apply H; now left |].
    intros [|]; [apply adds_ret |]. apply IH. intros y Hy. apply H. now right.
Qed.

Lemma adds_for_each {A} (body : A -> M unit) (xs : list A) :
  (forall x, adds P (body x)) -> adds P (for_each body xs).
Proof.
  intros H. induction xs as [| x xs IH]; simpl.
  - apply adds_ret.
  - apply adds_bind; [apply H | intros _; exact IH].
Qed.

Lemma adds_for_fold {A S} (body : S -> A -> M S) (xs : list A) (s : S) :
  (forall s x, adds P (body s x)) -> adds P (for_fold body xs s).
Proof.
  intros H. revert s. induction xs as [| x xs IH]; intros s; simpl.
  - apply adds_ret.
  - apply adds_bind; [apply H | intros s'; apply IH].
Qed.

End Footprint.

(** Walks a computation built from the combinators above; [side] closes
    the conditions on single events. *)
Ltac footprint_step side :=
  match goal with
  | |- adds _ (bind _ _) => apply adds_bind; [| intros ?]
  | |- adds _ (ret _) => apply adds_ret
  | |- adds _ (raise _) => apply adds_raise
  | |- adds _ get_self => apply adds_get_self
  | |- adds _ (update_self _) => apply adds_update_self
  | |- adds _ (self_page _) => apply adds_self_page
  | |- adds _ (logger _ _) => apply adds_logger; side
  | |- adds _ (print _) => apply adds_print; side
  | |- adds _ print_help => apply adds_print_help; side
  | |- adds _ (call_with _ _) => apply adds_call_with; side
  | |- adds _ (try_except _ _) => apply adds_try_except; [| intros ?]
  | |- adds _ (try_except_Exception _ _) =>
      apply adds_try_except_Exception; [| intros ?]
  | |- adds _ (try_finally _ _) => apply adds_try_finally
  | |- adds _ (for_first _ _) => apply adds_for_first; intros ? ?
  | |- adds _ (for_each _ _) => apply adds_for_each; intros ?
  | |- adds _ (for_fold _ _ _) => apply adds_for_fold; intros ? ?
  | |- adds _ (if ?b then _ else _) => destruct b
  | |- adds _ (match ?x with _ => _ end) => destruct x
  | |- adds _ (let (_, _) := ?x in _) => destruct x
  end.

Ltac footprint side := repeat footprint_step side.

(** ** The session classifier *)

Lemma indicator_visible_returns rt (t : Z) (ind : string) (w : world) :
  exists b w', indicator_visible rt t ind w = (Returns b, w').
Proof. apply try_except_total. Qed.

Lemma indicator_visible_false rt (t : Z) (ind : string) (w : world) :
  run_bool rt (trace w) (IsVisible (Locator ind) t) <> Returns true ->
  exists w', indicator_visible rt t ind w = (Returns false, w').
Proof.
  intros H.
  unfold indicator_visible, try_except, page_locator, self_page, is_visible,
    call_with, bind, ret.
  destruct (page (self w)); [| now eexists].
  destruct (run_bool rt (trace w) _) as [[|] | e]; [now elim H | |];
    now eexists.
Qed.

Lemma indicator_visible_true rt (t : Z) (ind : string) (w : world) :
  page (self w) <> None ->
  run_bool rt (trace w) (IsVisible (Locator ind) t) = Returns true ->
  indicator_visible rt t ind w
  = (Returns true, emit (Called (IsVisible (Locator ind) t)) w).
Proof.
  intros Hp H.
  unfold indicator_visible, try_except, page_locator, self_page, is_visible,
    call_with, bind, ret.
  destruct (page (self w)); [| contradiction]. now rewrite H.
Qed.

Lemma indicator_visible_keeps_self rt (t : Z) (ind : string) (w : world) :
  self (snd (indicator_visible rt t ind w)) = self w.
Proof.
  unfold indicator_visible, try_except, page_locator, self_page, is_visible,
    call_with, bind, ret.
  destruct (page (self w)); [| reflexivity].
  destruct (run_bool rt (trace w) _) as [[|] | e]; reflexivity.
Qed.

(** A loop whose turns all return, and keep an invariant of the world,
    leaves at some item as soon as one item's turn always says so. *)
Lemma for_first_finds {A} (Inv : world -> Prop) (body : A -> M bool)
    (xs : list A) (x : A) :
  (forall y w, Inv w -> exists b w', body y w = (Returns b, w') /\ Inv w') ->
  In x xs ->
  (forall w, Inv w -> exists w', body x w = (Returns true, w')) ->
  forall w, Inv w -> exists y w', for_first body xs w = (Returns (Some y), w').
Proof.
  intros Hbody Hin Hx. induction xs as [| z xs IH]; intros w Hw.
  - destruct Hin.
  - simpl. unfold bind. destruct (Hbody z w Hw) as (b & w1 & E & Hw1).
    destruct Hin as [-> | Hin].
    + destruct (Hx w Hw) as (w2 & E2). rewrite E2. now exists x, w2.
    + rewrite E. destruct b; [now exists z, w1 |]. now apply IH.
Qed.

(** C2, as worded, fails: a page that shows no indicator gets the answer
    [True], the very answer a page that shows the text "Jobs" gets.  The
    method has no third answer ("assume logged in if we're not on a login
    page"). *)
Lemma C2_unknown_is_coerced_to_true : ~ unknown_is_explicit.
Proof.
  intros H. apply (H blank started jobs_page started).
  - reflexivity.
  - discriminate.
  - reflexivity.
Qed.

(** C2, amended: when no positive and no negative indicator is visible,
    where the specification's classifier says [Unknown], [_is_logged_in]
    answers [True]. *)
Theorem C2_no_evidence_answers_true rt (w : world) :
  no_indicator_shown rt ->
  fst (spec_classify rt w) = Returns Unknown
  /\ fst (_is_logged_in rt w) = Returns true.
Proof.
  intros [Hpos Hneg].
  destruct (for_first_none (indicator_visible rt 2000) logged_in_indicators)
    with (w := w) as (w1 & E1).
  { intros x w' Hx. apply indicator_visible_false. now apply Hpos. }
  destruct (for_first_none (indicator_visible rt 1000) login_indicators)
    with (w := w1) as (w2 & E2).
  { intros x w' Hx. apply indicator_visible_false. now apply Hneg. }
  unfold spec_classify, _is_logged_in, try_except_Exception, bind.
  rewrite E1. cbn [found]. rewrite E2. split; reflexivity.
Qed.

Lemma C2_no_evidence_answers_true_witness :
  fst (spec_classify blank started) = Returns Unknown
  /\ fst (_is_logged_in blank started) = Returns true.
Proof.
  apply (C2_no_evidence_answers_true blank started).
  split; intros tr ind _; discriminate.
Defined.

(** A loop of indicator probes, on a page that is there: it probes the
    indicators in list order and leaves at the first one reported
    visible, or probes them all and finds none. *)
Lemma indicator_loop_first rt (t : Z) (inds : list string) (w : world) :
  page (self w) <> None ->
  (exists pre first post,
     inds = (pre ++ first :: post)%list
     /\ none_visible rt t (trace w) pre
     /\ run_bool rt (trace w ++ probes t pre) (IsVisible (Locator first) t)
        = Returns true
     /\ for_first (indicator_visible rt t) inds w
        = (Returns (Some first), after (probes t (pre ++ [first])) w))
  \/ (none_visible rt t (trace w) inds
      /\ for_first (indicator_visible rt t) inds w
         = (Returns None, after (probes t inds) w)).
Proof.
  revert w. induction inds as [| ind inds IH]; intros w Hp.
  - right. split; [exact I |]. unfold after. cbn [probes map for_first].
    rewrite app_nil_r. now destruct w.
  - cbn [for_first]. unfold bind at 1 2.
    destruct (run_bool rt (trace w) (IsVisible (Locator ind) t))
      as [[|] | e] eqn:E.
    + left. exists [], ind, inds. cbn [app probes map].
      rewrite app_nil_r. repeat split; trivial.
      now rewrite (indicator_visible_true rt t ind w Hp E).
    + assert (S : indicator_visible rt t ind w
                  = (Returns false, emit (Called (IsVisible (Locator ind) t)) w)).
      { unfold indicator_visible, try_except, page_locator, self_page,
          is_visible, call_with, bind, ret.
        destruct (page (self w)); [| contradiction]. now rewrite E. }
      rewrite S.
      destruct (IH (emit (Called (IsVisible (Locator ind) t)) w) Hp)
        as [(pre & first & post & -> & N & V & R) | (N & R)].
      * left. exists (ind :: pre), first, post. cbn [app probes map].
        cbn [emit trace] in N, V. rewrite <- app_assoc in V.
        repeat split; trivial.
        -- rewrite E. discriminate.
        -- rewrite R. unfold after, emit. cbn [self trace probes map app].
           now rewrite <- app_assoc.
      * right. cbn [none_visible]. cbn [emit trace] in N.
        split; [split; [rewrite E; discriminate | exact N] |].
        rewrite R. unfold after, emit. cbn [self trace probes map app].
        now rewrite <- app_assoc.
    + assert (S : indicator_visible rt t ind w
                  = (Returns false, emit (Called (IsVisible (Locator ind) t)) w)).
      { unfold indicator_visible, try_except, page_locator, self_page,
          is_visible, call_with, bind, ret.
        destruct (page (self w)); [| contradiction]. now rewrite E. }
      rewrite S.
      destruct (IH (emit (Called (IsVisible (Locator ind) t)) w) Hp)
        as [(pre & first & post & -> & N & V & R) | (N & R)].
      * left. exists (ind :: pre), first, post. cbn [app probes map].
        cbn [emit trace] in N, V. rewrite <- app_assoc in V.
        repeat split; trivial.
        -- rewrite E. discriminate.
        -- rewrite R. unfold after, emit. cbn [self trace probes map app].
           now rewrite <- app_assoc.
      * right. cbn [none_visible]. cbn [emit trace] in N.
        split; [split; [rewrite E; discriminate | exact N] |].
        rewrite R. unfold after, emit. cbn [self trace probes map app].
        now rewrite <- app_assoc.
Qed.

Lemma none_visible_In rt (t : Z) (inds : list string) (tr : list event)
    (x : string) :
  none_visible rt t tr inds -> In x inds ->
  exists tr', run_bool rt tr' (IsVisible (Locator x) t) <> Returns true.
Proof.
  revert tr. induction inds as [| ind inds IH]; intros tr N Hin;
    [destruct Hin |].
  destruct N as [N1 N2]. destruct Hin as [<- | Hin].
  - now exists tr.
  - now apply (IH _ N2).
Qed.

(** C5: when a positive indicator is visible, [_is_logged_in] answers
    [True] whatever the negative indicators show, because the positive
    indicators are probed first, in list order: the run consists of the
    probes of the positive indicators up to the first one reported
    visible (which is the given one or one before it in the list), each of
    the earlier ones having been reported not visible at its turn, and
    ends there.  No negative indicator is probed. *)
Theorem C5_positive_indicator_takes_precedence rt (w : world) (ind : string) :
  page (self w) <> None ->
  In ind logged_in_indicators ->
  (forall tr, run_bool rt tr (IsVisible (Locator ind) 2000) = Returns true) ->
  exists pre first post,
    logged_in_indicators = (pre ++ first :: post)%list
    /\ In ind (first :: post)
    /\ none_visible rt 2000 (trace w) pre
    /\ run_bool rt (trace w ++ probes 2000 pre) (IsVisible (Locator first) 2000)
       = Returns true
    /\ _is_logged_in rt w
       = (Returns true, after (probes 2000 (pre ++ [first])) w).
Proof.
  intros Hpage Hin Hvis.
  destruct (indicator_loop_first rt 2000 logged_in_indicators w Hpage)
    as [(pre & first & post & Hs & N & V & R) | (N & _)].
  - exists pre, first, post. repeat split; trivial.
    + rewrite Hs in Hin. apply in_app_or in Hin as [Hin | Hin]; [| exact Hin].
      destruct (none_visible_In rt 2000 pre (trace w) ind N Hin) as (tr & H).
      now elim H.
    + unfold _is_logged_in, try_except_Exception, bind. now rewrite R.
  - destruct (none_visible_In rt 2000 _ (trace w) ind N Hin) as (tr & H).
    now elim H.
Qed.

Lemma C5_positive_indicator_takes_precedence_witness :
  exists pre first post,
    logged_in_indicators = (pre ++ first :: post)%list
    /\ In ("[data-testid*=" ++ quoted "menu" ++ "]") (first :: post)
    /\ none_visible mixed_signals 2000 (trace started) pre
    /\ run_bool mixed_signals (trace started ++ probes 2000 pre)
         (IsVisible (Locator first) 2000)
       = Returns true
    /\ _is_logged_in mixed_signals started
       = (Returns true, after (probes 2000 (pre ++ [first])) started).
Proof.
  apply (C5_positive_indicator_takes_precedence mixed_signals started
           ("[data-testid*=" ++ quoted "menu" ++ "]")).
  - discriminate.
  - simpl. tauto.
  - reflexivity.
Defined.

(** The run on [mixed_signals], where the menu is shown beside a "Sign
    in" text and a password field: five probes, the fifth is the menu. *)
Example is_logged_in_mixed_signals :
  _is_logged_in mixed_signals started
  = (Returns true,
     after (probes 2000 [ "text=Jobs"; "text=Processes"; "text=Robots";
                          "text=Orchestrator";
                          "[data-testid*=" ++ quoted "menu" ++ "]" ])
       started).
Proof. vm_compute. reflexivity. Qed.

(** ** The job trigger *)

(** A handler that returns keeps every [Exception] of the body in. *)
Lemma try_except_Exception_guards {A} (body : M A) (handler : string -> M A) :
  (forall e w, exists a w', handler e w = (Returns a, w')) ->
  forall w msg w',
    try_except_Exception body handler w <> (Raises (Exception msg), w').
Proof.
  intros Hh w msg w'. unfold try_except_Exception.
  destruct (body w) as [[a | [m |]] w1]; try discriminate.
  destruct (Hh m w1) as (a & w2 & ->). discriminate.
Qed.

(** [navigate_to_jobs] lets no [Exception] out. *)
Lemma navigate_to_jobs_no_exception rt (w w' : world) (msg : string) :
  navigate_to_jobs rt w <> (Raises (Exception msg), w').
Proof.
  unfold navigate_to_jobs.
  rewrite (bind_returns (logger _ _) _ w _ tt eq_refl).
  apply try_except_Exception_guards.
  intros e w0. now eexists; eexists.
Qed.

Lemma run_job_steps rt (job_name : string) (w : world) :
  run_job rt job_name w
  = bind (before_row_pass rt job_name)
      (fun _ =>
         try_except_Exception (row_pass rt job_name)
           (fun e =>
              logger ERROR ("Error running job " ++ job_name ++ ": " ++ e) ;;
              fallback_pass rt job_name)) w.
Proof.
  unfold run_job, before_row_pass, bind. cbn [logger].
  destruct (navigate_to_jobs rt _) as [[[] | e] w1]; [| reflexivity].
  destruct (page_wait_for_timeout rt 2000 w1) as [[[] | e] w2]; reflexivity.
Qed.

Lemma run_job_row_returns rt (job_name : string) (w w1 w2 : world) (b : bool) :
  before_row_pass rt job_name w = (Returns tt, w1) ->
  row_pass rt job_name w1 = (Returns b, w2) ->
  run_job rt job_name w = (Returns b, w2).
Proof.
  intros Hb Hr. rewrite run_job_steps, (bind_returns _ _ _ _ _ Hb).
  unfold try_except_Exception. now rewrite Hr.
Qed.

Lemma run_job_row_raises rt (job_name msg : string) (w w1 w2 : world) :
  before_row_pass rt job_name w = (Returns tt, w1) ->
  row_pass rt job_name w1 = (Raises (Exception msg), w2) ->
  run_job rt job_name w
  = fallback_pass rt job_name (emit (row_error job_name msg) w2).
Proof.
  intros Hb Hr. rewrite run_job_steps, (bind_returns _ _ _ _ _ Hb).
  unfold try_except_Exception. now rewrite Hr.
Qed.

Lemma run_job_row_interrupted rt (job_name : string) (w w1 w2 : world) :
  before_row_pass rt job_name w = (Returns tt, w1) ->
  row_pass rt job_name w1 = (Raises KeyboardInterrupt, w2) ->
  run_job rt job_name w = (Raises KeyboardInterrupt, w2).
Proof.
  intros Hb Hr. rewrite run_job_steps, (bind_returns _ _ _ _ _ Hb).
  unfold try_except_Exception. now rewrite Hr.
Qed.

Lemma attempt_false rt (selector : string) (act : M unit) (w : world) :
  run_bool rt (trace w) (IsVisible (Locator selector) 2000) <> Returns true ->
  exists w', attempt rt selector act w = (Returns false, w').
Proof.
  intros H.
  unfold attempt, try_except, page_locator, self_page, is_visible, call_with,
    bind, ret.
  destruct (page (self w)); [| now eexists].
  destruct (run_bool rt (trace w) _) as [[|] | e]; [now elim H | |];
    now eexists.
Qed.

Lemma bind_extends {A B} (m : M A) (k : A -> M B) (w : world) (ev : event) :
  (exists evs, trace (snd (m w)) = (trace w ++ ev :: evs)%list) ->
  (forall a, adds (fun _ => True) (k a)) ->
  exists evs, trace (snd (bind m k w)) = (trace w ++ ev :: evs)%list.
Proof.
  intros (evs & E) Hk. unfold bind.
  destruct (m w) as [[a | e] w1]; simpl in E.
  - destruct (Hk a w1) as (evs' & E' & _). exists (evs ++ evs')%list.
    rewrite E', E, <- app_assoc. reflexivity.
  - now exists evs.
Qed.

Lemma attempt_probes rt (selector : string) (act : M unit) (w : world) :
  page (self w) <> None ->
  adds (fun _ => True) act ->
  exists evs,
    trace (snd (attempt rt selector act w))
    = (trace w ++ Called (IsVisible (Locator selector) 2000) :: evs)%list.
Proof.
  intros Hp Hact.
  unfold attempt, try_except, page_locator, self_page, is_visible, call_with,
    bind, ret.
  destruct (page (self w)); [| contradiction].
  destruct (run_bool rt (trace w) _) as [[|] | e];
    try (exists []; reflexivity).
  destruct (Hact (emit (Called (IsVisible (Locator selector) 2000)) w))
    as (evs & E & _).
  exists evs.
  destruct (act _) as [[[] | e] w1]; simpl in *; rewrite E, <- app_assoc;
    reflexivity.
Qed.

(** The first thing the page-global pass does is probe the first
    composite selector, which has the job name in its text. *)
Lemma fallback_pass_probes rt (job_name : string) (w : world) :
  page (self w) <> None ->
  exists evs,
    trace (snd (fallback_pass rt job_name w))
    = (trace w
       ++ Called (IsVisible
                    (Locator ("button:has-text(" ++ quoted job_name
                              ++ ") + button[aria-label*=" ++ quoted "play"
                              ++ " i]")) 2000) :: evs)%list.
Proof.
  intros Hp. unfold fallback_pass, play_button_selectors. cbn [for_first].
  rewrite bind_assoc. apply bind_extends.
  - apply attempt_probes; [exact Hp |].
    unfold page_click, page_wait_for_timeout. footprint ltac:(exact I).
  - intros left. unfold click_play, attempt, page_locator, is_visible,
      page_click, page_wait_for_timeout. footprint ltac:(exact I).
Qed.

(** ** Computations that leave [self] alone *)

Lemma keeps_ret {A} (a : A) : keeps_self (ret a).
Proof. intros w. reflexivity. Qed.

Lemma keeps_get_self : keeps_self get_self.
Proof. intros w. reflexivity. Qed.

Lemma keeps_logger lvl msg : keeps_self (logger lvl msg).
Proof. intros w. reflexivity. Qed.

Lemma keeps_print msg : keeps_self (print msg).
Proof. intros w. reflexivity. Qed.

Lemma keeps_call_with {A} (oracle : list event -> call -> outcome A) c :
  keeps_self (call_with oracle c).
Proof. intros w. reflexivity. Qed.

Lemma keeps_self_page attr : keeps_self (self_page attr).
Proof. intros w. unfold self_page. now destruct (page (self w)). Qed.

Lemma keeps_bind {A B} (m : M A) (k : A -> M B) :
  keeps_self m -> (forall a, keeps_self (k a)) -> keeps_self (bind m k).
Proof.
  intros Hm Hk w. unfold bind. specialize (Hm w).
  destruct (m w) as [[a | e] w1]; simpl in *; [| exact Hm].
  now rewrite Hk.
Qed.

Lemma keeps_try_except {A} (body : M A) (handler : exn -> M A) :
  keeps_self body -> (forall e, keeps_self (handler e)) ->
  keeps_self (try_except body handler).
Proof.
  intros Hm Hk w. unfold try_except. specialize (Hm w).
  destruct (body w) as [[a | e] w1]; simpl in *; [exact Hm |].
  now rewrite Hk.
Qed.

Lemma keeps_try_except_Exception {A} (body : M A) (handler : string -> M A) :
  keeps_self body -> (forall e, keeps_self (handler e)) ->
  keeps_self (try_except_Exception body handler).
Proof.
  intros Hm Hk w. unfold try_except_Exception. specialize (Hm w).
  destruct (body w) as [[a | [msg |]] w1]; simpl in *; try exact Hm.
  now rewrite Hk.
Qed.

Lemma keeps_for_first {A} (body : A -> M bool) (xs : list A) :
  (forall x, keeps_self (body x)) -> keeps_self (for_first body xs).
Proof.
  intros H. induction xs as [| x xs IH]; simpl.
  - apply keeps_ret.
  - apply keeps_bind; [apply H |]. intros [|]; [apply keeps_ret | exact IH].
Qed.

Lemma keeps_for_fold {A S} (body : S -> A -> M S) (xs : list A) (s : S) :
  (forall s x, keeps_self (body s x)) -> keeps_self (for_fold body xs s).
Proof.
  intros H. revert s. induction xs as [| x xs IH]; intros s; simpl.
  - apply keeps_ret.
  - apply keeps_bind; [apply H | intros s'; apply IH].
Qed.

Ltac keeps_step :=
  match goal with
  | |- keeps_self (bind _ _) => apply keeps_bind; [| intros ?]
  | |- keeps_self (ret _) => apply keeps_ret
  | |- keeps_self get_self => apply keeps_get_self
  | |- keeps_self (self_page _) => apply keeps_self_page
  | |- keeps_self (logger _ _) => apply keeps_logger
  | |- keeps_self (print _) => apply keeps_print
  | |- keeps_self (call_with _ _) => apply keeps_call_with
  | |- keeps_self (try_except _ _) => apply keeps_try_except; [| intros ?]
  | |- keeps_self (try_except_Exception _ _) =>
      apply keeps_try_except_Exception; [| intros ?]
  | |- keeps_self (for_first _ _) => apply keeps_for_first; intros ?
  | |- keeps_self (for_fold _ _ _) => apply keeps_for_fold; intros ? ?
  | |- keeps_self (if ?b then _ else _) => destruct b
  | |- keeps_self (match ?x with _ => _ end) => destruct x
  end.

Ltac keeps := repeat keeps_step.

Lemma keeps_navigate_to_jobs rt : keeps_self (navigate_to_jobs rt).
Proof.
  unfold navigate_to_jobs, click_job_link, attempt, page_locator, is_visible,
    page_click, page_wait_for_load_state, page_url, page_goto.
  keeps.
Qed.

Lemma keeps_row_pass rt job_name : keeps_self (row_pass rt job_name).
Proof.
  unfold row_pass, page_locator, is_visible, locator_click,
    page_wait_for_timeout.
  keeps.
Qed.

Lemma before_row_pass_page rt (job_name : string) (w w1 : world) :
  before_row_pass rt job_name w = (Returns tt, w1) ->
  page (self w1) <> None.
Proof.
  unfold before_row_pass. intros H.
  apply bind_inv in H as ([] & wa & _ & H).
  apply bind_inv in H as ([] & wb & _ & H).
  unfold page_wait_for_timeout, self_page, call_with, bind in H.
  destruct (page (self wb)) eqn:E; [| discriminate].
  destruct (run_unit rt (trace wb) _) as [[] | e]; [| discriminate].
  injection H as <-. simpl. rewrite E. discriminate.
Qed.

(** The whole run of the trigger on [row_hidden]: after the row probe has
    said "not visible", one log record and the result [False]. *)
Example run_job_row_hidden :
  run_job row_hidden "Invoice Sync" started
  = (Returns false,
     {| self := robot;
        trace :=
          [ Log INFO "Attempting to run job: Invoice Sync";
            Log INFO "Navigating to jobs page...";
            Called (IsVisible (Locator ("a:has-text(" ++ quoted "Jobs" ++ ")")) 2000);
            Called (Click ("a:has-text(" ++ quoted "Jobs" ++ ")"));
            Called (WaitForLoadState "networkidle" None);
            Log INFO ("Clicked on jobs link: a:has-text(" ++ quoted "Jobs" ++ ")");
            Called (WaitForTimeout 2000);
            Called (IsVisible (First (Locator (job_row_selector "Invoice Sync")))
                      5000);
            Log ERROR "Could not find job: Invoice Sync" ] |}).
Proof. vm_compute. reflexivity. Qed.

(** C3, as worded, fails: on [row_hidden] the row pass ends without an
    exception (the row is not shown), and [run_job] returns [False] at
    once, although every page-global selector would have been shown. *)
Lemma C3_no_fallback_without_exception : ~ fallback_before_failure.
Proof.
  intros H.
  edestruct (H row_hidden "Invoice Sync" started) as (evs & E & X).
  - vm_compute. reflexivity.
  - vm_compute. reflexivity.
  - vm_compute. reflexivity.
  - assert (N : evs = []).
    { eapply app_inv_head. rewrite app_nil_r. symmetry. exact E. }
    rewrite N in X. inversion X.
Qed.

(** C3, amended: the page-global pass follows the row pass only when the
    row pass raised an [Exception]; it then starts by probing the first
    composite selector built around the job name.  A row pass that ends
    without an exception, found or not, is the result of [run_job] as it
    stands: no fallback is tried. *)
Theorem C3_fallback_follows_exception_only
    rt (job_name : string) (w w1 : world) :
  before_row_pass rt job_name w = (Returns tt, w1) ->
  (forall b w2,
     row_pass rt job_name w1 = (Returns b, w2) ->
     run_job rt job_name w = (Returns b, w2))
  /\ (forall msg w2,
        row_pass rt job_name w1 = (Raises (Exception msg), w2) ->
        run_job rt job_name w
        = fallback_pass rt job_name (emit (row_error job_name msg) w2)
        /\ exists evs,
             trace (snd (run_job rt job_name w))
             = (trace w2
                ++ row_error job_name msg
                   :: Called (IsVisible
                                (Locator (hd "" (play_button_selectors job_name)))
                                2000)
                   :: evs)%list).
Proof.
  intros Hb. split.
  - intros b w2 Hr. now apply run_job_row_returns with (w1 := w1).
  - intros msg w2 Hr.
    pose proof (run_job_row_raises rt job_name msg w w1 w2 Hb Hr) as E.
    split; [exact E |]. rewrite E.
    destruct (fallback_pass_probes rt job_name
                (emit (row_error job_name msg) w2)) as (evs & Et).
    + simpl. pose proof (keeps_row_pass rt job_name w1) as K.
      rewrite Hr in K. simpl in K. rewrite K.
      now apply before_row_pass_page with (rt := rt) (job_name := job_name)
                                          (w := w).
    + exists evs. rewrite Et. simpl. now rewrite <- app_assoc.
Qed.

Lemma C3_fallback_follows_exception_only_witness :
  exists w1 w2,
    before_row_pass row_probe_raises "Invoice Sync" started = (Returns tt, w1)
    /\ row_pass row_probe_raises "Invoice Sync" w1
       = (Raises (Exception "strict mode violation"), w2)
    /\ run_job row_probe_raises "Invoice Sync" started
       = fallback_pass row_probe_raises "Invoice Sync"
           (emit (row_error "Invoice Sync" "strict mode violation") w2).
Proof.
  eexists. eexists.
  assert (Hb : before_row_pass row_probe_raises "Invoice Sync" started
               = (Returns tt, snd (before_row_pass row_probe_raises
                                     "Invoice Sync" started)))
    by reflexivity.
  assert (Hr : row_pass row_probe_raises "Invoice Sync"
                 (snd (before_row_pass row_probe_raises "Invoice Sync" started))
               = (Raises (Exception "strict mode violation"),
                  snd (row_pass row_probe_raises "Invoice Sync"
                         (snd (before_row_pass row_probe_raises
                                 "Invoice Sync" started)))))
    by reflexivity.
  split; [exact Hb |]. split; [exact Hr |].
  exact (proj1 (proj2 (C3_fallback_follows_exception_only row_probe_raises
                         "Invoice Sync" started _ Hb) _ _ Hr)).
Defined.

(** The wait between navigation and the guarded block is not guarded: an
    error it raises leaves [run_job]. *)
Example run_job_wait_raises :
  fst (run_job waits_fail "Invoice Sync" started)
  = Raises (Exception "Target page has been closed").
Proof. vm_compute. reflexivity. Qed.

(** The run of the trigger on [row_probe_raises], from the row probe on:
    the error is logged, the first page-global selector is probed and
    clicked, and the result is [True]. *)
Example run_job_row_probe_raises :
  fst (run_job row_probe_raises "Invoice Sync" started) = Returns true
  /\ skipn 7 (trace (snd (run_job row_probe_raises "Invoice Sync" started)))
     = [ Called (IsVisible (First (Locator (job_row_selector "Invoice Sync")))
                   5000);
         Log ERROR "Error running job Invoice Sync: strict mode violation";
         Called (IsVisible
                   (Locator (hd "" (play_button_selectors "Invoice Sync"))) 2000);
         Called (Click (hd "" (play_button_selectors "Invoice Sync")));
         Called (WaitForTimeout 2000);
         Log INFO ("Successfully triggered job using selector: "
                   ++ hd "" (play_button_selectors "Invoice Sync")) ].
Proof. split; vm_compute; reflexivity. Qed.

(** C4, as worded, fails: on [row_probe_raises] the row pass raises, the
    handler runs the page-global pass, its first selector is shown and
    clicked, and [run_job] returns [True], not [False]. *)
Lemma C4_caught_exception_can_give_true : ~ trigger_converts_exceptions.
Proof.
  intros H.
  destruct (H row_probe_raises "Invoice Sync" started) as [_ H2].
  assert (E : fst (run_job row_probe_raises "Invoice Sync" started)
              = Returns false).
  { eapply H2; vm_compute; reflexivity. }
  vm_compute in E. discriminate E.
Qed.

Lemma for_first_some_inv {A} (body : A -> M bool) (xs : list A) (x : A)
    (w w' : world) :
  for_first body xs w = (Returns (Some x), w') ->
  exists pre post w1,
    xs = (pre ++ x :: post)%list
    /\ for_first body pre w = (Returns None, w1)
    /\ body x w1 = (Returns true, w').
Proof.
  revert w. induction xs as [| y xs IH]; intros w E.
  - discriminate.
  - cbn [for_first] in E. unfold bind in E.
    destruct (body y w) as [[[|] | e] w0] eqn:B; try discriminate.
    + injection E as <- <-. now exists [], xs, w.
    + destruct (IH w0 E) as (pre & post & w1 & -> & Hpre & Hx).
      exists (y :: pre), post, w1. split; [reflexivity |]. split; [| exact Hx].
      cbn [for_first]. unfold bind. now rewrite B.
Qed.

Lemma click_play_is_attempt rt (selector : string) :
  click_play rt selector = attempt rt selector (play_action rt selector).
Proof. reflexivity. Qed.

Lemma fallback_pass_triggers rt (job_name : string) (w w' : world) :
  fallback_triggers rt job_name w w' ->
  fallback_pass rt job_name w = (Returns true, w').
Proof.
  intros (pre & s & post & w1 & Hs & Hpre & [Hp Hv] & Hact).
  unfold fallback_pass. rewrite Hs.
  rewrite (bind_returns _ _ _ _ _
             (for_first_stops (click_play rt) pre post s w w1 w' Hpre
                (attempt_true rt s _ w1 w' Hp Hv Hact))).
  reflexivity.
Qed.

Lemma fallback_pass_gives_up rt (job_name : string) (w w' : world) :
  fallback_gives_up rt job_name w w' ->
  fallback_pass rt job_name w = (Returns false, w').
Proof.
  intros (w1 & E & ->). unfold fallback_pass.
  now rewrite (bind_returns _ _ _ _ _ E).
Qed.

(** The page-global pass returns, and what it returns says which of the
    two it did. *)
Lemma fallback_pass_decides rt (job_name : string) (w : world) :
  exists b w',
    fallback_pass rt job_name w = (Returns b, w')
    /\ if b then fallback_triggers rt job_name w w'
       else fallback_gives_up rt job_name w w'.
Proof.
  destruct (for_first_total (click_play rt) (play_button_selectors job_name))
    with (w := w) as (r & w1 & E).
  { intros x w0. apply attempt_returns. }
  unfold fallback_pass. rewrite (bind_returns _ _ _ _ _ E).
  destruct r as [s |]; cbn [found].
  - exists true, w1. split; [reflexivity |].
    destruct (for_first_some_inv _ _ _ _ _ E) as (pre & post & w0 & Hs & Hpre & Hx).
    rewrite click_play_is_attempt in Hx.
    apply attempt_true_inv in Hx as (Hp & Hv & Hact).
    exists pre, s, post, w0. repeat split; trivial.
  - eexists false, _. split; [reflexivity |]. now exists w1.
Qed.

Lemma fallback_pass_not_shown rt (job_name : string) (w : world) :
  (forall tr s, In s (play_button_selectors job_name) ->
     run_bool rt tr (IsVisible (Locator s) 2000) <> Returns true) ->
  fst (fallback_pass rt job_name w) = Returns false.
Proof.
  intros H. unfold fallback_pass, bind.
  destruct (for_first_none (click_play rt) (play_button_selectors job_name))
    with (w := w) as (w1 & ->).
  { intros x w0 Hx. apply attempt_false. now apply H. }
  reflexivity.
Qed.

Lemma row_pass_not_shown rt (job_name : string) (w : world) :
  page (self w) <> None ->
  (forall tr,
     run_bool rt tr (IsVisible (First (Locator (job_row_selector job_name))) 5000)
     <> Returns true
     /\ run_bool rt tr
          (IsVisible (First (Locator (job_row_selector job_name))) 5000)
        <> Raises KeyboardInterrupt) ->
  fst (row_pass rt job_name w) = Returns false
  \/ exists msg, fst (row_pass rt job_name w) = Raises (Exception msg).
Proof.
  intros Hp H.
  unfold row_pass, page_locator, self_page, is_visible, call_with, bind, ret.
  destruct (page (self w)); [| contradiction].
  destruct (H (trace w)) as [H1 H2].
  destruct (run_bool rt (trace w) _) as [[|] | [msg |]].
  - now elim H1.
  - now left.
  - right. now exists msg.
  - now elim H2.
Qed.

(** C4, amended: once the steps before the guarded block have completed,
    what [run_job] gives is settled by the row pass.  If the row pass
    returns, its boolean is the result.  If it raises an [Exception], the
    error is logged and the page-global pass decides: the result is
    [True] when the turn of some selector completes (probe, click and
    wait), after the turns before it have failed, and [False], with the
    failure logged, when every turn has failed; either way a boolean is
    returned and nothing raised inside that pass gets out.  Only a
    keyboard interrupt of the row pass leaves [run_job].  When nothing on
    the page answers to the selectors made for the job name, whatever
    else the page shows, the result is [False]. *)
Theorem C4_trigger_returns_boolean rt (job_name : string) (w w1 : world) :
  before_row_pass rt job_name w = (Returns tt, w1) ->
  (forall b w2,
     row_pass rt job_name w1 = (Returns b, w2) ->
     run_job rt job_name w = (Returns b, w2))
  /\ (forall msg w2,
        row_pass rt job_name w1 = (Raises (Exception msg), w2) ->
        (forall w', fallback_triggers rt job_name
                      (emit (row_error job_name msg) w2) w' ->
                    run_job rt job_name w = (Returns true, w'))
        /\ (forall w', fallback_gives_up rt job_name
                         (emit (row_error job_name msg) w2) w' ->
                       run_job rt job_name w = (Returns false, w'))
        /\ exists b w',
             run_job rt job_name w = (Returns b, w')
             /\ if b
                then fallback_triggers rt job_name
                       (emit (row_error job_name msg) w2) w'
                else fallback_gives_up rt job_name
                       (emit (row_error job_name msg) w2) w')
  /\ (forall w2,
        row_pass rt job_name w1 = (Raises KeyboardInterrupt, w2) ->
        run_job rt job_name w = (Raises KeyboardInterrupt, w2))
  /\ (job_not_shown rt job_name ->
      fst (run_job rt job_name w) = Returns false).
Proof.
  intros Hb. split; [| split; [| split]].
  - intros b w2 Hr. now apply run_job_row_returns with (w1 := w1).
  - intros msg w2 Hr.
    rewrite (run_job_row_raises rt job_name msg w w1 w2 Hb Hr).
    split; [| split].
    + apply fallback_pass_triggers.
    + apply fallback_pass_gives_up.
    + apply fallback_pass_decides.
  - intros w2 Hr. now apply run_job_row_interrupted with (w1 := w1).
  - intros [Hrow Hsel].
    pose proof (before_row_pass_page rt job_name w w1 Hb) as Hp.
    destruct (row_pass rt job_name w1) as [r w2] eqn:Hr.
    destruct (row_pass_not_shown rt job_name w1 Hp Hrow) as [F | [msg F]];
      rewrite Hr in F; cbn [fst] in F; subst r.
    + now rewrite (run_job_row_returns rt job_name w w1 w2 false Hb Hr).
    + rewrite (run_job_row_raises rt job_name msg w w1 w2 Hb Hr).
      now apply fallback_pass_not_shown.
Qed.

Lemma C4_trigger_returns_boolean_witness :
  exists w1 w2,
    before_row_pass ghost_job "Ghost Job" started = (Returns tt, w1)
    /\ In (Called (Click ("a:has-text(" ++ quoted "Jobs" ++ ")"))) (trace w1)
    /\ row_pass ghost_job "Ghost Job" w1
       = (Raises (Exception "Timeout 5000ms exceeded"), w2)
    /\ (exists b w',
          run_job ghost_job "Ghost Job" started = (Returns b, w')
          /\ if b
             then fallback_triggers ghost_job "Ghost Job"
                    (emit (row_error "Ghost Job" "Timeout 5000ms exceeded") w2)
                    w'
             else fallback_gives_up ghost_job "Ghost Job"
                    (emit (row_error "Ghost Job" "Timeout 5000ms exceeded") w2)
                    w')
    /\ fst (run_job ghost_job "Ghost Job" started) = Returns false.
Proof.
  exists (snd (before_row_pass ghost_job "Ghost Job" started)).
  exists (snd (row_pass ghost_job "Ghost Job"
                 (snd (before_row_pass ghost_job "Ghost Job" started)))).
  assert (Hb : before_row_pass ghost_job "Ghost Job" started
               = (Returns tt,
                  snd (before_row_pass ghost_job "Ghost Job" started)))
    by reflexivity.
  assert (Hr : row_pass ghost_job "Ghost Job"
                 (snd (before_row_pass ghost_job "Ghost Job" started))
               = (Raises (Exception "Timeout 5000ms exceeded"),
                  snd (row_pass ghost_job "Ghost Job"
                         (snd (before_row_pass ghost_job "Ghost Job" started)))))
    by reflexivity.
  destruct (C4_trigger_returns_boolean ghost_job "Ghost Job" started _ Hb)
    as (_ & R & _ & G).
  split; [exact Hb |]. split; [vm_compute; tauto |]. split; [exact Hr |].
  split; [exact (proj2 (proj2 (R _ _ Hr))) |].
  apply G. split.
  - intros tr. split; discriminate.
  - intros tr s Hs. vm_compute in Hs.
    repeat (destruct Hs as [<- | Hs]; [discriminate |]). destruct Hs.
Defined.

(** ** Job discovery *)

(** The rows of the inner loop are the first [max_jobs] handles of the
    selector, each paired with its position. *)
Lemma enumerate_firstn_nth (l : locator) (n k s i : nat) (e : locator) :
  In (i, e)
     (combine (seq s (List.length (firstn k (map (Nth l) (seq s n)))))
        (firstn k (map (Nth l) (seq s n)))) ->
  e = Nth l i.
Proof.
  revert s k. induction n as [| n IH]; intros s k H.
  - destruct k; destruct H.
  - destruct k as [| k]; [destruct H |].
    cbn [seq map firstn List.length combine] in H.
    destruct H as [H | H].
    + now injection H as <- <-.
    + now apply (IH (S s) k).
Qed.

Lemma enumerate_length {A} (xs : list A) :
  List.length (enumerate xs) = List.length xs.
Proof.
  unfold enumerate. rewrite length_combine, length_seq. apply Nat.min_id.
Qed.

Lemma extract_job_cases rt (jobs : list job) (i : nat) (row : locator)
    (w : world) :
  exists jobs' w',
    extract_job rt jobs (i, row) w = (Returns jobs', w')
    /\ (jobs' = jobs
        \/ exists n, n <> ""
             /\ jobs' = (jobs ++ [{| name := n; index := i;
                                     element := row |}])%list)
    /\ ((forall n, run_nat rt (trace w) (Count (name_cell row))
                   <> Returns (S n))
        -> jobs' = jobs)
    /\ ((forall text,
           run_str rt (trace (emit (Called (Count (name_cell row))) w))
             (InnerText (name_cell row)) = Returns text ->
           strip text = "")
        -> jobs' = jobs).
Proof.
  unfold extract_job, try_except, locator_count, inner_text, call_with, bind,
    ret, name_cell.
  destruct (run_nat rt (trace w) _) as [[| n] | e] eqn:En; cbn [Nat.ltb Nat.leb].
  - eexists; eexists. split; [reflexivity |]. repeat split; auto.
  - destruct (run_str rt _ _) as [text | e] eqn:Et.
    + destruct (strip text) as [| c s] eqn:Es; cbn [truthy].
      * eexists; eexists. split; [reflexivity |]. repeat split; auto.
      * eexists; eexists. split; [reflexivity |]. split; [| split].
        -- right. exists (String c s). split; [discriminate | reflexivity].
        -- intros H. now elim (H n).
        -- intros H. specialize (H text eq_refl). congruence.
    + eexists; eexists. split; [reflexivity |]. repeat split; auto.
  - eexists; eexists. split; [reflexivity |]. repeat split; auto.
Qed.

Lemma extract_job_returns rt (jobs : list job) (r : nat * locator) (w : world) :
  exists jobs' w',
    extract_job rt jobs r w = (Returns jobs', w')
    /\ (jobs' = jobs
        \/ exists n, n <> ""
             /\ jobs' = (jobs ++ [{| name := n; index := fst r;
                                     element := snd r |}])%list).
Proof.
  destruct r as [i row].
  destruct (extract_job_cases rt jobs i row w) as (jobs' & w' & E & C & _).
  now exists jobs', w'.
Qed.

(** The inner loop returns; it adds at most one record per row, each for a
    row of its list. *)
Lemma rows_loop_returns rt (rows : list (nat * locator)) (jobs : list job)
    (w : world) :
  exists added w',
    for_fold (extract_job rt) rows jobs w = (Returns (jobs ++ added)%list, w')
    /\ List.length added <= List.length rows
    /\ Forall (fun j => In (index j, element j) rows /\ name j <> "") added.
Proof.
  revert jobs w. induction rows as [| r rows IH]; intros jobs w; simpl.
  - exists [], w. rewrite app_nil_r. repeat split; auto.
  - unfold bind.
    destruct (extract_job_returns rt jobs r w) as (jobs1 & w1 & E & C).
    rewrite E. destruct (IH jobs1 w1) as (added & w2 & E2 & L & F).
    destruct C as [-> | (n & Hn & ->)].
    + exists added, w2. split; [exact E2 |]. split; [lia |].
      revert F. apply Forall_impl. intros j [Hj Hne]. split; [now right | easy].
    + exists ({| name := n; index := fst r; element := snd r |} :: added), w2.
      rewrite E2, <- app_assoc. split; [reflexivity |]. split; [simpl; lia |].
      constructor.
      * simpl. split; [left; now destruct r | exact Hn].
      * revert F. apply Forall_impl. intros j [Hj Hne].
        split; [now right | easy].
Qed.

(** One turn of the outer loop, entered with no record: it returns, the
    flag says whether it made a record, the records are at most
    [max_jobs] and all made from rows of this selector. *)
Lemma try_job_items_spec rt (selector : string) (w : world) :
  exists jobs w',
    try_job_items rt [] selector w
    = (Returns (jobs, match jobs with [] => false | _ => true end), w')
    /\ List.length jobs <= max_jobs
    /\ Forall (row_of selector) jobs.
Proof.
  unfold try_job_items, try_except, page_locator, self_page, locator_all,
    call_with, bind, ret.
  destruct (page (self w)).
  2:{ exists [], w. repeat split; auto. simpl. lia. }
  destruct (run_nat rt (trace w) _) as [n | e].
  2:{ eexists [], _. repeat split; auto. simpl. lia. }
  destruct (0 <? List.length (map (Nth (Locator selector)) (seq 0 n)))%nat.
  2:{ eexists [], _. repeat split; auto. simpl. lia. }
  cbn [logger]. unfold extract_jobs.
  match goal with
  | |- context [for_fold _ ?rows [] ?w0] =>
      destruct (rows_loop_returns rt rows [] w0) as (added & w2 & E & L & F)
  end.
  rewrite E. simpl app. exists added, w2. split; [reflexivity |]. split.
  - rewrite enumerate_length in L.
    pose proof (firstn_le_length max_jobs
                  (map (Nth (Locator selector)) (seq 0 n))). lia.
  - revert F. apply Forall_impl. intros j [Hj Hne]. split; [| exact Hne].
    unfold enumerate in Hj. now apply enumerate_firstn_nth in Hj.
Qed.

(** The outer loop, entered with no record, returns.  Either no strategy
    made a record, or the records are those of one strategy's turn, the
    strategies before it having made none, and the loop ends in the world
    that turn left. *)
Lemma scan_job_items_spec rt (selectors : list string) (w : world) :
  exists jobs w',
    scan_job_items rt selectors [] w = (Returns jobs, w')
    /\ (jobs = []
        \/ exists pre sel post w1,
             selectors = (pre ++ sel :: post)%list
             /\ scan_job_items rt pre [] w = (Returns [], w1)
             /\ try_job_items rt [] sel w1 = (Returns (jobs, true), w')
             /\ jobs <> []).
Proof.
  revert w. induction selectors as [| sel rest IH]; intros w.
  - exists [], w. split; [reflexivity | now left].
  - destruct (try_job_items_spec rt sel w) as (jobs & w1 & E & _ & _).
    cbn [scan_job_items]. unfold bind at 1. rewrite E. cbn [fst snd].
    destruct jobs as [| j jobs].
    + destruct (IH w1) as (jobs2 & w2 & E2 & C). exists jobs2, w2.
      split; [exact E2 |].
      destruct C as [-> | (pre & s & post & w3 & Hs & Hpre & Ht & Hne)];
        [now left | right].
      exists (sel :: pre), s, post, w3. split; [now rewrite Hs |].
      split; [| now split].
      cbn [scan_job_items]. unfold bind at 1. rewrite E. exact Hpre.
    + exists (j :: jobs), w1. split; [reflexivity | right].
      exists [], sel, rest, w. repeat split; auto. discriminate.
Qed.

Lemma list_jobs_inv rt (w w' : world) (jobs : list job) :
  list_jobs rt w = (Returns jobs, w') ->
  exists w0 w1,
    before_listing rt w = (Returns tt, w0)
    /\ scan_job_items rt job_item_selectors [] w0 = (Returns jobs, w1)
    /\ (jobs <> [] -> w' = w1).
Proof.
  unfold list_jobs, before_listing. intros H.
  apply bind_inv in H as ([] & wa & Ha & H).
  apply bind_inv in H as ([] & wb & Hb & H).
  apply bind_inv in H as ([] & wc & Hc & H).
  apply bind_inv in H as (jobs' & wd & Hd & H).
  apply bind_inv in H as ([] & we & He & H).
  injection H as -> ->.
  exists wc, wd. split; [| split].
  - unfold bind. rewrite Ha, Hb. exact Hc.
  - exact Hd.
  - intros Hne. destruct jobs; [now elim Hne |]. now injection He as ->.
Qed.

(** C6: whatever the page holds, a listing that returns gives at most
    [max_jobs] (50) records. *)
Theorem C6_listing_is_bounded rt (w w' : world) (jobs : list job) :
  list_jobs rt w = (Returns jobs, w') ->
  List.length jobs <= max_jobs.
Proof.
  intros H. apply list_jobs_inv in H as (w0 & w1 & _ & Hs & _).
  destruct (scan_job_items_spec rt job_item_selectors w0)
    as (jobs2 & w2 & E & C).
  rewrite Hs in E. injection E as <- <-.
  destruct C as [-> | (pre & sel & post & w3 & _ & _ & Ht & _)].
  - simpl. lia.
  - destruct (try_job_items_spec rt sel w3) as (jobs3 & w4 & E3 & L & _).
    rewrite Ht in E3. now injection E3 as <- _ _.
Qed.

Lemma C6_listing_is_bounded_witness :
  run_nat sixty_rows [] (All (Locator "tbody tr")) = Returns 60
  /\ exists jobs w',
       list_jobs sixty_rows started = (Returns jobs, w')
       /\ List.length jobs = 50
       /\ List.length jobs <= max_jobs.
Proof.
  split; [reflexivity |].
  assert (E : exists jobs w',
             list_jobs sixty_rows started = (Returns jobs, w')
             /\ List.length jobs = 50)
    by (vm_compute; eexists; eexists; split; reflexivity).
  destruct E as (jobs & w' & E & L). exists jobs, w'.
  split; [exact E |]. split; [exact L |].
  exact (C6_listing_is_bounded sixty_rows started w' jobs E).
Defined.

(** A selector whose rows give no name does not end the scan: the next
    selectors are still tried, and the records come from the first one
    that gives a name. *)
Example list_jobs_nameless_rows :
  fst (list_jobs nameless_rows started)
  = Returns [ {| name := "Report Gen"; index := 0;
                 element := Nth (Locator ("[class*=" ++ quoted "job" ++ "]")) 0 |} ].
Proof. vm_compute. reflexivity. Qed.

(** *** Which selectors a listing queries *)

Lemma keeps_extract_jobs rt (elements : list locator) (jobs : list job) :
  keeps_self (extract_jobs rt elements jobs).
Proof.
  unfold extract_jobs, extract_job, locator_count, inner_text. keeps.
Qed.

Lemma quiet_extract_jobs rt (elements : list locator) (jobs : list job) :
  adds no_query (extract_jobs rt elements jobs).
Proof.
  unfold extract_jobs, extract_job, locator_count, inner_text.
  footprint ltac:(exact I).
Qed.

(** One turn of the outer loop, on a page that is there: it starts with
    the query for its selector and makes no other query. *)
Lemma try_job_items_turn rt (jobs : list job) (sel : string) (w : world) :
  page (self w) <> None ->
  exists evs,
    trace (snd (try_job_items rt jobs sel w))
    = (trace w ++ queries sel :: evs)%list
    /\ Forall no_query evs
    /\ self (snd (try_job_items rt jobs sel w)) = self w.
Proof.
  intros Hp.
  unfold try_job_items, try_except, page_locator, self_page, locator_all,
    call_with, bind, ret.
  destruct (page (self w)); [| contradiction].
  destruct (run_nat rt (trace w) _) as [n | e];
    [| exists []; repeat split; constructor].
  destruct (0 <? List.length (map (Nth (Locator sel)) (seq 0 n)))%nat;
    [| exists []; repeat split; constructor].
  cbn [logger].
  match goal with
  | |- context [extract_jobs rt ?els jobs ?w0] =>
      destruct (quiet_extract_jobs rt els jobs w0) as (evs & E & F);
      pose proof (keeps_extract_jobs rt els jobs w0) as K;
      destruct (extract_jobs rt els jobs w0) as [[jobs1 | e] w1]
  end;
    cbn [fst snd emit self trace] in *;
    (eexists (_ :: evs); split;
     [ rewrite E, <- !app_assoc; reflexivity
     | split; [constructor; [exact I | exact F] | exact K] ]).
Qed.

Lemma passed_over_queries rt (sels : list string) (w w' : world) :
  passed_over rt sels w w' ->
  page (self w) <> None ->
  self w' = self w
  /\ exists evs,
       trace w' = (trace w ++ evs)%list
       /\ Forall (fun x => In (queries x) evs) sels
       /\ (forall x, In (queries x) evs -> In x sels).
Proof.
  induction 1 as [w | sel rest w w1 w2 Ht _ IH]; intros Hp.
  - split; [reflexivity |]. exists []. rewrite app_nil_r.
    repeat split; [constructor | intros x []].
  - destruct (try_job_items_turn rt [] sel w Hp) as (e1 & T1 & F1 & K1).
    rewrite Ht in T1, K1. cbn [snd] in T1, K1.
    destruct IH as (K2 & e2 & T2 & Q2 & O2); [now rewrite K1 |].
    split; [congruence |].
    exists (queries sel :: e1 ++ e2)%list. split; [| split].
    + rewrite T2, T1, <- app_assoc. reflexivity.
    + constructor; [now left |].
      revert Q2. apply Forall_impl. intros x Hx. right.
      apply in_or_app. now right.
    + intros x [Hx | Hx].
      * injection Hx as ->. now left.
      * right. apply in_app_or in Hx as [Hx | Hx]; [| now apply O2].
        rewrite Forall_forall in F1. now elim (F1 _ Hx).
Qed.

(** A scan that ends without a record has passed over every selector. *)
Lemma scan_passes_over rt (sels : list string) (w w' : world) :
  scan_job_items rt sels [] w = (Returns [], w') ->
  passed_over rt sels w w'.
Proof.
  revert w. induction sels as [| sel rest IH]; intros w E.
  - injection E as <-. constructor.
  - cbn [scan_job_items] in E. unfold bind at 1 in E.
    destruct (try_job_items_spec rt sel w) as (jobs & w1 & Et & _ & _).
    rewrite Et in E. cbn [fst snd] in E. destruct jobs as [| j jobs].
    + apply passed_next with (w1 := w1); [exact Et | now apply IH].
    + discriminate E.
Qed.

Lemma NoDup_split_apart {A} (pre post : list A) (s x : A) :
  NoDup (pre ++ s :: post) -> In x post -> ~ In x (pre ++ [s]).
Proof.
  induction pre as [| a pre IH]; cbn [app]; intros N Hx.
  - inversion N as [| ? ? Hs _]. subst. intros [-> | []]. contradiction.
  - inversion N as [| ? ? Ha N']. subst. intros [-> | Hin].
    + apply Ha. apply in_or_app. right. now right.
    + now apply (IH N' Hx).
Qed.

Lemma job_item_selectors_NoDup : NoDup job_item_selectors.
Proof.
  unfold job_item_selectors.
  repeat (constructor;
          [ cbn [In]; intros H;
            repeat (destruct H as [H | H]; [discriminate H |]); exact H |]).
  constructor.
Qed.

Lemma list_jobs_inv_empty rt (w w' : world) :
  list_jobs rt w = (Returns [], w') ->
  exists w0 w1 tail,
    before_listing rt w = (Returns tt, w0)
    /\ scan_job_items rt job_item_selectors [] w0 = (Returns [], w1)
    /\ trace w' = (trace w1 ++ tail)%list.
Proof.
  unfold list_jobs, before_listing. intros H.
  apply bind_inv in H as ([] & wa & Ha & H).
  apply bind_inv in H as ([] & wb & Hb & H).
  apply bind_inv in H as ([] & wc & Hc & H).
  apply bind_inv in H as (jobs' & wd & Hd & H).
  apply bind_inv in H as ([] & we & He & H).
  injection H as -> ->.
  exists wc, wd.
  assert (G : adds (fun _ => True)
                (logger WARNING
                   "Could not find jobs using standard selectors. Page structure may be different." ;;
                 u <- page_url rt ;;
                 logger INFO ("Page URL: " ++ u) ;;
                 logger INFO "Saving page screenshot for debugging..." ;;
                 page_screenshot rt "jobs_page_debug.png")).
  { unfold page_url, page_screenshot. footprint ltac:(exact I). }
  destruct (G wd) as (tail & T & _). rewrite He in T. cbn [snd] in T.
  exists tail. split; [| split; [exact Hd | exact T]].
  unfold bind. rewrite Ha, Hb. exact Hc.
Qed.

Lemma before_listing_page rt (w w0 : world) :
  before_listing rt w = (Returns tt, w0) -> page (self w0) <> None.
Proof.
  unfold before_listing. intros H.
  apply bind_inv in H as ([] & wa & _ & H).
  apply bind_inv in H as ([] & wb & _ & H).
  unfold page_wait_for_timeout, self_page, call_with, bind in H.
  destruct (page (self wb)) eqn:E; [| discriminate].
  destruct (run_unit rt (trace wb) _) as [[] | e]; [| discriminate].
  injection H as <-. simpl. rewrite E. discriminate.
Qed.

(** C7, as worded, fails: on [nameless_rows] the selector ["tbody tr"] is
    the first that matches rows (two of them), but their name cells are
    blank, so the scan goes on and queries the selectors after it; the
    record returned comes from [[class*="job"]]. *)
Lemma C7_matching_rows_do_not_end_the_scan : ~ stops_at_first_matching_rows.
Proof.
  intros H.
  apply (H nameless_rows started (snd (list_jobs nameless_rows started))
           [ {| name := "Report Gen"; index := 0;
                element := Nth (Locator ("[class*=" ++ quoted "job" ++ "]")) 0 |} ]
           (trace (snd (list_jobs nameless_rows started)))
           (firstn 6 job_item_selectors) "tbody tr"
           (skipn 7 job_item_selectors) 1
           eq_refl eq_refl eq_refl)
    with (x := "[class*=" ++ quoted "job" ++ "]").
  - intros tr x Hx. cbn in Hx.
    repeat (destruct Hx as [<- | Hx]; [reflexivity |]). destruct Hx.
  - reflexivity.
  - now left.
  - vm_compute. repeat first [left; reflexivity | right].
Qed.

(** C7, amended: the row selectors are tried in order, and the scan stops
    at the first selector whose turn makes at least one record.  The
    records returned are those of that one turn, entered with no record
    after every selector before it was passed over without one (whether
    it matched no row, or rows that gave no name); the listing ends in the
    world that turn left, having queried the selectors up to it and none
    after it.  A listing without a record has passed over, and queried,
    every selector.  Inside a turn a row that gives no name (its count is
    zero, its text is blank, or reading it raises) is skipped and the rows
    after it are still read. *)
Theorem C7_first_productive_strategy_only rt (w w' : world) (jobs : list job) :
  list_jobs rt w = (Returns jobs, w') ->
  (exists w0 evs,
     before_listing rt w = (Returns tt, w0)
     /\ trace w' = (trace w0 ++ evs)%list
     /\ ((jobs = []
          /\ (exists w1, passed_over rt job_item_selectors w0 w1)
          /\ Forall (fun x => In (queries x) evs) job_item_selectors)
         \/ exists pre sel post w1,
              job_item_selectors = (pre ++ sel :: post)%list
              /\ passed_over rt pre w0 w1
              /\ try_job_items rt [] sel w1 = (Returns (jobs, true), w')
              /\ jobs <> []
              /\ Forall (row_of sel) jobs
              /\ Forall (fun x => In (queries x) evs) (pre ++ [sel])
              /\ Forall (fun x => ~ In (queries x) evs) post))
  /\ rows_are_skipped_not_fatal rt.
Proof.
  intros H. split.
  - destruct jobs as [| j jobs].
    + apply list_jobs_inv_empty in H as (w0 & w1 & tail & Hb & Hs & T).
      pose proof (before_listing_page rt w w0 Hb) as Hp.
      pose proof (scan_passes_over rt _ _ _ Hs) as P.
      destruct (passed_over_queries rt _ _ _ P Hp) as (_ & evs & T1 & Q & _).
      exists w0, (evs ++ tail)%list. split; [exact Hb |].
      split; [now rewrite T, T1, app_assoc |]. left.
      split; [reflexivity |]. split; [now exists w1 |].
      revert Q. apply Forall_impl. intros x Hx. apply in_or_app. now left.
    + apply list_jobs_inv in H as (w0 & w1 & Hb & Hs & Hw).
      pose proof (before_listing_page rt w w0 Hb) as Hp.
      destruct (scan_job_items_spec rt job_item_selectors w0)
        as (jobs2 & w2 & E & C).
      rewrite Hs in E. injection E as <- <-.
      destruct C as [N | (pre & sel & post & w3 & Hsel & Hpre & Ht & Hne)];
        [discriminate N |].
      rewrite <- (Hw Hne) in Ht.
      pose proof (scan_passes_over rt _ _ _ Hpre) as P.
      destruct (passed_over_queries rt _ _ _ P Hp) as (K & e1 & T1 & Q & O).
      destruct (try_job_items_turn rt [] sel w3) as (e2 & T2 & F2 & _);
        [now rewrite K |].
      rewrite Ht in T2. cbn [snd] in T2.
      exists w0, (e1 ++ queries sel :: e2)%list. split; [exact Hb |].
      split; [now rewrite T2, T1, <- app_assoc |]. right.
      exists pre, sel, post, w3.
      assert (Only : forall x, In (queries x) (e1 ++ queries sel :: e2) ->
                               In x (pre ++ [sel])).
      { intros x Hx. apply in_or_app.
        apply in_app_or in Hx as [Hx | [Hx | Hx]].
        - left. now apply O.
        - right. injection Hx as ->. now left.
        - rewrite Forall_forall in F2. now elim (F2 _ Hx). }
      repeat split; trivial.
      * destruct (try_job_items_spec rt sel w3) as (jobs3 & w4 & E3 & _ & F).
        rewrite Ht in E3. now injection E3 as <- _ _.
      * apply Forall_app. split.
        -- revert Q. apply Forall_impl. intros x Hx. apply in_or_app. now left.
        -- constructor; [| constructor]. apply in_or_app. right. now left.
      * apply Forall_forall. intros x Hx Hq.
        apply (NoDup_split_apart pre post sel x); trivial; [| now apply Only].
        rewrite <- Hsel. apply job_item_selectors_NoDup.
  - intros jobs0 i row rest w0.
    destruct (extract_job_cases rt jobs0 i row w0)
      as (jobs1 & w1 & E & C & Hcount & Htext).
    exists jobs1, w1. repeat split; trivial.
    cbn [for_fold]. unfold bind. now rewrite E.
Qed.

Lemma C7_first_productive_strategy_only_witness :
  exists jobs w',
    jobs = [ {| name := "Invoice Sync"; index := 0;
                element := Nth (Locator "tbody tr") 0 |};
             {| name := "Cleanup"; index := 2;
                element := Nth (Locator "tbody tr") 2 |} ]
    /\ list_jobs three_rows started = (Returns jobs, w')
    /\ (exists w0 evs,
          before_listing three_rows started = (Returns tt, w0)
          /\ trace w' = (trace w0 ++ evs)%list
          /\ exists pre sel post w1,
               job_item_selectors = (pre ++ sel :: post)%list
               /\ passed_over three_rows pre w0 w1
               /\ try_job_items three_rows [] sel w1 = (Returns (jobs, true), w')
               /\ jobs <> []
               /\ Forall (row_of sel) jobs
               /\ Forall (fun x => In (queries x) evs) (pre ++ [sel])
               /\ Forall (fun x => ~ In (queries x) evs) post)
    /\ rows_are_skipped_not_fatal three_rows.
Proof.
  eexists. exists (snd (list_jobs three_rows started)).
  split; [reflexivity |].
  assert (E : list_jobs three_rows started
              = (Returns [ {| name := "Invoice Sync"; index := 0;
                              element := Nth (Locator "tbody tr") 0 |};
                           {| name := "Cleanup"; index := 2;
                              element := Nth (Locator "tbody tr") 2 |} ],
                 snd (list_jobs three_rows started)))
    by (vm_compute; reflexivity).
  split; [exact E |].
  destruct (C7_first_productive_strategy_only three_rows started _ _ E)
    as [(w0 & evs & Hb & T & [[N _] | X]) S]; [discriminate N |].
  split; [| exact S]. exists w0, evs. split; [exact Hb |]. split; [exact T |].
  exact X.
Defined.

(** ** Login *)

Lemma is_logged_in_only_looks rt : adds only_looks (_is_logged_in rt).
Proof.
  unfold _is_logged_in, indicator_visible, page_locator, is_visible.
  footprint ltac:(exact I).
Qed.

(** C9: when the console has loaded and the session is classified as
    logged in, [login] returns [True] at once.  Between arriving and the
    record "Already logged in" it has only probed indicators: no field
    is filled, nothing is clicked, no key is pressed. *)
Theorem C9_login_when_already_logged_in rt (w w' : world) :
  arrives rt w ->
  _is_logged_in rt (arrived w) = (Returns true, w') ->
  login rt w = (Returns true, emit (Log INFO "Already logged in") w')
  /\ exists evs,
       trace w' = (trace (arrived w) ++ evs)%list
       /\ Forall only_looks evs.
Proof.
  intros (Hp & Hg & Hw) Hl. split.
  - set (w1 := emit (Log INFO ("Navigating to " ++ url (self w) ++ "...")) w)
      in *.
    set (w2 := emit (Called (Goto (url (self w)))) w1) in *.
    assert (E1 : page_goto rt (url (self w)) w1 = (Returns tt, w2)).
    { unfold page_goto, self_page, call_with, bind. cbn [self emit w1].
      destruct (page (self w)); [| contradiction]. now rewrite Hg. }
    assert (E2 : page_wait_for_load_state rt "networkidle" None w2
                 = (Returns tt, arrived w)).
    { unfold page_wait_for_load_state, self_page, call_with, bind.
      cbn [self emit w1 w2].
      destruct (page (self w)); [| contradiction]. now rewrite Hw. }
    unfold login.
    rewrite (bind_returns get_self _ w w (self w) eq_refl).
    rewrite (bind_returns (logger _ _) _ w w1 tt eq_refl).
    unfold try_except_Exception.
    rewrite (bind_returns _ _ _ _ _ E1), (bind_returns _ _ _ _ _ E2),
      (bind_returns _ _ _ _ _ Hl).
    reflexivity.
  - destruct (is_logged_in_only_looks rt (arrived w)) as (evs & E & F).
    rewrite Hl in E. now exists evs.
Qed.

Lemma C9_login_when_already_logged_in_witness :
  exists w',
    login jobs_page started
    = (Returns true, emit (Log INFO "Already logged in") w')
    /\ exists evs,
         trace w' = (trace (arrived started) ++ evs)%list
         /\ Forall only_looks evs.
Proof.
  exists (snd (_is_logged_in jobs_page (arrived started))).
  apply (C9_login_when_already_logged_in jobs_page started).
  - split; [discriminate |]. split; reflexivity.
  - reflexivity.
Defined.

(** ** Teardown *)

(** The run of [close] on [interrupted_release]: the interrupt leaves
    [close] right after the call that released the page; the context, the
    browser and the playwright runtime are not released. *)
Example close_interrupted :
  close interrupted_release started
  = (Raises KeyboardInterrupt,
     after [Log INFO "Closing browser..."; Called PageClose] started).
Proof. reflexivity. Qed.

(** C10, as worded, fails: [close] can raise to its caller.  Its handler
    is [except Exception], so a keyboard interrupt delivered during a
    release call is not caught. *)
Lemma C10_interrupt_leaves_close : ~ close_never_raises.
Proof.
  intros H. destruct (H interrupted_release started) as (w' & E).
  rewrite close_interrupted in E. discriminate E.
Qed.

(** C10, amended: [close] lets no [Exception] out: an error of a release
    call is logged and swallowed, and [close] returns.  The one way out is
    a keyboard interrupt delivered during a release call, which leaves
    [close] right after that call.  In every case [close] leaves [self]
    as it was and calls the release of a handle only when that handle is
    set; with no handle set it makes no call, writes its two log records
    and returns. *)
Theorem C10_close_swallows_errors rt (w : world) :
  exists evs,
    self (snd (close rt w)) = self w
    /\ trace (snd (close rt w))
       = (trace w ++ Log INFO "Closing browser..." :: evs)%list
    /\ Forall (releases_what_is_set (self w)) evs
    /\ (fst (close rt w) = Returns tt
        \/ (fst (close rt w) = Raises KeyboardInterrupt
            /\ exists pre c,
                 evs = (pre ++ [Called c])%list
                 /\ is_release (Called c) = true
                 /\ run_unit rt
                      (trace w ++ Log INFO "Closing browser..." :: pre) c
                    = Raises KeyboardInterrupt))
    /\ (page (self w) = None -> context (self w) = None ->
        browser (self w) = None -> playwright (self w) = None ->
        close rt w = (Returns tt, after [Log INFO "Closing browser...";
                                         Log INFO "Browser closed"] w)).
Proof.
  unfold close, try_except_Exception, get_self, logger, call_with, bind, ret.
  cbn [self emit trace].
  destruct (page (self w)) eqn:Hp, (context (self w)) eqn:Hc,
    (browser (self w)) eqn:Hb, (playwright (self w)) eqn:Hpw;
    cbn [is_set self emit trace];
    repeat match goal with
      | |- context [run_unit rt ?tr ?c] =>
          let E := fresh "E" in
          destruct (run_unit rt tr c) as [[] | [msg |]] eqn:E;
          cbn [self emit trace fst snd]
      end;
    cbn [self emit trace fst snd];
    rewrite <- ?app_assoc in *; cbn [app] in *.
  all: eexists; (split; [reflexivity |]); (split; [reflexivity |]); split.
  all: try (solve [ repeat constructor; cbn; rewrite ?Hp, ?Hc, ?Hb, ?Hpw;
                    discriminate ]).
  all: split.
  all: try (solve [ intros; try discriminate; unfold after, emit;
                    cbn [self trace]; rewrite <- ?app_assoc; reflexivity ]).
  all: try (solve [left; reflexivity]).
  all: right; split; [reflexivity |].
  all: first [ exists []; eexists; split; [reflexivity |]
             | eexists [_]; eexists; split; [reflexivity |]
             | eexists [_; _]; eexists; split; [reflexivity |]
             | eexists [_; _; _]; eexists; split; [reflexivity |] ].
  all: split; [reflexivity | assumption].
Qed.

Lemma C10_close_swallows_errors_witness :
  close release_fails started
  = (Returns tt,
     after [ Log INFO "Closing browser...";
             Called PageClose;
             Log ERROR "Error closing browser: Browser has been closed" ]
       started)
  /\ exists evs,
       self (snd (close release_fails started)) = self started
       /\ trace (snd (close release_fails started))
          = (trace started ++ Log INFO "Closing browser..." :: evs)%list
       /\ Forall (releases_what_is_set (self started)) evs.
Proof.
  split; [reflexivity |].
  destruct (C10_close_swallows_errors release_fails started)
    as (evs & K & T & F & _).
  now exists evs.
Defined.

(** ** Nothing but [close] tears down *)

Ltac quiet_side := first [split; reflexivity | reflexivity | exact I].

Lemma quiet_is_logged_in rt : adds no_teardown (_is_logged_in rt).
Proof.
  unfold _is_logged_in, indicator_visible, page_locator, is_visible.
  footprint quiet_side.
Qed.

Lemma quiet_navigate_to_jobs rt : adds no_teardown (navigate_to_jobs rt).
Proof.
  unfold navigate_to_jobs, click_job_link, attempt, page_locator, is_visible,
    page_click, page_wait_for_load_state, page_url, page_goto.
  footprint quiet_side.
Qed.

Lemma quiet_start_browser rt : adds no_teardown (start_browser rt).
Proof.
  unfold start_browser, page_set_default_timeout. footprint quiet_side.
Qed.

Lemma quiet_login rt : adds no_teardown (login rt).
Proof.
  unfold login, fill_username, fill_password, click_login, attempt,
    page_locator, is_visible, page_fill, page_click, page_keyboard_press,
    page_goto, page_wait_for_load_state.
  repeat first [apply quiet_is_logged_in | footprint_step quiet_side].
Qed.

Lemma quiet_scan_job_items rt (selectors : list string) (jobs : list job) :
  adds no_teardown (scan_job_items rt selectors jobs).
Proof.
  revert jobs. induction selectors as [| sel rest IH]; intros jobs;
    cbn [scan_job_items].
  - apply adds_ret.
  - apply adds_bind.
    + unfold try_job_items, extract_jobs, extract_job, page_locator,
        locator_all, locator_count, inner_text.
      footprint quiet_side.
    + intros [jobs' stop]. cbn [fst snd]. destruct stop;
        [apply adds_ret | apply IH].
Qed.

Lemma quiet_list_jobs rt : adds no_teardown (list_jobs rt).
Proof.
  unfold list_jobs, page_wait_for_timeout, page_url, page_screenshot.
  repeat first [ apply quiet_navigate_to_jobs
               | apply quiet_scan_job_items
               | footprint_step quiet_side ].
Qed.

Lemma quiet_run_job rt (job_name : string) : adds no_teardown (run_job rt job_name).
Proof.
  unfold run_job, row_pass, fallback_pass, click_play, attempt, page_locator,
    is_visible, locator_click, page_click, page_wait_for_timeout.
  repeat first [ apply quiet_navigate_to_jobs | footprint_step quiet_side ].
Qed.

Lemma quiet_run_all_jobs rt : adds no_teardown (run_all_jobs rt).
Proof.
  unfold run_all_jobs, page_wait_for_timeout.
  repeat first [ apply quiet_list_jobs | apply quiet_run_job
               | footprint_step quiet_side ].
Qed.

Lemma quiet_main_steps rt (args : Args.t) : adds no_teardown (main_steps rt args).
Proof.
  unfold main_steps, print_results, input, page_wait_for_timeout.
  repeat first [ apply quiet_start_browser | apply quiet_login
               | apply quiet_list_jobs | apply quiet_run_all_jobs
               | apply quiet_run_job | footprint_step quiet_side ].
Qed.

Lemma quiet_guarded_steps rt (args : Args.t) :
  adds no_teardown (guarded_steps rt args).
Proof.
  unfold guarded_steps. apply adds_try_except; [apply quiet_main_steps |].
  intros e. destruct e; unfold on_interrupt, on_error; footprint quiet_side.
Qed.

Lemma logged_then_adds {A} (P : event -> Prop) lvl msg (m : M A) (w : world) :
  adds P m ->
  exists evs,
    trace (snd ((logger lvl msg ;; m) w)) = (trace w ++ Log lvl msg :: evs)%list
    /\ Forall P evs.
Proof.
  intros H. destruct (H (emit (Log lvl msg) w)) as (evs & E & F).
  exists evs. split; [| exact F].
  unfold bind, logger. rewrite E. cbn [emit trace]. now rewrite <- app_assoc.
Qed.

(** [close] writes its closing record once, on entry. *)
Lemma close_logs_once rt (w : world) :
  exists evs,
    trace (snd (close rt w))
    = (trace w ++ Log INFO "Closing browser..." :: evs)%list
    /\ Forall not_closing evs.
Proof.
  unfold close. apply logged_then_adds. footprint ltac:(reflexivity).
Qed.

Lemma closings_app (xs ys : list event) :
  closings (xs ++ ys) = closings xs + closings ys.
Proof. unfold closings. now rewrite filter_app, length_app. Qed.

Lemma closings_quiet (evs : list event) :
  Forall not_closing evs -> closings evs = 0.
Proof.
  unfold closings. induction 1 as [| ev evs H _ IH]; [reflexivity |].
  simpl. unfold not_closing in H. now rewrite H.
Qed.

Lemma main_steps_then_close rt (args : Args.t) (w : world) :
  main rt args w
  = try_finally (guarded_steps rt args) (close rt)
      (snd (apply_headless args w)).
Proof.
  unfold main, apply_headless, bind. now destruct (Args.headless args).
Qed.

(** C8: every run of [main] from the [try] on is the guarded steps
    followed by one run of [close].  Whatever the runtime answers or
    raises and whichever option was given, the steps and the handlers
    end in some world, having made no release call and written no closing
    record; [close] is then run from that world, and the world it leaves
    is the one [main] leaves.  So the closing record is written exactly
    once in a run. *)
Theorem C8_close_once_per_run rt (args : Args.t) (w : world) :
  exists r w1 evs,
    (apply_headless args ;; guarded_steps rt args) w = (r, w1)
    /\ trace w1 = (trace w ++ evs)%list
    /\ Forall no_teardown evs
    /\ snd (main rt args w) = snd (close rt w1)
    /\ fst (main rt args w)
       = match fst (close rt w1) with
         | Returns _ => r
         | Raises e => Raises e
         end
    /\ closings (trace (snd (main rt args w))) = S (closings (trace w)).
Proof.
  set (w0 := snd (apply_headless args w)).
  assert (E0 : apply_headless args w = (Returns tt, w0))
    by (unfold w0, apply_headless; now destruct (Args.headless args)).
  assert (T0 : trace w0 = trace w)
    by (unfold w0, apply_headless; now destruct (Args.headless args)).
  destruct (quiet_guarded_steps rt args w0) as (evs & E1 & F1).
  destruct (guarded_steps rt args w0) as [r w1] eqn:G. cbn [snd] in E1.
  assert (M1 : main rt args w
               = match close rt w1 with
                 | (Returns _, w2) => (r, w2)
                 | (Raises e, w2) => (Raises e, w2)
                 end).
  { rewrite main_steps_then_close. fold w0. unfold try_finally. now rewrite G. }
  assert (S1 : snd (main rt args w) = snd (close rt w1)).
  { rewrite M1. now destruct (close rt w1) as [[[] | e] w2]. }
  exists r, w1, evs. split; [| split; [| split; [| split; [| split]]]].
  - now rewrite (bind_returns _ _ _ _ _ E0).
  - now rewrite E1, T0.
  - exact F1.
  - exact S1.
  - rewrite M1. now destruct (close rt w1) as [[[] | e] w2].
  - rewrite S1. destruct (close_logs_once rt w1) as (evs2 & E2 & F2).
    rewrite E2, E1, T0, !closings_app.
    rewrite (closings_quiet evs).
    + change (closings (Log INFO "Closing browser..." :: evs2))
        with (S (closings evs2)).
      rewrite (closings_quiet evs2 F2). lia.
    + revert F1. apply Forall_impl. now intros ev [H _].
Qed.

(** Two runs that go wrong at different steps; each enters [close]
    once. *)
Example main_launch_fails :
  fst (main launch_fails run_one_job not_started) = Returns tt
  /\ closings (trace (snd (main launch_fails run_one_job not_started))) = 1
  /\ ~ In (Called PageClose)
         (trace (snd (main launch_fails run_one_job not_started))).
Proof.
  split; [reflexivity |]. split; [reflexivity |].
  vm_compute. intros H.
  repeat (destruct H as [H | H]; [discriminate H |]). exact H.
Qed.

Example main_interrupted :
  fst (main interrupted_wait run_one_job not_started) = Returns tt
  /\ closings (trace (snd (main interrupted_wait run_one_job not_started))) = 1.
Proof. split; reflexivity. Qed.

(** * Further properties *)

(** ** _is_logged_in *)

Lemma keeps_indicator_visible rt (t : Z) (ind : string) :
  keeps_self (indicator_visible rt t ind).
Proof. intros w. apply indicator_visible_keeps_self. Qed.

(** A loop of indicator probes makes at most one probe per indicator,
    each on an indicator of its list. *)
Lemma indicator_loop_probes rt (t : Z) (inds : list string) (w : world) :
  exists r w' evs,
    for_first (indicator_visible rt t) inds w = (Returns r, w')
    /\ self w' = self w
    /\ trace w' = (trace w ++ evs)%list
    /\ List.length evs <= List.length inds
    /\ Forall (fun ev => exists ind,
                 In ind inds /\ ev = Called (IsVisible (Locator ind) t)) evs.
Proof.
  revert w. induction inds as [| ind inds IH]; intros w.
  - exists None, w, []. rewrite app_nil_r. repeat split; auto.
  - cbn [for_first]. unfold bind at 1.
    assert (S1 : exists b evs1,
               indicator_visible rt t ind w
               = (Returns b, {| self := self w; trace := (trace w ++ evs1)%list |})
               /\ List.length evs1 <= 1
               /\ Forall (fun ev => ev = Called (IsVisible (Locator ind) t)) evs1).
    { unfold indicator_visible, try_except, page_locator, self_page,
        is_visible, call_with, bind, ret, emit.
      destruct (page (self w)).
      - destruct (run_bool rt (trace w) _) as [b | e];
          [exists b | exists false];
          exists [Called (IsVisible (Locator ind) t)];
          (split; [reflexivity | split; [simpl; lia | now constructor]]).
      - exists false, []. rewrite app_nil_r. destruct w.
        split; [reflexivity | split; [simpl; lia | constructor]]. }
    destruct S1 as (b & evs1 & E1 & L1 & F1). rewrite E1.
    destruct b.
    + eexists; eexists; exists evs1. split; [reflexivity |].
      split; [reflexivity |]. split; [reflexivity |]. split; [simpl; lia |].
      revert F1. apply Forall_impl. intros ev ->. exists ind. split; auto.
      now left.
    + destruct (IH {| self := self w; trace := (trace w ++ evs1)%list |})
        as (r & w' & evs & E & Hs & Ht & L & F).
      exists r, w', (evs1 ++ evs)%list. split; [exact E |].
      split; [exact Hs |]. split; [now rewrite Ht, app_assoc |].
      split; [rewrite length_app; simpl; lia |].
      apply Forall_app. split.
      * revert F1. apply Forall_impl. intros ev ->. exists ind. split; auto.
        now left.
      * revert F. apply Forall_impl. intros ev (i & Hi & ->). exists i.
        split; auto. now right.
Qed.

Lemma probe_budget_app (xs ys : list event) :
  probe_budget (xs ++ ys) = (probe_budget xs + probe_budget ys)%Z.
Proof.
  induction xs as [| [[] | | |] xs IH]; simpl; try exact IH; try lia.
Qed.

Lemma probe_budget_uniform (t : Z) (evs : list event) :
  (0 <= t)%Z ->
  Forall (fun ev => exists l, ev = Called (IsVisible l t)) evs ->
  (probe_budget evs <= Z.of_nat (List.length evs) * t)%Z.
Proof.
  intros Ht. induction 1 as [| ev evs (l & ->) _ IH]; [simpl; lia |].
  cbn [probe_budget List.length]. lia.
Qed.

(** X1: [_is_logged_in] always returns a boolean, whatever the page
    answers or raises (an interrupt delivered during a probe included).
    It leaves [self] alone, and all it does is probe indicators: at most
    ten probes, whose time-outs add up to at most 17 seconds. *)
Theorem is_logged_in_is_a_bounded_look rt (w : world) :
  exists b w' evs,
    _is_logged_in rt w = (Returns b, w')
    /\ self w' = self w
    /\ trace w' = (trace w ++ evs)%list
    /\ Forall indicator_probe evs
    /\ List.length evs <= 10
    /\ (probe_budget evs <= 17000)%Z.
Proof.
  destruct (indicator_loop_probes rt 2000 logged_in_indicators w)
    as (r1 & w1 & evs1 & E1 & S1 & T1 & L1 & F1).
  destruct (indicator_loop_probes rt 1000 login_indicators w1)
    as (r2 & w2 & evs2 & E2 & S2 & T2 & L2 & F2).
  assert (P1 : Forall indicator_probe evs1).
  { revert F1. apply Forall_impl. intros ev (i & Hi & ->).
    exists i, 2000%Z. split; auto. }
  assert (P2 : Forall indicator_probe evs2).
  { revert F2. apply Forall_impl. intros ev (i & Hi & ->).
    exists i, 1000%Z. split; auto. }
  assert (B1 : (probe_budget evs1 <= 14000)%Z).
  { assert (H := probe_budget_uniform 2000 evs1). 
    assert (Hf : Forall (fun ev => exists l, ev = Called (IsVisible l 2000)) evs1).
    { revert F1. apply Forall_impl. intros ev (i & _ & ->). now eexists. }
    specialize (H ltac:(lia) Hf). simpl in L1. lia. }
  assert (B2 : (probe_budget evs2 <= 3000)%Z).
  { assert (H := probe_budget_uniform 1000 evs2).
    assert (Hf : Forall (fun ev => exists l, ev = Called (IsVisible l 1000)) evs2).
    { revert F2. apply Forall_impl. intros ev (i & _ & ->). now eexists. }
    specialize (H ltac:(lia) Hf). simpl in L2. lia. }
  unfold _is_logged_in, try_except_Exception, bind. rewrite E1.
  destruct (found r1).
  - exists true, w1, evs1. repeat split; auto; simpl in *; lia.
  - rewrite E2.
    assert (Ht : trace w2 = (trace w ++ evs1 ++ evs2)%list)
      by (now rewrite T2, T1, app_assoc).
    assert (Hl : List.length (evs1 ++ evs2) <= 10)
      by (rewrite length_app; simpl in *; lia).
    assert (Hb : (probe_budget (evs1 ++ evs2) <= 17000)%Z)
      by (rewrite probe_budget_app; lia).
    assert (Hs : self w2 = self w) by congruence.
    destruct (found r2);
      [exists false | exists true]; exists w2, (evs1 ++ evs2)%list;
      (repeat split; auto; now apply Forall_app).
Qed.

(** X2: when no positive indicator is reported visible and a negative one
    is, [_is_logged_in] answers [False]. *)
Theorem is_logged_in_false_on_login_page rt (w : world) (ind : string) :
  page (self w) <> None ->
  (forall tr p, In p logged_in_indicators ->
     run_bool rt tr (IsVisible (Locator p) 2000) <> Returns true) ->
  In ind login_indicators ->
  (forall tr, run_bool rt tr (IsVisible (Locator ind) 1000) = Returns true) ->
  fst (_is_logged_in rt w) = Returns false.
Proof.
  intros Hp Hpos Hin Hneg.
  destruct (for_first_none (indicator_visible rt 2000) logged_in_indicators)
    with (w := w) as (w1 & E1).
  { intros x w' Hx. apply indicator_visible_false. now apply Hpos. }
  assert (Hp1 : page (self w1) <> None).
  { pose proof (keeps_for_first (indicator_visible rt 2000)
                  logged_in_indicators (keeps_indicator_visible rt 2000) w) as K.
    rewrite E1 in K. simpl in K. now rewrite K. }
  destruct (for_first_finds (fun w => page (self w) <> None)
              (indicator_visible rt 1000) login_indicators ind)
    with (w := w1) as (y & w2 & E2); trivial.
  - intros z w0 Hw0.
    destruct (indicator_visible_returns rt 1000 z w0) as (b & w' & E).
    exists b, w'. split; [exact E |].
    pose proof (indicator_visible_keeps_self rt 1000 z w0) as K.
    rewrite E in K. simpl in K. now rewrite K.
  - intros w0 Hw0. eexists. now apply indicator_visible_true.
  - unfold _is_logged_in, try_except_Exception, bind. rewrite E1.
    cbn [found]. now rewrite E2.
Qed.

Lemma is_logged_in_false_on_login_page_witness :
  fst (_is_logged_in login_page started) = Returns false.
Proof.
  apply (is_logged_in_false_on_login_page login_page started "text=Sign in").
  - discriminate.
  - intros tr p Hp. vm_compute in Hp.
    repeat (destruct Hp as [<- | Hp]; [discriminate |]). destruct Hp.
  - simpl. tauto.
  - reflexivity.
Defined.

(** ** login *)

Lemma bind_ret_l' {A B} (a : A) (k : A -> M B) (w : world) :
  bind (ret a) k w = k a w.
Proof. reflexivity. Qed.

Lemma bind_raises {A B} (m : M A) (k : A -> M B) (w w' : world) (e : exn) :
  m w = (Raises e, w') -> bind m k w = (Raises e, w').
Proof. intros E. unfold bind. now rewrite E. Qed.

Lemma login_steps rt (w : world) :
  login rt w
  = try_except_Exception
      (page_goto rt (url (self w)) ;;
       page_wait_for_load_state rt "networkidle" None ;;
       already <- _is_logged_in rt ;;
       if already then
         logger INFO "Already logged in" ;;
         ret true
       else if truthy (username (self w)) && truthy (password (self w)) then
         logger INFO "Attempting to log in..." ;;
         username_filled <- for_first (fill_username rt (self w))
                              username_selectors ;;
         if negb (found username_filled) then
           logger WARNING
             "Could not find username field. You may need to log in manually." ;;
           ret false
         else
           password_filled <- for_first (fill_password rt (self w))
                                password_selectors ;;
           if negb (found password_filled) then
             logger WARNING "Could not find password field." ;;
             ret false
           else
             login_clicked <- for_first (click_login rt)
                                login_button_selectors ;;
             (if negb (found login_clicked) then
                logger WARNING
                  "Could not find login button. Trying to press Enter..." ;;
                page_keyboard_press rt "Enter"
              else ret tt) ;;
             page_wait_for_load_state rt "networkidle" (Some 10000%Z) ;;
             logged <- _is_logged_in rt ;;
             if logged then
               logger INFO "Login successful" ;;
               ret true
             else
               logger WARNING "Login may have failed. Check credentials." ;;
               ret false
       else
         logger WARNING
           "No credentials provided. Please log in manually or set UIPATH_USERNAME and UIPATH_PASSWORD" ;;
         ret false)
      (fun e =>
         logger ERROR ("Error during login: " ++ e) ;;
         ret false)
      (emit (navigating w) w).
Proof. reflexivity. Qed.

Lemma arrives_steps rt (w : world) :
  arrives rt w ->
  page_goto rt (url (self w)) (emit (navigating w) w)
  = (Returns tt, emit (Called (Goto (url (self w)))) (emit (navigating w) w))
  /\ page_wait_for_load_state rt "networkidle" None
       (emit (Called (Goto (url (self w)))) (emit (navigating w) w))
     = (Returns tt, arrived w).
Proof.
  intros (Hp & Hg & Hw). split.
  - unfold page_goto, self_page, call_with, bind. cbn [self emit].
    destruct (page (self w)); [| contradiction]. unfold navigating.
    now rewrite Hg.
  - unfold page_wait_for_load_state, self_page, call_with, bind.
    cbn [self emit].
    destruct (page (self w)); [| contradiction]. unfold navigating.
    now rewrite Hw.
Qed.

(** X3: an error of the navigation does not leave [login]: it is logged,
    the result is [False], and nothing else is done on the page. *)
Theorem login_navigation_error rt (w : world) (msg : string) :
  page (self w) <> None ->
  run_unit rt (trace (emit (navigating w) w)) (Goto (url (self w)))
  = Raises (Exception msg) ->
  login rt w
  = (Returns false,
     emit (Log ERROR ("Error during login: " ++ msg))
       (emit (Called (Goto (url (self w)))) (emit (navigating w) w))).
Proof.
  intros Hp Hg. rewrite login_steps. unfold try_except_Exception.
  assert (E : page_goto rt (url (self w)) (emit (navigating w) w)
              = (Raises (Exception msg),
                 emit (Called (Goto (url (self w)))) (emit (navigating w) w))).
  { unfold page_goto, self_page, call_with, bind. cbn [self emit].
    destruct (page (self w)); [| contradiction]. now rewrite Hg. }
  now rewrite (bind_raises _ _ _ _ _ E).
Qed.

Lemma login_navigation_error_witness :
  login unreachable started
  = (Returns false,
     emit (Log ERROR "Error during login: net::ERR_NAME_NOT_RESOLVED")
       (emit (Called (Goto "https://platform.uipath.com"))
          (emit (navigating started) started))).
Proof.
  apply (login_navigation_error unreachable started
           "net::ERR_NAME_NOT_RESOLVED").
  - discriminate.
  - reflexivity.
Defined.

(** X4: called before the browser was started, [login] does not crash: it
    logs the attribute error and returns [False], without a single call
    to the runtime. *)
Theorem login_without_browser rt (w : world) :
  page (self w) = None ->
  login rt w
  = (Returns false,
     emit (Log ERROR
             "Error during login: 'NoneType' object has no attribute 'goto'")
       (emit (navigating w) w)).
Proof.
  intros Hp. rewrite login_steps.
  unfold try_except_Exception, page_goto, self_page, bind. cbn [self emit].
  now rewrite Hp.
Qed.

Lemma login_without_browser_witness :
  fst (login blank not_started) = Returns false
  /\ trace (snd (login blank not_started))
     = [ Log INFO "Navigating to https://platform.uipath.com...";
         Log ERROR
           "Error during login: 'NoneType' object has no attribute 'goto'" ].
Proof.
  rewrite (login_without_browser blank not_started eq_refl).
  split; reflexivity.
Defined.

(** X5: without credentials (no username or no password), a session that
    is not classified as logged in gives [False]: [login] writes a
    warning and touches nothing on the page. *)
Theorem login_without_credentials rt (w w' : world) :
  arrives rt w ->
  _is_logged_in rt (arrived w) = (Returns false, w') ->
  truthy (username (self w)) && truthy (password (self w)) = false ->
  login rt w
  = (Returns false,
     emit (Log WARNING
             "No credentials provided. Please log in manually or set UIPATH_USERNAME and UIPATH_PASSWORD")
       w')
  /\ exists evs,
       trace w' = (trace (arrived w) ++ evs)%list /\ Forall only_looks evs.
Proof.
  intros Ha Hl Hc. destruct (arrives_steps rt w Ha) as [E1 E2]. split.
  - rewrite login_steps. unfold try_except_Exception.
    rewrite (bind_returns _ _ _ _ _ E1), (bind_returns _ _ _ _ _ E2),
      (bind_returns _ _ _ _ _ Hl), Hc.
    reflexivity.
  - destruct (is_logged_in_only_looks rt (arrived w)) as (evs & E & F).
    rewrite Hl in E. now exists evs.
Qed.

Lemma login_without_credentials_witness :
  exists w',
    login login_page {| self := anonymous; trace := [] |}
    = (Returns false,
       emit (Log WARNING
               "No credentials provided. Please log in manually or set UIPATH_USERNAME and UIPATH_PASSWORD")
         w').
Proof.
  exists (snd (_is_logged_in login_page
                 (arrived {| self := anonymous; trace := [] |}))).
  apply (login_without_credentials login_page
           {| self := anonymous; trace := [] |}).
  - split; [discriminate |]. split; reflexivity.
  - reflexivity.
  - reflexivity.
Defined.

Lemma adds_weaken {A} (P Q : event -> Prop) (m : M A) :
  (forall ev, P ev -> Q ev) -> adds P m -> adds Q m.
Proof.
  intros HPQ Hm w. destruct (Hm w) as (evs & E & F). exists evs.
  split; [exact E |]. revert F. apply Forall_impl. exact HPQ.
Qed.

Ltac fills_side :=
  first [ exact I
        | left; split; [assumption | reflexivity]
        | right; split; [assumption | reflexivity] ].

(** X6: whatever the page does, [login] types the username only into an
    element found by one of the username selectors and the password only
    into an element found by one of the password selectors. *)
Theorem login_fills_where_meant rt (w : world) :
  exists evs,
    trace (snd (login rt w)) = (trace w ++ evs)%list
    /\ Forall (fills_where_meant (self w)) evs.
Proof.
  rewrite login_steps.
  match goal with
  | |- context [try_except_Exception ?body ?handler _] =>
      assert (F : adds (fills_where_meant (self w))
                    (try_except_Exception body handler))
  end.
  { unfold fill_username, fill_password, click_login, attempt, page_locator,
      is_visible, page_fill, page_click, page_keyboard_press, page_goto,
      page_wait_for_load_state.
    repeat first [ apply (adds_weaken only_looks); [ | apply is_logged_in_only_looks ]
                 | footprint_step fills_side ].
    all: intros ev Hev; destruct ev as [[] | | |]; simpl in *; tauto. }
  destruct (F (emit (navigating w) w)) as (evs & E & Fe).
  exists (navigating w :: evs). split.
  - rewrite E. cbn [emit trace]. now rewrite <- app_assoc.
  - constructor; [exact I | exact Fe].
Qed.

(** *** The form is not submitted before it is filled *)

Lemma typed_shift rt (selectors : list string) (value : string)
    (tr e pre : list event) :
  typed rt selectors value (tr ++ e) pre ->
  typed rt selectors value tr (e ++ pre).
Proof.
  intros (p1 & s & p2 & -> & Hs & R). exists (e ++ p1)%list, s, p2.
  split; [now rewrite <- app_assoc |]. split; [exact Hs |].
  now rewrite app_assoc.
Qed.

Lemma typed_more rt (selectors : list string) (value : string)
    (tr pre more : list event) :
  typed rt selectors value tr pre ->
  typed rt selectors value tr (pre ++ more).
Proof.
  intros (p1 & s & p2 & -> & Hs & R). exists p1, s, (p2 ++ more)%list.
  split; [now rewrite <- app_assoc |]. now split.
Qed.

Lemma quiet_split (e1 e2 pre post : list event) (ev : event) :
  Forall no_submit e1 ->
  (e1 ++ e2)%list = (pre ++ ev :: post)%list ->
  is_submit ev = true ->
  exists pre2, pre = (e1 ++ pre2)%list /\ e2 = (pre2 ++ ev :: post)%list.
Proof.
  intros F. revert pre. induction F as [| x e1 Hx F IH]; intros pre E S.
  - now exists pre.
  - destruct pre as [| p pre]; simpl in E.
    + injection E as -> _. unfold no_submit in Hx. congruence.
    + injection E as -> E. destruct (IH pre E S) as (pre2 & -> & ->).
      now exists pre2.
Qed.

Lemma quiet_tail_split (e1 e2 pre post : list event) (ev : event) :
  Forall no_submit e2 ->
  (e1 ++ e2)%list = (pre ++ ev :: post)%list ->
  is_submit ev = true ->
  exists post1, e1 = (pre ++ ev :: post1)%list.
Proof.
  intros F. revert pre. induction e1 as [| x e1 IH]; intros pre E S.
  - simpl in E. exfalso. rewrite E in F. apply Forall_app in F as [_ F].
    inversion F as [| ? ? Hev _]. unfold no_submit in Hev. congruence.
  - destruct pre as [| p pre]; simpl in E.
    + injection E as -> _. now exists e1.
    + injection E as -> E. destruct (IH pre E S) as (post1 & ->).
      now exists post1.
Qed.

Lemma quiet_no_submit (evs pre post : list event) (ev : event) :
  Forall no_submit evs -> evs = (pre ++ ev :: post)%list ->
  is_submit ev = true -> False.
Proof.
  intros F -> S. apply Forall_app in F as [_ F].
  inversion F as [| ? ? Hev _]. unfold no_submit in Hev. congruence.
Qed.

Section Guards.

Variable R : list event -> list event -> Prop.

Hypothesis R_shift : forall tr e pre, R (tr ++ e)%list pre -> R tr (e ++ pre)%list.
Hypothesis R_more : forall tr pre more, R tr pre -> R tr (pre ++ more)%list.

Lemma quiet_guards {A} (m : M A) : adds no_submit m -> guards R m.
Proof.
  intros H w. destruct (H w) as (evs & E & F). exists evs.
  split; [exact E |]. intros pre ev post Hs S. exfalso.
  exact (quiet_no_submit _ _ _ _ F Hs S).
Qed.

Lemma guards_bind_quiet {A B} (m : M A) (k : A -> M B) :
  adds no_submit m -> (forall x, guards R (k x)) -> guards R (bind m k).
Proof.
  intros Hm Hk w. unfold bind. destruct (Hm w) as (e1 & E1 & F1).
  destruct (m w) as [[x | e] w1]; simpl in E1.
  - destruct (Hk x w1) as (e2 & E2 & G2). exists (e1 ++ e2)%list.
    split; [now rewrite E2, E1, app_assoc |].
    intros pre ev post Hs S.
    destruct (quiet_split e1 e2 pre post ev F1 Hs S) as (pre2 & -> & Hs2).
    apply R_shift. rewrite <- E1. now apply (G2 pre2 ev post).
  - exists e1. split; [exact E1 |]. intros pre ev post Hs S. exfalso.
    exact (quiet_no_submit _ _ _ _ F1 Hs S).
Qed.

Lemma guards_try_except_Exception {A} (body : M A) (handler : string -> M A) :
  guards R body -> (forall e, adds no_submit (handler e)) ->
  guards R (try_except_Exception body handler).
Proof.
  intros Hb Hh w. unfold try_except_Exception.
  destruct (Hb w) as (e1 & E1 & G1).
  destruct (body w) as [[x | [msg |]] w1]; simpl in E1;
    try (exists e1; now split).
  destruct (Hh msg w1) as (e2 & E2 & F2). exists (e1 ++ e2)%list.
  split; [now rewrite E2, E1, app_assoc |].
  intros pre ev post Hs S.
  destruct (quiet_tail_split e1 e2 pre post ev F2 Hs S) as (post1 & Hs1).
  now apply (G1 pre ev post1).
Qed.

(** Once [R] is established, anything may follow. *)
Lemma guards_after {A B} (m : M A) (k : A -> M B) (ok : A -> bool) :
  (forall w, exists evs,
      trace (snd (m w)) = (trace w ++ evs)%list
      /\ Forall no_submit evs
      /\ (forall x, fst (m w) = Returns x -> ok x = true -> R (trace w) evs)) ->
  (forall x, ok x = false -> adds no_submit (k x)) ->
  (forall x, ok x = true -> adds (fun _ => True) (k x)) ->
  guards R (bind m k).
Proof.
  intros Hm Hq Hany w. unfold bind. destruct (Hm w) as (e1 & E1 & F1 & P1).
  destruct (m w) as [[x | e] w1]; simpl in E1, P1.
  - destruct (ok x) eqn:Hok.
    + destruct (Hany x Hok w1) as (e2 & E2 & _). exists (e1 ++ e2)%list.
      split; [now rewrite E2, E1, app_assoc |].
      intros pre ev post Hs S.
      destruct (quiet_split e1 e2 pre post ev F1 Hs S) as (pre2 & -> & _).
      apply R_more. now apply (P1 x).
    + destruct (Hq x Hok w1) as (e2 & E2 & F2). exists (e1 ++ e2)%list.
      split; [now rewrite E2, E1, app_assoc |].
      intros pre ev post Hs S. exfalso.
      assert (F : Forall no_submit (e1 ++ e2)) by now apply Forall_app.
      exact (quiet_no_submit _ _ _ _ F Hs S).
  - exists e1. split; [exact E1 |]. intros pre ev post Hs S. exfalso.
    exact (quiet_no_submit _ _ _ _ F1 Hs S).
Qed.

End Guards.

(** Once [U] is established, what follows has to establish [P] before it
    submits. *)
Lemma guards_establish {A B} (U P : list event -> list event -> Prop)
    (m : M A) (k : A -> M B) (ok : A -> bool) :
  (forall tr pre more, U tr pre -> U tr (pre ++ more)%list) ->
  (forall tr e pre, P (tr ++ e)%list pre -> P tr (e ++ pre)%list) ->
  (forall w, exists evs,
      trace (snd (m w)) = (trace w ++ evs)%list
      /\ Forall no_submit evs
      /\ (forall x, fst (m w) = Returns x -> ok x = true -> U (trace w) evs)) ->
  (forall x, ok x = false -> adds no_submit (k x)) ->
  (forall x, ok x = true -> guards P (k x)) ->
  guards (fun tr pre => U tr pre /\ P tr pre) (bind m k).
Proof.
  intros U_more P_shift Hm Hq Hg w. unfold bind.
  destruct (Hm w) as (e1 & E1 & F1 & P1).
  destruct (m w) as [[x | e] w1]; simpl in E1, P1.
  - destruct (ok x) eqn:Hok.
    + destruct (Hg x Hok w1) as (e2 & E2 & G2). exists (e1 ++ e2)%list.
      split; [now rewrite E2, E1, app_assoc |].
      intros pre ev post Hs S.
      destruct (quiet_split e1 e2 pre post ev F1 Hs S) as (pre2 & -> & Hs2).
      split.
      * apply U_more. now apply (P1 x).
      * apply P_shift. rewrite <- E1. now apply (G2 pre2 ev post).
    + destruct (Hq x Hok w1) as (e2 & E2 & F2). exists (e1 ++ e2)%list.
      split; [now rewrite E2, E1, app_assoc |].
      intros pre ev post Hs S. exfalso.
      assert (F : Forall no_submit (e1 ++ e2)) by now apply Forall_app.
      exact (quiet_no_submit _ _ _ _ F Hs S).
  - exists e1. split; [exact E1 |]. intros pre ev post Hs S. exfalso.
    exact (quiet_no_submit _ _ _ _ F1 Hs S).
Qed.

(** A loop that fills a field submits nothing, and when it finds a field
    the fill of that field has returned. *)
Lemma fill_loop rt (value : string) (msg : string -> string)
    (all selectors : list string) (w : world) :
  (forall s, In s selectors -> In s all) ->
  exists evs,
    trace (snd (for_first
                  (fun s => attempt rt s (page_fill rt s value ;;
                                          logger INFO (msg s)))
                  selectors w))
    = (trace w ++ evs)%list
    /\ Forall no_submit evs
    /\ (forall x,
          fst (for_first
                 (fun s => attempt rt s (page_fill rt s value ;;
                                         logger INFO (msg s)))
                 selectors w) = Returns x ->
          found x = true -> typed rt all value (trace w) evs).
Proof.
  revert w. induction selectors as [| s selectors IH]; intros w Hsub.
  - exists []. simpl. rewrite app_nil_r. repeat split; auto.
    intros x E. injection E as <-. discriminate.
  - cbn [for_first]. cbv beta.
    assert (T : exists b w1 e1,
               attempt rt s (page_fill rt s value ;; logger INFO (msg s)) w
               = (Returns b, w1)
               /\ trace w1 = (trace w ++ e1)%list
               /\ Forall no_submit e1
               /\ (b = true -> typed rt [s] value (trace w) e1)).
    { unfold attempt, try_except, page_locator, page_fill,
        self_page, is_visible, call_with, logger, bind, ret.
      destruct (page (self w)) eqn:Hp.
      2:{ exists false, w, []. rewrite app_nil_r. repeat split; auto.
          discriminate. }
      destruct (run_bool rt (trace w) _) as [[|] | e].
      - cbn [self emit]. rewrite Hp.
        destruct (run_unit rt _ _) as [[] | e] eqn:Ef.
        + eexists true, _, [_; _; _]. split; [reflexivity |].
          split; [cbn [emit trace]; now rewrite <- !app_assoc |].
          split; [repeat constructor |]. intros _.
          eexists [_], s, [_]. split; [reflexivity |].
          split; [now left | exact Ef].
        + eexists false, _, [_; _]. split; [reflexivity |].
          split; [cbn [emit trace]; now rewrite <- !app_assoc |].
          split; [repeat constructor | discriminate].
      - eexists false, _, [_]. split; [reflexivity |].
        split; [reflexivity |]. split; [repeat constructor | discriminate].
      - eexists false, _, [_]. split; [reflexivity |].
        split; [reflexivity |]. split; [repeat constructor | discriminate]. }
    destruct T as (b & w1 & e1 & E & T1 & F1 & I1).
    rewrite (bind_returns _ _ _ _ _ E).
    destruct b.
    + exists e1. split; [exact T1 |]. split; [exact F1 |].
      intros x _ _. destruct (I1 eq_refl) as (p1 & s' & p2 & -> & [<- | []] & R).
      exists p1, s, p2. split; [reflexivity |].
      split; [apply Hsub; now left | exact R].
    + destruct (IH w1) as (e2 & T2 & F2 & I2).
      { intros s' Hs'. apply Hsub. now right. }
      exists (e1 ++ e2)%list. split; [now rewrite T2, T1, app_assoc |].
      split; [now apply Forall_app |].
      intros x Hx Hf. apply typed_shift. rewrite <- T1. now apply (I2 x).
Qed.

Ltac no_submit_side := first [reflexivity | exact I].

Lemma is_logged_in_no_submit rt : adds no_submit (_is_logged_in rt).
Proof.
  apply (adds_weaken only_looks); [| apply is_logged_in_only_looks].
  intros ev Hev. destruct ev as [[] | | |]; simpl in Hev; now try reflexivity.
Qed.

Lemma form_filled_shift rt a (tr e pre : list event) :
  form_filled rt a (tr ++ e) pre -> form_filled rt a tr (e ++ pre).
Proof. intros [U P]. split; now apply typed_shift. Qed.

(** X7: in every run of [login], a click or a key press comes only after
    both credentials have been typed: before any submit there is a fill
    of a username field with the username that returned, and a fill of a
    password field with the password that returned.  The form is never
    submitted with a credential missing. *)
Theorem login_submits_after_password rt (w : world) :
  exists evs,
    trace (snd (login rt w)) = (trace w ++ evs)%list
    /\ submits_after (form_filled rt (self w)) (trace w) evs.
Proof.
  rewrite login_steps.
  match goal with
  | |- context [try_except_Exception ?body ?handler _] =>
      assert (G : guards (form_filled rt (self w))
                    (try_except_Exception body handler))
  end.
  { apply guards_try_except_Exception;
      [| intros e; footprint no_submit_side].
    apply guards_bind_quiet;
      [ apply form_filled_shift
      | unfold page_goto; footprint no_submit_side | intros _].
    apply guards_bind_quiet;
      [ apply form_filled_shift
      | unfold page_wait_for_load_state; footprint no_submit_side | intros _].
    apply guards_bind_quiet;
      [ apply form_filled_shift | apply is_logged_in_no_submit
      | intros already].
    destruct already;
      [apply quiet_guards; footprint no_submit_side |].
    destruct (truthy (username (self w)) && truthy (password (self w)));
      [| apply quiet_guards; footprint no_submit_side].
    apply guards_bind_quiet;
      [ apply form_filled_shift | footprint no_submit_side | intros _].
    apply (guards_establish
             (typed rt username_selectors (username (self w)))
             (typed rt password_selectors (password (self w)))
             _ _ found).
    - intros tr pre more. apply typed_more.
    - intros tr e pre. apply typed_shift.
    - intros w0.
      apply (fill_loop rt (username (self w))
               (fun s => "Filled username using selector: " ++ s)
               username_selectors username_selectors w0). auto.
    - intros x ->. cbn [negb]. footprint no_submit_side.
    - intros x ->. cbn [negb].
      apply (guards_after _ (typed_more rt password_selectors
                               (password (self w))) _ _ found).
      + intros w0.
        apply (fill_loop rt (password (self w)) (fun _ => "Filled password")
                 password_selectors password_selectors w0). auto.
      + intros y ->. cbn [negb]. footprint no_submit_side.
      + intros y ->. cbn [negb].
        unfold click_login, attempt, page_locator, is_visible, page_click,
          page_keyboard_press, page_wait_for_load_state.
        repeat first [ apply (adds_weaken only_looks);
                       [ | apply is_logged_in_only_looks ]
                     | footprint_step ltac:(exact I) ].
        all: auto. }
  destruct (G (emit (navigating w) w)) as (evs & E & Ge).
  exists (navigating w :: evs). split.
  - rewrite E. cbn [emit trace]. now rewrite <- app_assoc.
  - intros pre ev post Hs S.
    destruct pre as [| p pre]; simpl in Hs.
    + injection Hs as <- _. discriminate S.
    + injection Hs as <- Hs.
      apply (form_filled_shift rt (self w) (trace w) [navigating w] pre).
      now apply (Ge pre ev post).
Qed.

Lemma login_submits_after_password_witness :
  exists evs,
    trace (snd (login login_page started)) = (trace started ++ evs)%list
    /\ submits_after (form_filled login_page robot) (trace started) evs.
Proof. exact (login_submits_after_password login_page started). Defined.

(** On the login page the form is filled and then submitted. *)
Example login_page_submits :
  filter is_submit (trace (snd (login login_page started)))
  = [Called (Click ("button[type=" ++ quoted "submit" ++ "]"))].
Proof. vm_compute. reflexivity. Qed.

Lemma keeps_is_logged_in rt : keeps_self (_is_logged_in rt).
Proof.
  unfold _is_logged_in, indicator_visible, page_locator, is_visible. keeps.
Qed.

Lemma keeps_login_loops rt a :
  keeps_self (for_first (fill_username rt a) username_selectors)
  /\ keeps_self (for_first (fill_password rt a) password_selectors)
  /\ keeps_self (for_first (click_login rt) login_button_selectors).
Proof.
  unfold fill_username, fill_password, click_login, attempt, page_locator,
    is_visible, page_fill, page_click.
  repeat split; keeps.
Qed.

Lemma keeps_at {A} (m : M A) (w w' : world) (r : outcome A) :
  keeps_self m -> m w = (r, w') -> self w' = self w.
Proof. intros K E. specialize (K w). now rewrite E in K. Qed.

(** X8: when both fields were filled and no login button resolves,
    [login] warns and presses Enter instead; after the wait, its result is
    what the classifier answers then. *)
Theorem login_presses_enter_without_button
    rt (w w1 w2 w3 w4 w7 : world) (su sp : string) (b : bool) :
  arrives rt w ->
  _is_logged_in rt (arrived w) = (Returns false, w1) ->
  truthy (username (self w)) && truthy (password (self w)) = true ->
  for_first (fill_username rt (self w)) username_selectors
    (emit (Log INFO "Attempting to log in...") w1) = (Returns (Some su), w2) ->
  for_first (fill_password rt (self w)) password_selectors w2
  = (Returns (Some sp), w3) ->
  for_first (click_login rt) login_button_selectors w3 = (Returns None, w4) ->
  let w5 :=
    emit (Called (KeyboardPress "Enter"))
      (emit (Log WARNING
               "Could not find login button. Trying to press Enter...") w4) in
  let w6 := emit (Called (WaitForLoadState "networkidle" (Some 10000%Z))) w5 in
  run_unit rt
    (trace (emit (Log WARNING
                    "Could not find login button. Trying to press Enter...") w4))
    (KeyboardPress "Enter") = Returns tt ->
  run_unit rt (trace w5) (WaitForLoadState "networkidle" (Some 10000%Z))
  = Returns tt ->
  _is_logged_in rt w6 = (Returns b, w7) ->
  login rt w
  = (Returns b,
     emit (if b then Log INFO "Login successful"
           else Log WARNING "Login may have failed. Check credentials.") w7).
Proof.
  intros Ha Hl Hc Hu Hpw Hb w5 w6 Hk Hw Hl2.
  destruct (arrives_steps rt w Ha) as [E1 E2].
  destruct (keeps_login_loops rt (self w)) as (K1 & K2 & K3).
  assert (Hp4 : page (self w4) <> None).
  { rewrite (keeps_at _ _ _ _ K3 Hb), (keeps_at _ _ _ _ K2 Hpw),
      (keeps_at _ _ _ _ K1 Hu). cbn [self emit].
    rewrite (keeps_at _ _ _ _ (keeps_is_logged_in rt) Hl). apply Ha. }
  assert (E5 : page_keyboard_press rt "Enter"
                 (emit (Log WARNING
                          "Could not find login button. Trying to press Enter...")
                    w4) = (Returns tt, w5)).
  { unfold page_keyboard_press, self_page, call_with, bind. cbn [self emit].
    destruct (page (self w4)); [| contradiction]. now rewrite Hk. }
  assert (E6 : page_wait_for_load_state rt "networkidle" (Some 10000%Z) w5
               = (Returns tt, w6)).
  { unfold page_wait_for_load_state, self_page, call_with, bind.
    cbn [self emit w5].
    destruct (page (self w4)); [| contradiction]. now rewrite Hw. }
  rewrite login_steps. unfold try_except_Exception.
  rewrite (bind_returns _ _ _ _ _ E1), (bind_returns _ _ _ _ _ E2),
    (bind_returns _ _ _ _ _ Hl), Hc.
  rewrite (bind_returns (logger _ _) _ w1 _ tt eq_refl).
  rewrite (bind_returns _ _ _ _ _ Hu). cbn [found negb].
  rewrite (bind_returns _ _ _ _ _ Hpw). cbn [found negb].
  rewrite (bind_returns _ _ _ _ _ Hb). cbn [found negb].
  rewrite bind_assoc.
  rewrite (bind_returns (logger _ _) _ w4 _ tt eq_refl).
  rewrite (bind_returns _ _ _ _ _ E5), (bind_returns _ _ _ _ _ E6),
    (bind_returns _ _ _ _ _ Hl2).
  now destruct b.
Qed.

Lemma login_presses_enter_without_button_witness :
  fst (login login_page_no_button started) = Returns false
  /\ In (Called (KeyboardPress "Enter"))
        (trace (snd (login login_page_no_button started))).
Proof.
  pose (rt := login_page_no_button).
  pose (w1 := snd (_is_logged_in rt (arrived started))).
  pose (w2 := snd (for_first (fill_username rt robot) username_selectors
                     (emit (Log INFO "Attempting to log in...") w1))).
  pose (w3 := snd (for_first (fill_password rt robot) password_selectors w2)).
  pose (w4 := snd (for_first (click_login rt) login_button_selectors w3)).
  pose (w5 := emit (Called (KeyboardPress "Enter"))
                (emit (Log WARNING
                         "Could not find login button. Trying to press Enter...")
                   w4)).
  pose (w6 := emit (Called (WaitForLoadState "networkidle" (Some 10000%Z))) w5).
  pose (w7 := snd (_is_logged_in rt w6)).
  assert (E : login rt started
              = (Returns false,
                 emit (Log WARNING "Login may have failed. Check credentials.")
                   w7)).
  { apply (login_presses_enter_without_button rt started w1 w2 w3 w4 w7
             ("input[name=" ++ quoted "username" ++ "]")
             ("input[type=" ++ quoted "password" ++ "]") false).
    - split; [discriminate |]. split; reflexivity.
    - reflexivity.
    - reflexivity.
    - vm_compute. reflexivity.
    - vm_compute. reflexivity.
    - vm_compute. reflexivity.
    - reflexivity.
    - reflexivity.
    - vm_compute. reflexivity. }
  unfold rt in E. rewrite E. split; [reflexivity |].
  vm_compute. tauto.
Defined.

(** ** navigate_to_jobs *)




Lemma grows {A} (m : M A) (w w' : world) (r : outcome A) :
  adds (fun _ => True) m -> m w = (r, w') ->
  exists evs, trace w' = (trace w ++ evs)%list.
Proof.
  intros H E. destruct (H w) as (evs & Et & _). rewrite E in Et.
  now exists evs.
Qed.

(** X9: [navigate_to_jobs] reports nothing to its caller: whatever error
    the page raises, with or without a page, it returns [None] (only an
    interrupt outside the link probes passes through), and it leaves
    [self] alone. *)
Theorem navigate_to_jobs_is_silent rt (w : world) :
  (fst (navigate_to_jobs rt w) = Returns tt
   \/ fst (navigate_to_jobs rt w) = Raises KeyboardInterrupt)
  /\ self (snd (navigate_to_jobs rt w)) = self w.
Proof.
  split; [| apply keeps_navigate_to_jobs].
  destruct (navigate_to_jobs rt w) as [[[] | [msg |]] w'] eqn:E; auto.
  now elim (navigate_to_jobs_no_exception rt w w' msg).
Qed.




(** ** list_jobs *)

(** *** [strip] leaves no whitespace character at either end *)

Lemma lstrip_fixed (s : string) :
  starts_with_space s = false -> lstrip s = s.
Proof.
  destruct s as [| c1 [| c2 [| c3 s3]]]; cbn [starts_with_space lstrip];
    try reflexivity.
  - now destruct (isspace1 c1).
  - destruct (isspace1 c1); [discriminate |].
    now destruct (isspace2 c1 c2).
  - destruct (isspace1 c1); [discriminate |].
    destruct (isspace2 c1 c2); [discriminate |].
    now destruct (isspace3 c1 c2 c3).
Qed.

Lemma lstrip_no_space_upto (n : nat) (s : string) :
  String.length s <= n -> starts_with_space (lstrip s) = false.
Proof.
  revert s. induction n as [| n IH]; intros s L.
  - destruct s; [reflexivity | simpl in L; lia].
  - destruct s as [| c1 s1]; [reflexivity |]. cbn [lstrip].
    destruct (isspace1 c1) eqn:S1; [apply IH; simpl in L; lia |].
    destruct s1 as [| c2 s2]; [cbn [starts_with_space]; now rewrite S1 |].
    destruct (isspace2 c1 c2) eqn:S2; [apply IH; simpl in L; lia |].
    destruct s2 as [| c3 s3];
      [cbn [starts_with_space]; now rewrite S1, S2 |].
    destruct (isspace3 c1 c2 c3) eqn:S3; [apply IH; simpl in L; lia |].
    cbn [starts_with_space]. now rewrite S1, S2, S3.
Qed.

Lemma lstrip_no_space (s : string) : starts_with_space (lstrip s) = false.
Proof. now apply (lstrip_no_space_upto (String.length s)). Qed.

(** Whitespace at the start of a string is at the start of every string
    it begins. *)
Lemma starts_with_space_app (a v : string) :
  starts_with_space a = true -> starts_with_space (a ++ v) = true.
Proof.
  destruct a as [| c1 [| c2 [| c3 a3]]];
    cbn [starts_with_space append]; try discriminate.
  - rewrite !orb_false_r. now intros ->.
  - rewrite !orb_false_r. intros H. apply orb_true_iff in H as [-> | ->];
      [reflexivity |].
    cbn [orb]. now rewrite orb_true_r.
  - trivial.
Qed.

Lemma rstrip_is_prefix (s : string) : exists v, s = rstrip s ++ v.
Proof.
  induction s as [| c s (v & IH)]; [now exists "" |].
  cbn [rstrip]. destruct (isspace (String c (rstrip s))).
  - now exists (String c s).
  - exists v. cbn [append]. now rewrite <- IH.
Qed.

Lemma rstrip_idem (s : string) : rstrip (rstrip s) = rstrip s.
Proof.
  induction s as [| c s IH]; [reflexivity |].
  cbn [rstrip]. destruct (isspace (String c (rstrip s))) eqn:S; [reflexivity |].
  cbn [rstrip]. now rewrite IH, S.
Qed.

Lemma rstrip_no_space (s : string) :
  starts_with_space s = false -> starts_with_space (rstrip s) = false.
Proof.
  intros H. destruct (starts_with_space (rstrip s)) eqn:R; [| reflexivity].
  destruct (rstrip_is_prefix s) as (v & E).
  apply (starts_with_space_app _ v) in R. rewrite <- E in R. congruence.
Qed.

Lemma strip_idem (s : string) : strip (strip s) = strip s.
Proof.
  unfold strip.
  rewrite (lstrip_fixed (rstrip (lstrip s))).
  - apply rstrip_idem.
  - apply rstrip_no_space, lstrip_no_space.
Qed.

(** Whitespace is stripped by character, not by byte: the last byte of
    an accented letter stays, a no-break space and an em space go. *)
Example strip_by_character :
  strip ("  Attività" ++ nbsp ++ nl) = "Attività"
  /\ strip em_space = ""
  /\ strip (em_space ++ "Report" ++ em_space) = "Report".
Proof. repeat split; vm_compute; reflexivity. Qed.

(** What one row adds: nothing, or one record for this row whose name is
    the stripped text of the name cell. *)
Lemma extract_job_adds rt (jobs : list job) (i : nat) (row : locator)
    (w : world) :
  exists jobs' w',
    extract_job rt jobs (i, row) w = (Returns jobs', w')
    /\ (jobs' = jobs
        \/ exists text,
             strip text <> ""
             /\ jobs' = (jobs ++ [{| name := strip text; index := i;
                                     element := row |}])%list).
Proof.
  unfold extract_job, try_except, locator_count, inner_text, call_with, bind,
    ret.
  destruct (run_nat rt (trace w) _) as [[| n] | e]; cbn [Nat.ltb Nat.leb];
    try (eexists; eexists; split; [reflexivity | now left]).
  destruct (run_str rt _ _) as [text | e];
    try (eexists; eexists; split; [reflexivity | now left]).
  destruct (strip text) as [| c s] eqn:Es; cbn [truthy];
    eexists; eexists; (split; [reflexivity |]); [now left | right].
  exists text. rewrite Es. split; [discriminate | reflexivity].
Qed.

Lemma StronglySorted_drop_middle (xs ys : list nat) (x : nat) :
  StronglySorted lt (xs ++ x :: ys) -> StronglySorted lt (xs ++ ys).
Proof.
  induction xs as [| a xs IH]; simpl; intros H.
  - now inversion H.
  - inversion H as [| ? ? Hs Hf]. subst. constructor; [now apply IH |].
    apply Forall_app in Hf as [F1 F2]. apply Forall_app. split; [exact F1 |].
    now inversion F2.
Qed.

(** The inner loop keeps records well formed and in the order of the
    rows. *)
Lemma rows_loop_in_order rt (rows : list (nat * locator)) (jobs jobs' : list job)
    (w w' : world) :
  for_fold (extract_job rt) rows jobs w = (Returns jobs', w') ->
  Forall well_formed jobs ->
  Forall (fun r => fst r < max_jobs) rows ->
  StronglySorted lt (map index jobs ++ map fst rows) ->
  Forall well_formed jobs' /\ StronglySorted lt (map index jobs').
Proof.
  revert jobs w. induction rows as [| [i row] rows IH]; intros jobs w E F B S.
  - injection E as <- _. split; [exact F |]. now rewrite app_nil_r in S.
  - cbn [for_fold] in E. unfold bind in E.
    destruct (extract_job_adds rt jobs i row w) as (jobs1 & w1 & E1 & C).
    rewrite E1 in E. inversion B as [| ? ? Bi Brest]. subst.
    apply (IH jobs1 w1 E); [| exact Brest |].
    + destruct C as [-> | (text & Hne & ->)]; [exact F |].
      apply Forall_app. split; [exact F |]. constructor; [| constructor].
      split; [exact Hne |]. split; [apply strip_idem | exact Bi].
    + destruct C as [-> | (text & Hne & ->)].
      * now apply StronglySorted_drop_middle with (x := i).
      * rewrite map_app, <- app_assoc. exact S.
Qed.

Lemma StronglySorted_seq (s n : nat) : StronglySorted lt (seq s n).
Proof.
  revert s. induction n as [| n IH]; intros s; [constructor |].
  cbn [seq]. constructor; [apply IH |].
  apply Forall_forall. intros x Hx. apply in_seq in Hx. lia.
Qed.

Lemma enumerate_fst {A} (xs : list A) :
  map fst (enumerate xs) = seq 0 (List.length xs).
Proof.
  unfold enumerate. generalize 0.
  induction xs as [| x xs IH]; intros s; [reflexivity |].
  cbn [List.length seq combine map fst]. now rewrite IH.
Qed.

Lemma try_job_items_in_order rt (selector : string) (w w' : world)
    (jobs : list job) (flag : bool) :
  try_job_items rt [] selector w = (Returns (jobs, flag), w') ->
  Forall well_formed jobs /\ StronglySorted lt (map index jobs).
Proof.
  unfold try_job_items, try_except, page_locator, self_page, locator_all,
    call_with, bind, ret.
  destruct (page (self w)).
  2:{ intros E. injection E as <- _ _. split; constructor. }
  destruct (run_nat rt (trace w) _) as [n | e].
  2:{ intros E. injection E as <- _ _. split; constructor. }
  destruct (0 <? List.length (map (Nth (Locator selector)) (seq 0 n)))%nat.
  2:{ intros E. injection E as <- _ _. split; constructor. }
  cbn [logger]. unfold extract_jobs.
  match goal with
  | |- context [for_fold _ ?rows [] ?w0] =>
      destruct (for_fold (extract_job rt) rows [] w0) as [[jobs1 | e] w1] eqn:E1;
      [ pose proof (rows_loop_in_order rt rows [] jobs1 w0 w1 E1) as H
      | intros E; injection E as <- _ _; split; constructor ]
  end.
  intros E. injection E as <- _ _. apply H.
  - constructor.
  - apply Forall_forall. intros r Hr. apply (in_map fst) in Hr.
    rewrite enumerate_fst in Hr. apply in_seq in Hr.
    pose proof (firstn_le_length max_jobs
                  (map (Nth (Locator selector)) (seq 0 n))). lia.
  - cbn [map app]. rewrite enumerate_fst. apply StronglySorted_seq.
Qed.

(** X11: the records of a listing are well formed and in document order:
    every name is non-empty and stripping it changes nothing (it neither
    starts nor ends with a whitespace character), and the positions grow
    strictly and stay below 50. *)
Theorem list_jobs_records_in_order rt (w w' : world) (jobs : list job) :
  list_jobs rt w = (Returns jobs, w') ->
  Forall well_formed jobs /\ StronglySorted lt (map index jobs).
Proof.
  intros H. apply list_jobs_inv in H as (w0 & w1 & _ & Hs & _).
  destruct (scan_job_items_spec rt job_item_selectors w0)
    as (jobs2 & w2 & E & C).
  rewrite Hs in E. injection E as <- <-.
  destruct C as [-> | (pre & sel & post & w3 & _ & _ & Ht & _)].
  - split; constructor.
  - now apply try_job_items_in_order in Ht.
Qed.

Lemma list_jobs_records_in_order_witness :
  exists jobs w',
    list_jobs accented_rows started = (Returns jobs, w')
    /\ map name jobs = ["Attività"; "Report"]
    /\ map index jobs = [0; 2]
    /\ Forall well_formed jobs
    /\ StronglySorted lt (map index jobs).
Proof.
  assert (E : exists jobs w',
             list_jobs accented_rows started = (Returns jobs, w')
             /\ map name jobs = ["Attività"; "Report"]
             /\ map index jobs = [0; 2])
    by (vm_compute; eexists; eexists; repeat split; reflexivity).
  destruct E as (jobs & w' & E & N & I). exists jobs, w'.
  split; [exact E |]. split; [exact N |]. split; [exact I |].
  exact (list_jobs_records_in_order accented_rows started w' jobs E).
Defined.

Lemma adds_at {A} (P : event -> Prop) (m : M A) (w w' : world) (r : outcome A) :
  adds P m -> m w = (r, w') ->
  exists evs, trace w' = (trace w ++ evs)%list /\ Forall P evs.
Proof.
  intros H E. destruct (H w) as (evs & Et & F). rewrite E in Et.
  now exists evs.
Qed.


Lemma no_screenshot_before_listing rt :
  adds (fun ev => is_screenshot ev = false) (before_listing rt)
  /\ forall selectors jobs,
       adds (fun ev => is_screenshot ev = false)
         (scan_job_items rt selectors jobs).
Proof.
  split.
  - unfold before_listing, navigate_to_jobs, click_job_link, attempt,
      page_locator, is_visible, page_click, page_wait_for_load_state,
      page_url, page_goto, page_wait_for_timeout.
    footprint ltac:(reflexivity).
  - intros selectors. induction selectors as [| sel rest IH]; intros jobs;
      cbn [scan_job_items].
    + apply adds_ret.
    + apply adds_bind.
      * unfold try_job_items, extract_jobs, extract_job, page_locator,
          locator_all, locator_count, inner_text.
        footprint ltac:(reflexivity).
      * intros [jobs' stop]. cbn [fst snd]. destruct stop;
          [apply adds_ret | apply IH].
Qed.

(** X12: a listing that returns has saved the debug screenshot exactly
    when it found no job: as its last step when the result is empty, and
    not at all otherwise. *)
Theorem list_jobs_screenshot_iff_empty rt (w w' : world) (jobs : list job) :
  list_jobs rt w = (Returns jobs, w') ->
  exists evs,
    trace w' = (trace w ++ evs)%list
    /\ (jobs = [] ->
        exists evs0,
          evs = (evs0 ++ [Called (Screenshot "jobs_page_debug.png")])%list
          /\ Forall (fun ev => is_screenshot ev = false) evs0)
    /\ (jobs <> [] -> Forall (fun ev => is_screenshot ev = false) evs).
Proof.
  intros H.
  destruct (no_screenshot_before_listing rt) as [Qb Qs].
  pose proof (list_jobs_inv rt w w' jobs H) as (w0 & w1 & Hb & Hs & Hw).
  destruct (adds_at _ _ _ _ _ Qb Hb) as (e1 & T1 & F1).
  destruct (adds_at _ _ _ _ _ (Qs job_item_selectors []) Hs) as (e2 & T2 & F2).
  destruct jobs as [| j jobs].
  - (* nothing found: the diagnostic tail ran and returned *)
    assert (Ht : exists wx e3,
               trace wx = (trace w1 ++ e3)%list
               /\ Forall (fun ev => is_screenshot ev = false) e3
               /\ w' = emit (Called (Screenshot "jobs_page_debug.png")) wx).
    { unfold list_jobs in H.
      apply bind_inv in H as ([] & wa & Ha & H).
      apply bind_inv in H as ([] & wb & Hnav & H).
      apply bind_inv in H as ([] & wc & Hc & H).
      apply bind_inv in H as (jobs' & wd & Hd & H).
      apply bind_inv in H as ([] & we & He & H).
      injection H as -> ->.
      assert (wc = w0 /\ wd = w1) as [-> ->].
      { unfold before_listing, bind in Hb. rewrite Ha, Hnav, Hc in Hb.
        injection Hb as <-. rewrite Hd in Hs. now injection Hs as <-. }
      apply bind_inv in He as ([] & wf & Hf & He).
      apply bind_inv in He as (u & wg & Hg & He).
      apply bind_inv in He as ([] & wh & Hh & He).
      apply bind_inv in He as ([] & wi & Hi & He).
      assert (Q : adds (fun ev => is_screenshot ev = false)
                    (logger WARNING
                       "Could not find jobs using standard selectors. Page structure may be different." ;;
                     u <- page_url rt ;;
                     logger INFO ("Page URL: " ++ u) ;;
                     logger INFO "Saving page screenshot for debugging...")).
      { unfold page_url. footprint ltac:(reflexivity). }
      assert (Ei : (logger WARNING
                      "Could not find jobs using standard selectors. Page structure may be different." ;;
                    u <- page_url rt ;;
                    logger INFO ("Page URL: " ++ u) ;;
                    logger INFO "Saving page screenshot for debugging...") w1
                   = (Returns tt, wi)).
      { unfold bind. rewrite Hf, Hg. unfold bind in *. rewrite Hh. exact Hi. }
      destruct (adds_at _ _ _ _ _ Q Ei) as (e3 & T3 & F3).
      exists wi, e3. split; [exact T3 |]. split; [exact F3 |].
      unfold page_screenshot, self_page, call_with, bind in He.
      destruct (page (self wi)); [| discriminate].
      destruct (run_unit rt (trace wi) _) as [[] | e]; [| discriminate].
      now injection He as <-. }
    destruct Ht as (wx & e3 & T3 & F3 & ->).
    exists ((e1 ++ e2 ++ e3) ++ [Called (Screenshot "jobs_page_debug.png")])%list.
    split; [| split].
    + cbn [emit trace]. rewrite T3, T2, T1, <- !app_assoc. reflexivity.
    + intros _. eexists. split; [reflexivity |].
      apply Forall_app. split; [exact F1 |]. now apply Forall_app.
    + intros N. now elim N.
  - rewrite (Hw ltac:(discriminate)). exists (e1 ++ e2)%list.
    split; [now rewrite T2, T1, app_assoc |]. split.
    + discriminate.
    + intros _. now apply Forall_app.
Qed.

Lemma list_jobs_screenshot_iff_empty_witness :
  exists w' evs,
    list_jobs blank started = (Returns [], w')
    /\ trace w' = (trace started ++ evs)%list
    /\ exists evs0,
         evs = (evs0 ++ [Called (Screenshot "jobs_page_debug.png")])%list.
Proof.
  assert (E : list_jobs blank started
              = (Returns [], snd (list_jobs blank started)))
    by (vm_compute; reflexivity).
  destruct (list_jobs_screenshot_iff_empty blank started _ [] E)
    as (evs & T & H0 & _).
  destruct (H0 eq_refl) as (evs0 & E0 & _).
  exists (snd (list_jobs blank started)), evs.
  split; [exact E |]. split; [exact T |]. now exists evs0.
Defined.

(** ** run_job *)

(** X13: the wait between navigation and the guarded block of [run_job]
    is not guarded: whatever it raises leaves [run_job], and no row is
    looked for. *)
Theorem run_job_settle_wait_unguarded
    rt (job_name : string) (w w1 : world) (e : exn) :
  page (self w) <> None ->
  navigate_to_jobs rt (emit (Log INFO ("Attempting to run job: " ++ job_name)) w)
  = (Returns tt, w1) ->
  run_unit rt (trace w1) (WaitForTimeout 2000) = Raises e ->
  run_job rt job_name w = (Raises e, emit (Called (WaitForTimeout 2000)) w1).
Proof.
  intros Hp Hn Hw.
  assert (Hp1 : page (self w1) <> None).
  { now rewrite (keeps_at _ _ _ _ (keeps_navigate_to_jobs rt) Hn). }
  unfold run_job.
  rewrite (bind_returns (logger _ _) _ w _ tt eq_refl).
  rewrite (bind_returns _ _ _ _ _ Hn).
  apply bind_raises.
  unfold page_wait_for_timeout, self_page, call_with, bind.
  destruct (page (self w1)); [| contradiction]. now rewrite Hw.
Qed.

Lemma run_job_settle_wait_unguarded_witness :
  fst (run_job waits_fail "Invoice Sync" started)
  = Raises (Exception "Target page has been closed")
  /\ ~ In (Called (IsVisible (First (Locator (job_row_selector "Invoice Sync")))
                     5000))
          (trace (snd (run_job waits_fail "Invoice Sync" started))).
Proof.
  rewrite (run_job_settle_wait_unguarded waits_fail "Invoice Sync" started
             (snd (navigate_to_jobs waits_fail
                     (emit (Log INFO "Attempting to run job: Invoice Sync")
                        started)))
             (Exception "Target page has been closed")).
  - split; [reflexivity |]. vm_compute. intros H.
    repeat (destruct H as [H | H]; [discriminate H |]). exact H.
  - discriminate.
  - reflexivity.
  - reflexivity.
Defined.

(** X14: called before the browser was started, [run_job] and
    [list_jobs] do not return a failure value as [login] does: the
    navigation error is logged, and the wait that follows raises the
    attribute error to the caller.  No call reaches the runtime. *)
Theorem trigger_and_listing_need_a_page rt (job_name : string) (w : world) :
  page (self w) = None ->
  run_job rt job_name w
  = (Raises (AttributeError "wait_for_timeout"),
     emit (Log ERROR
             "Error navigating to jobs: 'NoneType' object has no attribute 'url'")
       (emit (Log INFO "Navigating to jobs page...")
          (emit (Log INFO ("Attempting to run job: " ++ job_name)) w)))
  /\ list_jobs rt w
     = (Raises (AttributeError "wait_for_timeout"),
        emit (Log ERROR
                "Error navigating to jobs: 'NoneType' object has no attribute 'url'")
          (emit (Log INFO "Navigating to jobs page...")
             (emit (Log INFO "Listing available jobs...") w))).
Proof.
  intros Hp.
  assert (N : forall w0, page (self w0) = None ->
                navigate_to_jobs rt w0
                = (Returns tt,
                   emit (Log ERROR
                           "Error navigating to jobs: 'NoneType' object has no attribute 'url'")
                     (emit (Log INFO "Navigating to jobs page...") w0))).
  { intros [[u un pw hl tm sm pl br cx pg] tr] H0. cbn in H0. subst pg.
    reflexivity. }
  assert (W : forall w0, page (self w0) = None ->
                page_wait_for_timeout rt 2000 w0
                = (Raises (AttributeError "wait_for_timeout"), w0)).
  { intros w0 H0. unfold page_wait_for_timeout, self_page, bind.
    now rewrite H0. }
  split.
  - unfold run_job.
    rewrite (bind_returns (logger _ _) _ w _ tt eq_refl).
    rewrite (bind_returns _ _ _ _ _
               (N (emit (Log INFO ("Attempting to run job: " ++ job_name)) w)
                  Hp)).
    apply bind_raises. now apply W.
  - unfold list_jobs.
    rewrite (bind_returns (logger _ _) _ w _ tt eq_refl).
    rewrite (bind_returns _ _ _ _ _
               (N (emit (Log INFO "Listing available jobs...") w) Hp)).
    apply bind_raises. now apply W.
Qed.

Lemma trigger_and_listing_need_a_page_witness :
  fst (run_job blank "Invoice Sync" not_started)
  = Raises (Exception "'NoneType' object has no attribute 'wait_for_timeout'")
  /\ fst (list_jobs blank not_started)
     = Raises (Exception "'NoneType' object has no attribute 'wait_for_timeout'").
Proof.
  destruct (trigger_and_listing_need_a_page blank "Invoice Sync" not_started
              eq_refl) as [-> ->].
  split; reflexivity.
Defined.

Lemma ends_triggered_at rt (job_name : string) (w wb w' : world)
    (c : call) (msg : string) :
  (exists P, trace wb = (trace w ++ P)%list) ->
  triggers job_name c ->
  run_unit rt (trace wb) c = Returns tt ->
  run_unit rt (trace wb ++ [Called c]) (WaitForTimeout 2000) = Returns tt ->
  trace w' = (trace wb ++ [Called c; Called (WaitForTimeout 2000);
                           Log INFO msg])%list ->
  exists evs,
    trace w' = (trace w ++ evs)%list
    /\ ends_triggered rt job_name (trace w) evs.
Proof.
  intros (P & T) Hc Hclick Hwait Hw. rewrite T in *.
  eexists. split; [rewrite Hw, <- app_assoc; reflexivity |].
  exists P, c, msg. split; [reflexivity |]. split; [exact Hc |].
  split; [exact Hclick |]. now rewrite app_assoc.
Qed.

(** A row pass that answers [True] has clicked the control inside the
    row and waited, both calls having returned. *)
Lemma row_pass_true rt (job_name : string) (w w' : world) :
  row_pass rt job_name w = (Returns true, w') ->
  exists wb,
    (exists P, trace wb = (trace w ++ P)%list)
    /\ run_unit rt (trace wb) (LocatorClick (row_button job_name)) = Returns tt
    /\ run_unit rt (trace wb ++ [Called (LocatorClick (row_button job_name))])
         (WaitForTimeout 2000) = Returns tt
    /\ trace w'
       = (trace wb ++ [ Called (LocatorClick (row_button job_name));
                        Called (WaitForTimeout 2000);
                        Log INFO ("Successfully triggered job: " ++ job_name) ])%list.
Proof.
  unfold row_pass, page_locator, is_visible, locator_click,
    page_wait_for_timeout, self_page, call_with, logger, bind, ret.
  destruct (page (self w)) eqn:Hp; [| discriminate].
  destruct (run_bool rt (trace w) _) as [[|] | ?]; try discriminate.
  cbn [self emit trace].
  destruct (run_bool rt _ _) as [[|] | ?]; try discriminate.
  cbn [self emit trace].
  destruct (run_unit rt _ _) as [[] | ?] eqn:Eclick; try discriminate.
  cbn [self emit trace]. rewrite Hp.
  destruct (run_unit rt _ (WaitForTimeout 2000)) as [[] | ?] eqn:Ewait;
    try discriminate.
  intros E. injection E as <-.
  eexists {| self := self w; trace := _ |}. cbn [trace emit].
  split; [| split; [exact Eclick | split; [exact Ewait |]]].
  - eexists [_; _; _; _]. rewrite <- !app_assoc. reflexivity.
  - unfold row_button. rewrite <- !app_assoc. reflexivity.
Qed.

(** A turn of the page-global pass that completes has clicked the
    selector and waited, both calls having returned. *)
Lemma play_action_inv rt (s : string) (w w' : world) :
  play_action rt s w = (Returns tt, w') ->
  run_unit rt (trace w) (Click s) = Returns tt
  /\ run_unit rt (trace w ++ [Called (Click s)]) (WaitForTimeout 2000)
     = Returns tt
  /\ trace w'
     = (trace w ++ [ Called (Click s); Called (WaitForTimeout 2000);
                     Log INFO ("Successfully triggered job using selector: "
                               ++ s) ])%list.
Proof.
  unfold play_action, page_click, page_wait_for_timeout, self_page,
    call_with, logger, bind, ret.
  destruct (page (self w)) eqn:Hp; [| discriminate].
  destruct (run_unit rt (trace w) (Click s)) as [[] | ?] eqn:Eclick;
    try discriminate.
  cbn [self emit trace]. rewrite Hp.
  destruct (run_unit rt _ (WaitForTimeout 2000)) as [[] | ?] eqn:Ewait;
    try discriminate.
  intros E. injection E as <-. cbn [emit trace].
  split; [reflexivity |]. split; [first [exact Ewait | reflexivity] |].
  now rewrite <- !app_assoc.
Qed.

(** X15: [run_job] answers [True] only after a trigger that worked: its
    run ends with a click that triggers the job (on the control inside
    the job's row, or on an element found by one of the page-global
    selectors built around the job name), the wait of two seconds after
    it, and the success record, and both the click and the wait have
    returned. *)
Theorem run_job_true_means_clicked rt (job_name : string) (w w' : world) :
  run_job rt job_name w = (Returns true, w') ->
  exists evs,
    trace w' = (trace w ++ evs)%list
    /\ ends_triggered rt job_name (trace w) evs.
Proof.
  intros H. rewrite run_job_steps in H.
  apply bind_inv in H as ([] & w1 & Hb & H).
  assert (Gb : adds (fun _ => True) (before_row_pass rt job_name)).
  { unfold before_row_pass, navigate_to_jobs, click_job_link, attempt,
      page_locator, is_visible, page_click, page_wait_for_load_state,
      page_url, page_goto, page_wait_for_timeout.
    footprint ltac:(exact I). }
  assert (Gr : adds (fun _ => True) (row_pass rt job_name)).
  { unfold row_pass, page_locator, is_visible, locator_click,
      page_wait_for_timeout. footprint ltac:(exact I). }
  destruct (grows _ _ _ _ Gb Hb) as (e1 & T1).
  unfold try_except_Exception in H.
  destruct (row_pass rt job_name w1) as [[b | [msg |]] w2] eqn:Hr.
  - injection H as -> ->.
    destruct (row_pass_true rt job_name w1 w' Hr)
      as (wb & (P & Tb) & Hclick & Hwait & Hw).
    refine (ends_triggered_at rt job_name w wb w' _ _ _ _ Hclick Hwait Hw).
    + exists (e1 ++ P)%list. now rewrite Tb, T1, app_assoc.
    + now left.
  - destruct (grows _ _ _ _ Gr Hr) as (e2 & T2).
    apply bind_inv in H as ([] & w3 & Hlog & H). injection Hlog as <-.
    unfold fallback_pass in H.
    apply bind_inv in H as (clicked & w4 & Hf & H).
    destruct clicked as [s |]; cbn [found] in H; [| discriminate H].
    injection H as <-.
    destruct (for_first_some_inv _ _ _ _ _ Hf)
      as (pre & post & wa & Hs & Hpre & Hx).
    assert (Gp : adds (fun _ => True) (for_first (click_play rt) pre)).
    { unfold click_play, attempt, page_locator, is_visible, page_click,
        page_wait_for_timeout. footprint ltac:(exact I). }
    destruct (grows _ _ _ _ Gp Hpre) as (e3 & T3).
    rewrite click_play_is_attempt in Hx.
    apply attempt_true_inv in Hx as (_ & _ & Hact).
    apply play_action_inv in Hact as (Hclick & Hwait & Hw).
    refine (ends_triggered_at rt job_name w _ w4 _ _ _ _ Hclick Hwait Hw).
    + eexists. cbn [emit trace]. rewrite T3. cbn [emit trace].
      rewrite T2, T1, <- !app_assoc. reflexivity.
    + right. exists s. split; [| reflexivity].
      rewrite Hs. apply in_or_app. right. now left.
  - discriminate.
Qed.

Lemma run_job_true_means_clicked_witness :
  exists w' evs,
    run_job row_probe_raises "Invoice Sync" started = (Returns true, w')
    /\ trace w' = (trace started ++ evs)%list
    /\ ends_triggered row_probe_raises "Invoice Sync" (trace started) evs.
Proof.
  assert (E : run_job row_probe_raises "Invoice Sync" started
              = (Returns true,
                 snd (run_job row_probe_raises "Invoice Sync" started)))
    by (vm_compute; reflexivity).
  destruct (run_job_true_means_clicked row_probe_raises "Invoice Sync"
              started _ E) as (evs & T & X).
  now exists (snd (run_job row_probe_raises "Invoice Sync" started)), evs.
Defined.

(** X16: when the row of the job and the control inside it are reported
    visible and the click and the wait complete, [run_job] returns
    [True]: it has clicked the control inside the row, once, and has
    probed no page-global selector. *)
Theorem run_job_row_path rt (job_name : string) (w w1 : world) :
  before_row_pass rt job_name w = (Returns tt, w1) ->
  let row := First (Locator (job_row_selector job_name)) in
  let w2 := emit (Log INFO ("Found job row for: " ++ job_name))
              (emit (Called (IsVisible row 5000)) w1) in
  let w3 := emit (Log INFO ("Found play button for job: " ++ job_name))
              (emit (Called (IsVisible (row_button job_name) 2000)) w2) in
  let w4 := emit (Called (LocatorClick (row_button job_name))) w3 in
  run_bool rt (trace w1) (IsVisible row 5000) = Returns true ->
  run_bool rt (trace w2) (IsVisible (row_button job_name) 2000) = Returns true ->
  run_unit rt (trace w3) (LocatorClick (row_button job_name)) = Returns tt ->
  run_unit rt (trace w4) (WaitForTimeout 2000) = Returns tt ->
  run_job rt job_name w
  = (Returns true,
     emit (Log INFO ("Successfully triggered job: " ++ job_name))
       (emit (Called (WaitForTimeout 2000)) w4)).
Proof.
  intros Hb row w2 w3 w4 Hrow Hbtn Hclick Hwait.
  apply run_job_row_returns with (w1 := w1); [exact Hb |].
  pose proof (before_row_pass_page rt job_name w w1 Hb) as Hp.
  assert (S1 : page_locator (job_row_selector job_name) w1
               = (Returns (Locator (job_row_selector job_name)), w1)).
  { unfold page_locator, self_page, bind, ret.
    now destruct (page (self w1)). }
  assert (S2 : is_visible rt row 5000 w1
               = (Returns true, emit (Called (IsVisible row 5000)) w1)).
  { unfold is_visible, call_with. now rewrite Hrow. }
  assert (S3 : is_visible rt (row_button job_name) 2000 w2
               = (Returns true,
                  emit (Called (IsVisible (row_button job_name) 2000)) w2)).
  { unfold is_visible, call_with. now rewrite Hbtn. }
  assert (S4 : locator_click rt (row_button job_name) w3 = (Returns tt, w4)).
  { unfold locator_click, call_with. now rewrite Hclick. }
  assert (S5 : page_wait_for_timeout rt 2000 w4
               = (Returns tt, emit (Called (WaitForTimeout 2000)) w4)).
  { unfold page_wait_for_timeout, self_page, call_with, bind.
    cbn [self emit w4 w3 w2].
    destruct (page (self w1)); [| contradiction]. now rewrite Hwait. }
  unfold row_pass. rewrite (bind_returns _ _ _ _ _ S1). cbv zeta.
  fold row. rewrite (bind_returns _ _ _ _ _ S2).
  rewrite (bind_returns (logger _ _) _ _ w2 tt eq_refl).
  fold (row_button job_name).
  rewrite (bind_returns _ _ _ _ _ S3).
  rewrite (bind_returns (logger _ _) _ _ w3 tt eq_refl).
  rewrite (bind_returns _ _ _ _ _ S4), (bind_returns _ _ _ _ _ S5).
  reflexivity.
Qed.

Lemma run_job_row_path_witness :
  fst (run_job job_shown "Invoice Sync" started) = Returns true
  /\ ~ Exists (fallback_probe "Invoice Sync")
         (trace (snd (run_job job_shown "Invoice Sync" started))).
Proof.
  rewrite (run_job_row_path job_shown "Invoice Sync" started
             (snd (before_row_pass job_shown "Invoice Sync" started)));
    try reflexivity.
  split; [reflexivity |].
  intros X. apply Exists_exists in X as (ev & Hin & s & Hs & ->).
  vm_compute in Hin.
  repeat (destruct Hin as [Hin | Hin];
          [ first [ discriminate Hin
                  | injection Hin as <-; vm_compute in Hs;
                    repeat (destruct Hs as [Hs | Hs]; [discriminate Hs |]);
                    exact Hs ] |]).
  exact Hin.
Defined.

(** ** run_all_jobs *)

Lemma existsb_eqb_In (k : string) (ks : list string) :
  existsb (String.eqb k) ks = true <-> In k ks.
Proof.
  rewrite existsb_exists. split.
  - intros (x & Hx & E). apply String.eqb_eq in E. now subst.
  - intros H. exists k. split; [exact H | apply String.eqb_refl].
Qed.

Lemma dict_set_keys (k : string) (v : bool) (d : list (string * bool)) :
  map fst (dict_set k v d) = add_key (map fst d) k.
Proof.
  unfold add_key. induction d as [| [k' v'] d IH]; [reflexivity |].
  cbn [dict_set map fst existsb]. destruct (String.eqb k k') eqn:E.
  - apply String.eqb_eq in E. now subst.
  - cbn [orb map fst]. rewrite IH.
    now destruct (existsb (String.eqb k) (map fst d)).
Qed.

Lemma add_key_facts (ks : list string) (k : string) :
  (NoDup ks -> NoDup (add_key ks k))
  /\ List.length (add_key ks k) <= S (List.length ks)
  /\ (forall x, In x (add_key ks k) <-> In x ks \/ x = k).
Proof.
  unfold add_key. destruct (existsb (String.eqb k) ks) eqn:E.
  - apply existsb_eqb_In in E. repeat split; auto.
    + intros [H | ->]; auto.
  - assert (N : ~ In k ks).
    { intros H. apply existsb_eqb_In in H. congruence. }
    split; [| split].
    + intros Hnd. apply NoDup_app; [exact Hnd | repeat constructor; auto |].
      intros x Hx [<- | []]. now apply N.
    + rewrite length_app. simpl. lia.
    + intros x. rewrite in_app_iff. simpl. intuition.
Qed.

Lemma keys_fold_facts (names ks : list string) :
  (NoDup ks -> NoDup (fold_left add_key names ks))
  /\ List.length (fold_left add_key names ks)
     <= List.length ks + List.length names
  /\ (forall x, In x (fold_left add_key names ks) <-> In x ks \/ In x names).
Proof.
  revert ks. induction names as [| n names IH]; intros ks; cbn [fold_left].
  - repeat split; auto; try lia. intros [H | []]; exact H.
  - destruct (add_key_facts ks n) as (N1 & L1 & I1).
    destruct (IH (add_key ks n)) as (N2 & L2 & I2).
    split; [auto | split].
    + simpl. lia.
    + intros x. rewrite I2, I1. simpl. intuition.
Qed.

Lemma list_jobs_length rt (w w' : world) (jobs : list job) :
  list_jobs rt w = (Returns jobs, w') -> List.length jobs <= max_jobs.
Proof.
  intros H. apply list_jobs_inv in H as (w0 & w1 & _ & Hs & _).
  destruct (scan_job_items_spec rt job_item_selectors w0)
    as (jobs2 & w2 & E & C).
  rewrite Hs in E. injection E as <- <-.
  destruct C as [-> | (pre & sel & post & w3 & _ & _ & Ht & _)].
  - simpl. lia.
  - destruct (try_job_items_spec rt sel w3) as (jobs3 & w4 & E3 & L & _).
    rewrite Ht in E3. now injection E3 as <- _ _.
Qed.

Lemma dict_get_set (k k' : string) (v : bool) (d : list (string * bool)) :
  dict_get k (dict_set k' v d)
  = if String.eqb k k' then Some v else dict_get k d.
Proof.
  induction d as [| [k2 v2] d IH]; cbn [dict_set dict_get].
  - reflexivity.
  - destruct (String.eqb k' k2) eqn:E2; cbn [dict_get].
    + apply String.eqb_eq in E2. subst k2.
      now destruct (String.eqb k k').
    + rewrite IH. destruct (String.eqb k k2) eqn:E1; [| reflexivity].
      apply String.eqb_eq in E1. subst k2.
      now rewrite String.eqb_sym, E2.
Qed.

Lemma dict_get_fold (n : string) (outcomes acc : list (string * bool)) :
  dict_get n (fold_left (fun d p => dict_set (fst p) (snd p) d) outcomes acc)
  = fold_left (fun r p => if String.eqb n (fst p) then Some (snd p) else r)
      outcomes (dict_get n acc).
Proof.
  revert acc. induction outcomes as [| [k v] outcomes IH]; intros acc;
    [reflexivity |].
  cbn [fold_left fst snd]. now rewrite IH, dict_get_set.
Qed.

Lemma dict_keys_fold (outcomes acc : list (string * bool)) :
  map fst (fold_left (fun d p => dict_set (fst p) (snd p) d) outcomes acc)
  = fold_left add_key (map fst outcomes) (map fst acc).
Proof.
  revert acc. induction outcomes as [| [k v] outcomes IH]; intros acc;
    [reflexivity |].
  cbn [fold_left map fst snd]. now rewrite IH, dict_set_keys.
Qed.

(** The loop of [run_all_jobs] runs the trigger once for every record of
    the listing, in order, and assigns each outcome under its name. *)
Lemma run_loop_is_run_each rt (jobs : list job) (acc results : list (string * bool))
    (w w' : world) :
  for_fold
    (fun results j =>
       let job_name := name j in
       ok <- run_job rt job_name ;;
       page_wait_for_timeout rt 1000 ;;
       ret (dict_set job_name ok results))
    jobs acc w = (Returns results, w') ->
  exists outcomes,
    run_each rt (map name jobs) w = (Returns outcomes, w')
    /\ map fst outcomes = map name jobs
    /\ results = fold_left (fun d p => dict_set (fst p) (snd p) d) outcomes acc.
Proof.
  revert acc w. induction jobs as [| j jobs IH]; intros acc w E.
  - injection E as <- <-. now exists [].
  - cbn [for_fold] in E. apply bind_inv in E as (acc1 & w1 & E1 & E).
    cbv zeta in E1.
    apply bind_inv in E1 as (ok & wa & Hrun & E1).
    apply bind_inv in E1 as ([] & wb & Hwait & E1).
    injection E1 as <- <-.
    destruct (IH _ _ E) as (outcomes & Hr & Hk & ->).
    exists ((name j, ok) :: outcomes). split; [| split].
    + cbn [map run_each]. unfold run_and_pause.
      rewrite bind_assoc, (bind_returns _ _ _ _ _ Hrun).
      rewrite bind_assoc, (bind_returns _ _ _ _ _ Hwait).
      rewrite bind_ret_l', (bind_returns _ _ _ _ _ Hr). reflexivity.
    + cbn [map fst]. now rewrite Hk.
    + reflexivity.
Qed.

(** X17: [run_all_jobs] lists the jobs once and then runs the trigger
    once for every record of the listing, in order, each run followed by
    the pause of one second.  The dict it returns has one entry per
    distinct name, in the order in which the names first appear in the
    listing, so at most 50 entries, and the value under a name is the
    outcome of the last run of that name: a name listed twice is run
    twice and keeps one entry, that of its second run. *)
Theorem run_all_jobs_entries rt (w w' : world) (results : list (string * bool)) :
  run_all_jobs rt w = (Returns results, w') ->
  exists jobs w1 outcomes,
    list_jobs rt (emit (Log INFO "Running all jobs...") w) = (Returns jobs, w1)
    /\ run_each rt (map name jobs) w1 = (Returns outcomes, w')
    /\ map fst outcomes = map name jobs
    /\ (forall n, dict_get n results = last_outcome n outcomes)
    /\ map fst results = keys_in_order (map name jobs)
    /\ NoDup (map fst results)
    /\ (forall n, In n (map fst results) <-> In n (map name jobs))
    /\ List.length results <= max_jobs.
Proof.
  unfold run_all_jobs. intros H.
  apply bind_inv in H as ([] & w0 & Hlog & H). injection Hlog as <-.
  apply bind_inv in H as (jobs & w1 & Hl & H).
  destruct (run_loop_is_run_each rt jobs [] results w1 w' H)
    as (outcomes & Hr & Hk & ->).
  exists jobs, w1, outcomes. split; [exact Hl |]. split; [exact Hr |].
  split; [exact Hk |].
  assert (K : map fst (fold_left (fun d p => dict_set (fst p) (snd p) d)
                         outcomes [])
              = keys_in_order (map name jobs)).
  { rewrite dict_keys_fold, Hk. reflexivity. }
  destruct (keys_fold_facts (map name jobs) []) as (N & L & I).
  split; [| split; [exact K | split; [| split]]].
  - intros n. unfold last_outcome. now rewrite dict_get_fold.
  - rewrite K. apply N. constructor.
  - intros n. rewrite K. unfold keys_in_order. rewrite I. simpl. tauto.
  - pose proof (list_jobs_length rt _ _ _ Hl) as B.
    rewrite <- (length_map fst), K. unfold keys_in_order.
    simpl in L. rewrite length_map in L. lia.
Qed.

Lemma run_all_jobs_entries_witness :
  exists results w',
    run_all_jobs twin_rows started = (Returns results, w')
    /\ results = [("Invoice Sync", false); ("Report Gen", false)]
    /\ exists jobs w1 outcomes,
         list_jobs twin_rows (emit (Log INFO "Running all jobs...") started)
         = (Returns jobs, w1)
         /\ run_each twin_rows (map name jobs) w1 = (Returns outcomes, w')
         /\ map fst outcomes = map name jobs
         /\ (forall n, dict_get n results = last_outcome n outcomes)
         /\ map fst results = keys_in_order (map name jobs)
         /\ NoDup (map fst results)
         /\ (forall n, In n (map fst results) <-> In n (map name jobs))
         /\ List.length results <= max_jobs.
Proof.
  assert (E : exists results w',
             run_all_jobs twin_rows started = (Returns results, w')
             /\ results = [("Invoice Sync", false); ("Report Gen", false)])
    by (vm_compute; eexists; eexists; split; reflexivity).
  destruct E as (results & w' & E & R). exists results, w'.
  split; [exact E |]. split; [exact R |].
  exact (run_all_jobs_entries twin_rows started w' results E).
Defined.

(** On [twin_rows] the listing has three records, two of them with the
    same name, and the trigger is run three times. *)
Example run_all_jobs_twin_rows :
  map name (match fst (list_jobs twin_rows started) with
            | Returns jobs => jobs
            | Raises _ => []
            end)
  = ["Invoice Sync"; "Report Gen"; "Invoice Sync"]
  /\ List.length
       (filter (fun ev =>
                  match ev with
                  | Log INFO msg => String.prefix "Attempting to run job: " msg
                  | _ => false
                  end)
          (trace (snd (run_all_jobs twin_rows started)))) = 3.
Proof. split; vm_compute; reflexivity. Qed.

(** ** start_browser and close *)

(** X18: [start_browser] acquires its handles in order and keeps them in
    order whatever fails: afterwards a later handle is never set without
    the earlier ones.  It changes no setting, and when it returns all
    four handles are set. *)
Theorem start_browser_acquires_in_order rt (w : world) :
  acquired_in_order (self w) ->
  let r := start_browser rt w in
  acquired_in_order (self (snd r))
  /\ same_settings (self (snd r)) (self w)
  /\ (fst r = Returns tt ->
      playwright (self (snd r)) <> None /\ browser (self (snd r)) <> None
      /\ context (self (snd r)) <> None /\ page (self (snd r)) <> None).
Proof.
  intros (H1 & H2 & H3).
  unfold start_browser, page_set_default_timeout, self_page, call_with,
    get_self, update_self, logger, bind, ret.
  cbn [self emit trace].
  repeat match goal with
    | |- context [run_unit rt ?tr ?c] =>
        destruct (run_unit rt tr c) as [[] | ?];
        cbn [self emit trace page set_page set_context set_browser
               set_playwright]
    end;
    cbn; unfold acquired_in_order, same_settings; cbn;
    repeat split; auto; try discriminate; intros; try discriminate;
    auto.
Qed.

Lemma start_browser_acquires_in_order_witness :
  let r := start_browser context_fails not_started in
  fst r = Raises (Exception "Browser closed")
  /\ playwright (self (snd r)) = Some Handle
  /\ browser (self (snd r)) = Some Handle
  /\ context (self (snd r)) = None
  /\ page (self (snd r)) = None
  /\ acquired_in_order (self (snd r)).
Proof.
  repeat (split; [reflexivity |]).
  apply (start_browser_acquires_in_order context_fails not_started).
  repeat split; intros H; now elim H.
Defined.

Lemma after_nil (w : world) : after [] w = w.
Proof. unfold after. rewrite app_nil_r. now destruct w. Qed.

Lemma after_cons (ev : event) (evs : list event) (w : world) :
  after (ev :: evs) w = after evs (emit ev w).
Proof. unfold after, emit. cbn [self trace]. now rewrite <- app_assoc. Qed.

Lemma emit_after (ev : event) (evs : list event) (w : world) :
  emit ev (after evs w) = after (evs ++ [ev]) w.
Proof. unfold after, emit. cbn [self trace]. now rewrite app_assoc. Qed.

(** [close] makes the release calls of its object one after the other,
    in their order. *)
Lemma close_is_release_all rt (w : world) :
  close rt w
  = (logger INFO "Closing browser..." ;;
     try_except_Exception
       (release_all rt (releases (self w)) ;;
        logger INFO "Browser closed")
       (fun e => logger ERROR ("Error closing browser: " ++ e))) w.
Proof.
  unfold close, releases, release_all, try_except_Exception, get_self, logger,
    call_with, bind, ret.
  cbn [self emit trace].
  destruct (page (self w)), (context (self w)), (browser (self w)),
    (playwright (self w));
    cbn [is_set app for_each]; unfold bind, ret, call_with;
    repeat match goal with
      | |- context [run_unit rt ?tr ?c] =>
          destruct (run_unit rt tr c) as [[] | [msg |]];
          cbn [self emit trace]
      end;
    reflexivity.
Qed.

Lemma release_all_returns rt (cs : list call) (w : world) :
  all_return rt (trace w) cs ->
  release_all rt cs w = (Returns tt, after (map Called cs) w).
Proof.
  revert w. induction cs as [| c cs IH]; intros w H.
  - cbn [map]. now rewrite after_nil.
  - destruct H as [H1 H2]. unfold release_all. cbn [for_each map].
    rewrite after_cons.
    rewrite (bind_returns _ _ w (emit (Called c) w) tt).
    + now apply IH.
    + unfold call_with. now rewrite H1.
Qed.

Lemma release_all_raises rt (pre post : list call) (c : call) (e : exn)
    (w : world) :
  all_return rt (trace w) pre ->
  run_unit rt (trace w ++ map Called pre) c = Raises e ->
  release_all rt (pre ++ c :: post) w
  = (Raises e, after (map Called pre ++ [Called c]) w).
Proof.
  revert w. induction pre as [| p pre IH]; intros w H R.
  - cbn [map app] in *. rewrite app_nil_r in R.
    unfold release_all. cbn [for_each].
    apply bind_raises. unfold call_with. rewrite R.
    now rewrite after_cons, after_nil.
  - destruct H as [H1 H2]. unfold release_all. cbn [for_each map app].
    rewrite after_cons.
    rewrite (bind_returns _ _ w (emit (Called p) w) tt).
    + apply IH; [exact H2 |]. cbn [emit trace]. now rewrite <- app_assoc.
    + unfold call_with. now rewrite H1.
Qed.

(** X19: [close] releases in the order page, context, browser,
    playwright, each handle that is set, and stops at the first release
    that raises an error: the calls before it are made in that order and
    return, the error is logged, no handle after it is released, and
    [close] returns.  When every release returns, all are made, in that
    order, and the end is logged. *)
Theorem close_stops_at_first_error rt (w : world) :
  (forall pre c post msg,
     releases (self w) = (pre ++ c :: post)%list ->
     all_return rt (trace w ++ [Log INFO "Closing browser..."]) pre ->
     run_unit rt (trace w ++ Log INFO "Closing browser..." :: map Called pre) c
     = Raises (Exception msg) ->
     close rt w
     = (Returns tt,
        after (Log INFO "Closing browser..."
               :: map Called pre
               ++ [Called c; Log ERROR ("Error closing browser: " ++ msg)])
          w))
  /\ (all_return rt (trace w ++ [Log INFO "Closing browser..."])
        (releases (self w)) ->
      close rt w
      = (Returns tt,
         after (Log INFO "Closing browser..."
                :: map Called (releases (self w))
                ++ [Log INFO "Browser closed"])
           w)).
Proof.
  split.
  - intros pre c post msg Hs Hpre Hc.
    rewrite close_is_release_all, Hs.
    rewrite (bind_returns (logger _ _) _ w _ tt eq_refl).
    unfold try_except_Exception.
    rewrite (bind_raises _ _ _ _ _
               (release_all_raises rt pre post c (Exception msg)
                  (emit (Log INFO "Closing browser...") w) Hpre
                  ltac:(cbn [emit trace]; now rewrite <- app_assoc))).
    unfold logger. rewrite emit_after, after_cons, <- app_assoc.
    reflexivity.
  - intros Hall. rewrite close_is_release_all.
    rewrite (bind_returns (logger _ _) _ w _ tt eq_refl).
    unfold try_except_Exception.
    rewrite (bind_returns _ _ _ _ _
               (release_all_returns rt _
                  (emit (Log INFO "Closing browser...") w) Hall)).
    unfold logger. now rewrite emit_after, after_cons.
Qed.

Lemma close_stops_at_first_error_witness :
  close context_close_fails started
  = (Returns tt,
     after [ Log INFO "Closing browser...";
             Called PageClose;
             Called ContextClose;
             Log ERROR "Error closing browser: Target closed" ]
       started).
Proof.
  apply (proj1 (close_stops_at_first_error context_close_fails started)
           [PageClose] ContextClose [BrowserClose; PlaywrightStop]
           "Target closed").
  - reflexivity.
  - split; [reflexivity | exact I].
  - reflexivity.
Defined.

(** ** main *)

Lemma close_returns rt (w : world) :
  (forall tr c, is_release (Called c) = true ->
     run_unit rt tr c <> Raises KeyboardInterrupt) ->
  exists w', close rt w = (Returns tt, w').
Proof.
  intros Hint.
  unfold close, try_except_Exception, get_self, logger, call_with, bind, ret.
  cbn [self emit trace].
  destruct (page (self w)), (context (self w)), (browser (self w)),
    (playwright (self w));
    cbn [is_set self emit trace];
    repeat match goal with
      | |- context [run_unit rt ?tr ?c] =>
          let E := fresh "E" in
          destruct (run_unit rt tr c) as [[] | [msg |]] eqn:E;
          [ | | exfalso; refine (Hint _ _ _ E); reflexivity];
          cbn [self emit trace]
      end;
    now eexists.
Qed.

(** X20: [main] ends normally whatever goes wrong in its steps, as long
    as the error screenshot can be saved and no release call is
    interrupted: failed logins, failed listings, failed triggers, errors
    of the page and a keyboard interrupt during the steps are reported on
    the way and never reach the caller. *)
Theorem main_ends_normally rt (args : Args.t) (w : world) :
  (forall tr, run_unit rt tr (Screenshot "error_screenshot.png") = Returns tt) ->
  (forall tr c, is_release (Called c) = true ->
     run_unit rt tr c <> Raises KeyboardInterrupt) ->
  fst (main rt args w) = Returns tt.
Proof.
  intros Hshot Hint. unfold main.
  assert (E0 : exists w0,
             (if Args.headless args then update_self (set_headless true)
              else ret tt) w = (Returns tt, w0))
    by (destruct (Args.headless args); now eexists).
  destruct E0 as (w0 & E0). rewrite (bind_returns _ _ _ _ _ E0).
  unfold try_finally.
  assert (T : exists w1,
             try_except (main_steps rt args)
               (fun e =>
                  match e with
                  | KeyboardInterrupt => on_interrupt
                  | Exception msg => on_error rt msg
                  end) w0 = (Returns tt, w1)).
  { unfold try_except.
    destruct (main_steps rt args w0) as [[[] | [msg |]] w1];
      [now eexists | | now eexists].
    unfold on_error, get_self, logger, print, call_with, bind, ret.
    cbn [self emit trace].
    destruct (page (self w1)); cbn [is_set]; [| now eexists].
    rewrite Hshot. now eexists. }
  destruct T as (w1 & ->).
  destruct (close_returns rt w1 Hint) as (w2 & ->). reflexivity.
Qed.

Lemma main_ends_normally_witness :
  fst (main interrupted_wait run_one_job not_started) = Returns tt.
Proof.
  apply (main_ends_normally interrupted_wait run_one_job not_started).
  - reflexivity.
  - intros tr c. destruct c; discriminate.
Defined.

(** The same for a run in which every call on the page fails. *)
Example main_everything_fails :
  fst (main everything_fails run_one_job not_started) = Returns tt.
Proof. reflexivity. Qed.

(** *** Only [start_browser] launches *)

Ltac no_launch_side := first [reflexivity | exact I].

Lemma no_launch_is_logged_in rt :
  adds (fun ev => is_launch ev = false) (_is_logged_in rt).
Proof.
  unfold _is_logged_in, indicator_visible, page_locator, is_visible.
  footprint no_launch_side.
Qed.

Lemma no_launch_navigate_to_jobs rt :
  adds (fun ev => is_launch ev = false) (navigate_to_jobs rt).
Proof.
  unfold navigate_to_jobs, click_job_link, attempt, page_locator, is_visible,
    page_click, page_wait_for_load_state, page_url, page_goto.
  footprint no_launch_side.
Qed.

Lemma no_launch_login rt : adds (fun ev => is_launch ev = false) (login rt).
Proof.
  unfold login, fill_username, fill_password, click_login, attempt,
    page_locator, is_visible, page_fill, page_click, page_keyboard_press,
    page_goto, page_wait_for_load_state.
  repeat first [apply no_launch_is_logged_in | footprint_step no_launch_side].
Qed.

Lemma no_launch_scan_job_items rt (selectors : list string) (jobs : list job) :
  adds (fun ev => is_launch ev = false) (scan_job_items rt selectors jobs).
Proof.
  revert jobs. induction selectors as [| sel rest IH]; intros jobs;
    cbn [scan_job_items].
  - apply adds_ret.
  - apply adds_bind.
    + unfold try_job_items, extract_jobs, extract_job, page_locator,
        locator_all, locator_count, inner_text.
      footprint no_launch_side.
    + intros [jobs' stop]. cbn [fst snd]. destruct stop;
        [apply adds_ret | apply IH].
Qed.

Lemma no_launch_list_jobs rt : adds (fun ev => is_launch ev = false) (list_jobs rt).
Proof.
  unfold list_jobs, page_wait_for_timeout, page_url, page_screenshot.
  repeat first [ apply no_launch_navigate_to_jobs
               | apply no_launch_scan_job_items
               | footprint_step no_launch_side ].
Qed.

Lemma no_launch_run_job rt (job_name : string) :
  adds (fun ev => is_launch ev = false) (run_job rt job_name).
Proof.
  unfold run_job, row_pass, fallback_pass, click_play, attempt, page_locator,
    is_visible, locator_click, page_click, page_wait_for_timeout.
  repeat first [ apply no_launch_navigate_to_jobs
               | footprint_step no_launch_side ].
Qed.

Lemma no_launch_run_all_jobs rt :
  adds (fun ev => is_launch ev = false) (run_all_jobs rt).
Proof.
  unfold run_all_jobs, page_wait_for_timeout.
  repeat first [ apply no_launch_list_jobs | apply no_launch_run_job
               | footprint_step no_launch_side ].
Qed.

Lemma bind_tail {A B} (P : event -> Prop) (m : M A) (k : A -> M B) (w : world) :
  (forall a, adds P (k a)) ->
  exists evs,
    trace (snd (bind m k w)) = (trace (snd (m w)) ++ evs)%list /\ Forall P evs.
Proof.
  intros Hk. unfold bind. destruct (m w) as [[a | e] w1]; cbn [snd].
  - apply Hk.
  - exists []. now rewrite app_nil_r.
Qed.

Lemma try_except_tail {A} (P : event -> Prop) (m : M A) (h : exn -> M A)
    (w : world) :
  (forall e, adds P (h e)) ->
  exists evs,
    trace (snd (try_except m h w)) = (trace (snd (m w)) ++ evs)%list
    /\ Forall P evs.
Proof.
  intros Hh. unfold try_except. destruct (m w) as [[a | e] w1]; cbn [snd].
  - exists []. now rewrite app_nil_r.
  - apply Hh.
Qed.

Lemma try_finally_tail {A} (P : event -> Prop) (m : M A) (final : M unit)
    (w : world) :
  adds P final ->
  exists evs,
    trace (snd (try_finally m final w)) = (trace (snd (m w)) ++ evs)%list
    /\ Forall P evs.
Proof.
  intros Hf. unfold try_finally. destruct (m w) as [r w1]; cbn [snd].
  destruct (Hf w1) as (evs & E & F). exists evs. split; [| exact F].
  now destruct (final w1) as [[[] | e] w2].
Qed.

Lemma start_browser_launch rt (w : world) :
  exists evs,
    trace (snd (start_browser rt w)) = (trace w ++ evs)%list
    /\ launches evs <= 1
    /\ Forall (launches_with (headless (self w))
                 (config_browser_slow_mo (self w))) evs.
Proof.
  unfold start_browser, page_set_default_timeout, self_page, call_with,
    get_self, update_self, logger, bind, ret.
  cbn [self emit trace].
  repeat match goal with
    | |- context [run_unit rt ?tr ?c] =>
        destruct (run_unit rt tr c) as [[] | ?];
        cbn [self emit trace page set_page set_context set_browser
               set_playwright]
    end;
    cbn [snd self emit trace]; rewrite <- ?app_assoc; cbn [app];
    (eexists; split; [reflexivity |]; split;
     [cbn; lia | repeat constructor]).
Qed.

Lemma launches_app (xs ys : list event) :
  launches (xs ++ ys) = launches xs + launches ys.
Proof. unfold launches. now rewrite filter_app, length_app. Qed.

Lemma launches_none (evs : list event) :
  Forall (fun ev => is_launch ev = false) evs -> launches evs = 0.
Proof.
  unfold launches. induction 1 as [| ev evs H _ IH]; [reflexivity |].
  simpl. now rewrite H.
Qed.

Lemma no_launch_launches_with h s (evs : list event) :
  Forall (fun ev => is_launch ev = false) evs ->
  Forall (launches_with h s) evs.
Proof.
  apply Forall_impl. intros [[] | | |]; simpl; auto; discriminate.
Qed.

(** X21: a run of [main] launches at most one browser, and launches it
    headless exactly when the command line asks for it or the object is
    set so; the slow-motion delay is the configured one. *)
Theorem main_launches_once rt (args : Args.t) (w : world) :
  exists evs,
    trace (snd (main rt args w)) = (trace w ++ evs)%list
    /\ launches evs <= 1
    /\ Forall (launches_with (Args.headless args || headless (self w))
                 (config_browser_slow_mo (self w))) evs.
Proof.
  unfold main.
  set (w0 := snd ((if Args.headless args then update_self (set_headless true)
                   else ret tt) w)).
  assert (E0 : (if Args.headless args then update_self (set_headless true)
                else ret tt) w = (Returns tt, w0))
    by (unfold w0; now destruct (Args.headless args)).
  assert (T0 : trace w0 = trace w)
    by (unfold w0; now destruct (Args.headless args)).
  assert (H0 : headless (self w0) = Args.headless args || headless (self w))
    by (unfold w0; now destruct (Args.headless args)).
  assert (S0 : config_browser_slow_mo (self w0) = config_browser_slow_mo (self w))
    by (unfold w0; now destruct (Args.headless args)).
  rewrite (bind_returns _ _ _ _ _ E0).
  destruct (try_finally_tail (fun ev => is_launch ev = false)
              (try_except (main_steps rt args)
                 (fun e =>
                    match e with
                    | KeyboardInterrupt => on_interrupt
                    | Exception msg => on_error rt msg
                    end)) (close rt) w0) as (e4 & T4 & F4).
  { unfold close. footprint no_launch_side. }
  destruct (try_except_tail (fun ev => is_launch ev = false)
              (main_steps rt args)
              (fun e =>
                 match e with
                 | KeyboardInterrupt => on_interrupt
                 | Exception msg => on_error rt msg
                 end) w0) as (e3 & T3 & F3).
  { intros [msg |]; unfold on_interrupt, on_error; footprint no_launch_side. }
  unfold main_steps in T3 at 2.
  match type of T3 with
  | context [bind (start_browser rt) ?k w0] =>
      destruct (bind_tail (fun ev => is_launch ev = false)
                  (start_browser rt) k w0) as (e2 & T2 & F2)
  end.
  { intros _. unfold print_results, input, page_wait_for_timeout.
    repeat first [ apply no_launch_login | apply no_launch_list_jobs
                 | apply no_launch_run_all_jobs | apply no_launch_run_job
                 | footprint_step no_launch_side ]. }
  destruct (start_browser_launch rt w0) as (e1 & T1 & L1 & F1).
  exists (e1 ++ e2 ++ e3 ++ e4)%list. split; [| split].
  - rewrite T4, T3. unfold main_steps. rewrite T2, T1, T0, <- !app_assoc.
    reflexivity.
  - rewrite !launches_app, (launches_none e2 F2), (launches_none e3 F3),
      (launches_none e4 F4). lia.
  - rewrite H0, S0 in F1.
    repeat (apply Forall_app; split); auto using no_launch_launches_with.
Qed.

Example main_headless_flag :
  In (Called (Launch true 0))
     (trace (snd (main blank run_headless
                    {| self := fresh_headed; trace := [] |}))).
Proof. vm_compute. tauto. Qed.

(** ** __init__ *)

(** X22: a configuration file that cannot be read or parsed does not stop
    the constructor: apart from one warning in the log, [__init__] does
    exactly what it does when there is no file. *)
Theorem init_survives_unreadable_config
    (h : Host) (config_path msg : string) (w : world) :
  path_exists h config_path = Raises (Exception msg)
  \/ (path_exists h config_path = Returns true
      /\ load_json h config_path = Raises (Exception msg)) ->
  __init__ h config_path w
  = __init__ (without_file h) config_path
      (emit (Log WARNING
               ("Could not load config file: " ++ msg ++ ". Using defaults."))
         w).
Proof.
  intros H.
  assert (L : _load_config h config_path w
              = (Returns (PyDict []),
                 emit (Log WARNING
                         ("Could not load config file: " ++ msg
                          ++ ". Using defaults.")) w)).
  { unfold _load_config, try_except_Exception, lift, bind.
    destruct H as [-> | [-> ->]]; reflexivity. }
  unfold __init__.
  rewrite (bind_returns _ _ _ _ _ L).
  rewrite (bind_returns (_load_config (without_file h) config_path) _ _ _ _
             eq_refl).
  reflexivity.
Qed.

Lemma init_survives_unreadable_config_witness :
  exists st w',
    __init__ garbled_host "config.json" {| self := fresh; trace := [] |}
    = (Returns st, w')
    /\ Init.url st = PyStr "https://platform.uipath.com"
    /\ Init.timeout st = 30000%Z
    /\ trace w'
       = [ Log WARNING
             "Could not load config file: Expecting value: line 1 column 1 (char 0). Using defaults." ].
Proof.
  rewrite (init_survives_unreadable_config garbled_host "config.json"
             "Expecting value: line 1 column 1 (char 0)"
             {| self := fresh; trace := [] |}).
  - eexists. eexists. split; [reflexivity |]. repeat split.
  - right. split; reflexivity.
Defined.

Lemma get_inv (v : pyval) (k : string) (default x : pyval) (w w' : world) :
  get v k default w = (Returns x, w') ->
  w' = w
  /\ exists items,
       v = PyDict items
       /\ x = match lookup k items with Some y => y | None => default end.
Proof.
  destruct v; try discriminate. cbn [get]. intros E. injection E as <- <-.
  split; [reflexivity |]. now eexists.
Qed.

(** X23: when the constructor returns, each setting comes from the
    environment if the variable is set, else from the configuration file
    if it has the entry, else from the built-in default; only for the
    headless flag the file wins over the environment, which counts as
    true when [HEADLESS] is "true" in any mix of cases. *)
Theorem init_settings_precedence
    (h : Host) (config_path : string) (w w' : world) (st : Init.t) :
  __init__ h config_path w = (Returns st, w') ->
  let config := Init.config st in
  Init.url st
  = match getenv h "UIPATH_URL" with
    | Some s => PyStr s
    | None =>
        match setting config "uipath" "url" with
        | Some v => v
        | None => PyStr "https://platform.uipath.com"
        end
    end
  /\ Init.username st
     = match getenv h "UIPATH_USERNAME" with Some s => s | None => "" end
  /\ Init.password st
     = match getenv h "UIPATH_PASSWORD" with Some s => s | None => "" end
  /\ Init.headless st
     = match setting config "browser" "headless" with
       | Some v => v
       | None =>
           PyBool (String.eqb
                     (lower (match getenv h "HEADLESS" with
                             | Some s => s
                             | None => "false"
                             end))
                     "true")
       end
  /\ int_ h (match getenv h "BROWSER_TIMEOUT" with
             | Some s => PyStr s
             | None =>
                 match setting config "uipath" "timeout" with
                 | Some v => v
                 | None => PyInt 30000
                 end
             end)
     = Returns (Init.timeout st).
Proof.
  unfold __init__. intros H.
  apply bind_inv in H as (config & w1 & _ & H).
  apply bind_inv in H as (uipath & w2 & G1 & H).
  apply get_inv in G1 as (-> & items & -> & ->).
  apply bind_inv in H as (url_default & w3 & G2 & H).
  apply get_inv in G2 as (-> & entries & Eu & ->).
  cbv zeta in H.
  apply bind_inv in H as (hl & w4 & G3 & H).
  apply bind_inv in H as (uipath2 & w5 & G4 & H).
  apply get_inv in G4 as (-> & items2 & E2 & ->).
  injection E2 as <-.
  apply bind_inv in H as (timeout_default & w6 & G5 & H).
  apply get_inv in G5 as (-> & entries2 & Eu2 & ->).
  apply bind_inv in H as (tm & w7 & G6 & H).
  injection H as <- _. cbn [Init.config Init.url Init.username Init.password
                             Init.headless Init.timeout].
  unfold lift in G6. injection G6 as G6 _.
  unfold os_getenv in *. unfold setting.
  assert (Hu : forall key d,
             match lookup key entries with Some y => y | None => d end
             = match
                 match lookup "uipath" items with
                 | Some (PyDict e) => lookup key e
                 | _ => None
                 end
               with
               | Some v => v
               | None => d
               end).
  { intros key d. destruct (lookup "uipath" items) as [v |].
    - rewrite Eu. reflexivity.
    - injection Eu as <-. reflexivity. }
  split; [| split; [reflexivity | split; [reflexivity | split]]].
  - destruct (getenv h "UIPATH_URL"); [reflexivity | apply Hu].
  - destruct (lookup "browser" items) as [b |].
    + apply get_inv in G3 as (_ & bentries & -> & ->). reflexivity.
    + now injection G3 as <- _.
  - rewrite <- G6. rewrite Eu2 in Eu. injection Eu as <-.
    destruct (getenv h "BROWSER_TIMEOUT"); [reflexivity |].
    now rewrite (Hu "timeout" (PyInt 30000)).
Qed.

Lemma init_settings_precedence_witness :
  exists st w',
    __init__ env_and_file "config.json" {| self := fresh; trace := [] |}
    = (Returns st, w')
    /\ Init.url st = PyStr "https://cloud.example.com"
    /\ Init.headless st = PyBool true
    /\ Init.timeout st = 5000%Z.
Proof.
  assert (E : exists st w',
             __init__ env_and_file "config.json" {| self := fresh; trace := [] |}
             = (Returns st, w'))
    by (vm_compute; now eexists; eexists).
  destruct E as (st & w' & E). exists st, w'. split; [exact E |].
  destruct (init_settings_precedence env_and_file "config.json" _ _ _ E)
    as (U & _ & _ & Hh & T).
  assert (C : Init.config st
              = PyDict [ ("uipath", PyDict [ ("url", PyStr "https://file.example.com");
                                             ("timeout", PyInt 5000) ]);
                         ("browser", PyDict [ ("headless", PyBool true) ]) ]).
  { vm_compute in E. now injection E as <- _. }
  rewrite C in *. split; [exact U |]. split; [exact Hh |].
  vm_compute in T. injection T as T. symmetry. exact T.
Defined.

(** X24: a file whose [uipath] entry is not an object (or that is not an
    object itself) makes the constructor raise an attribute error, even
    when every setting is given in the environment: the defaults are
    looked up in the file before the environment is asked. *)
Theorem init_rejects_malformed_config
    (h : Host) (config_path : string) (w : world) (config : pyval) :
  path_exists h config_path = Returns true ->
  load_json h config_path = Returns config ->
  (is_dict config = false ->
   __init__ h config_path w
   = (Raises (Exception ("'" ++ type_name config
                         ++ "' object has no attribute 'get'")), w))
  /\ (forall items v,
        config = PyDict items ->
        lookup "uipath" items = Some v ->
        is_dict v = false ->
        __init__ h config_path w
        = (Raises (Exception ("'" ++ type_name v
                              ++ "' object has no attribute 'get'")), w)).
Proof.
  intros Hp Hl.
  assert (L : _load_config h config_path w = (Returns config, w)).
  { unfold _load_config, try_except_Exception, lift, bind.
    now rewrite Hp, Hl. }
  unfold __init__. rewrite (bind_returns _ _ _ _ _ L). split.
  - intros Hd. apply bind_raises. destruct config; try reflexivity.
    discriminate Hd.
  - intros items v -> Hv Hd.
    rewrite (bind_returns (get _ _ _) _ w w v).
    + apply bind_raises. destruct v; try reflexivity. discriminate Hd.
    + cbn [get]. now rewrite Hv.
Qed.

Lemma init_rejects_malformed_config_witness :
  getenv bad_section "UIPATH_URL" = Some "https://cloud.example.com"
  /\ fst (__init__ bad_section "config.json" {| self := fresh; trace := [] |})
     = Raises (Exception "'str' object has no attribute 'get'").
Proof.
  split; [reflexivity |].
  destruct (init_rejects_malformed_config bad_section "config.json"
              {| self := fresh; trace := [] |}
              (PyDict [ ("uipath", PyStr "cloud") ]) eq_refl eq_refl)
    as [_ H].
  rewrite (H _ (PyStr "cloud") eq_refl eq_refl eq_refl). reflexivity.
Defined.

(** ** More on login, run_job and main *)

(** X25: [login] trusts a page without evidence: when no indicator of
    either kind is reported visible, it returns [True] at once, with or
    without credentials, having filled and clicked nothing. *)
Theorem login_trusts_blank_page rt (w : world) :
  arrives rt w ->
  no_indicator_shown rt ->
  exists w',
    login rt w = (Returns true, emit (Log INFO "Already logged in") w')
    /\ exists evs,
         trace w' = (trace (arrived w) ++ evs)%list /\ Forall only_looks evs.
Proof.
  intros Ha [Hpos Hneg]. destruct (arrives_steps rt w Ha) as [E1 E2].
  destruct (for_first_none (indicator_visible rt 2000) logged_in_indicators)
    with (w := arrived w) as (w1 & L1).
  { intros x w' Hx. apply indicator_visible_false. now apply Hpos. }
  destruct (for_first_none (indicator_visible rt 1000) login_indicators)
    with (w := w1) as (w2 & L2).
  { intros x w' Hx. apply indicator_visible_false. now apply Hneg. }
  assert (Hl : _is_logged_in rt (arrived w) = (Returns true, w2)).
  { unfold _is_logged_in, try_except_Exception, bind. rewrite L1.
    cbn [found]. now rewrite L2. }
  exists w2. split.
  - rewrite login_steps. unfold try_except_Exception.
    now rewrite (bind_returns _ _ _ _ _ E1), (bind_returns _ _ _ _ _ E2),
      (bind_returns _ _ _ _ _ Hl).
  - destruct (is_logged_in_only_looks rt (arrived w)) as (evs & E & F).
    rewrite Hl in E. now exists evs.
Qed.

Lemma login_trusts_blank_page_witness :
  fst (login blank {| self := anonymous; trace := [] |}) = Returns true.
Proof.
  destruct (login_trusts_blank_page blank {| self := anonymous; trace := [] |})
    as (w' & E & _).
  - split; [discriminate |]. split; reflexivity.
  - split; intros tr ind _; discriminate.
  - now rewrite E.
Defined.

(** X26: when the control inside the row was clicked and the wait after
    the click raises an error, the handler of [run_job] takes the error
    for a failed row pass and runs the page-global pass: the job can be
    triggered a second time, and a [False] at the end does not mean that
    it was not triggered. *)
Theorem run_job_retries_after_click rt (job_name msg : string) (w w1 : world) :
  before_row_pass rt job_name w = (Returns tt, w1) ->
  let row := First (Locator (job_row_selector job_name)) in
  let w2 := emit (Log INFO ("Found job row for: " ++ job_name))
              (emit (Called (IsVisible row 5000)) w1) in
  let w3 := emit (Log INFO ("Found play button for job: " ++ job_name))
              (emit (Called (IsVisible (row_button job_name) 2000)) w2) in
  let w4 := emit (Called (LocatorClick (row_button job_name))) w3 in
  run_bool rt (trace w1) (IsVisible row 5000) = Returns true ->
  run_bool rt (trace w2) (IsVisible (row_button job_name) 2000) = Returns true ->
  run_unit rt (trace w3) (LocatorClick (row_button job_name)) = Returns tt ->
  run_unit rt (trace w4) (WaitForTimeout 2000) = Raises (Exception msg) ->
  run_job rt job_name w
  = fallback_pass rt job_name
      (emit (row_error job_name msg) (emit (Called (WaitForTimeout 2000)) w4)).
Proof.
  intros Hb row w2 w3 w4 Hrow Hbtn Hclick Hwait.
  apply run_job_row_raises with (w1 := w1); [exact Hb |].
  pose proof (before_row_pass_page rt job_name w w1 Hb) as Hp.
  assert (S1 : page_locator (job_row_selector job_name) w1
               = (Returns (Locator (job_row_selector job_name)), w1)).
  { unfold page_locator, self_page, bind, ret.
    now destruct (page (self w1)). }
  assert (S2 : is_visible rt row 5000 w1
               = (Returns true, emit (Called (IsVisible row 5000)) w1)).
  { unfold is_visible, call_with. now rewrite Hrow. }
  assert (S3 : is_visible rt (row_button job_name) 2000 w2
               = (Returns true,
                  emit (Called (IsVisible (row_button job_name) 2000)) w2)).
  { unfold is_visible, call_with. now rewrite Hbtn. }
  assert (S4 : locator_click rt (row_button job_name) w3 = (Returns tt, w4)).
  { unfold locator_click, call_with. now rewrite Hclick. }
  assert (S5 : page_wait_for_timeout rt 2000 w4
               = (Raises (Exception msg),
                  emit (Called (WaitForTimeout 2000)) w4)).
  { unfold page_wait_for_timeout, self_page, call_with, bind.
    cbn [self emit w4 w3 w2].
    destruct (page (self w1)); [| contradiction]. now rewrite Hwait. }
  unfold row_pass. rewrite (bind_returns _ _ _ _ _ S1). cbv zeta.
  fold row. rewrite (bind_returns _ _ _ _ _ S2).
  rewrite (bind_returns (logger _ _) _ _ w2 tt eq_refl).
  fold (row_button job_name).
  rewrite (bind_returns _ _ _ _ _ S3).
  rewrite (bind_returns (logger _ _) _ _ w3 tt eq_refl).
  rewrite (bind_returns _ _ _ _ _ S4).
  now rewrite (bind_raises _ _ _ _ _ S5).
Qed.

Lemma run_job_retries_after_click_witness :
  fst (run_job slow_after_row_click "Invoice Sync" started) = Returns true
  /\ List.length
       (filter is_trigger_click
          (trace (snd (run_job slow_after_row_click "Invoice Sync" started))))
     = 2.
Proof.
  rewrite (run_job_retries_after_click slow_after_row_click "Invoice Sync"
             "Timeout 30000ms exceeded" started
             (snd (before_row_pass slow_after_row_click "Invoice Sync" started)));
    try reflexivity.
  split; vm_compute; reflexivity.
Defined.

(** X27: when the login fails, [main] prompts and reads the standard
    input before it goes on; if that read raises (no terminal), the run
    stops there: nothing is listed and no job is run. *)
Theorem main_stops_without_terminal
    rt (args : Args.t) (w w1 w2 : world) (e : exn) :
  start_browser rt w = (Returns tt, w1) ->
  login rt w1 = (Returns false, w2) ->
  let w3 :=
    emit (Print (nl ++ "Browser will remain open for manual login. Press Enter after logging in..."))
      (emit (Log ERROR
               "Login failed. Please check credentials or log in manually.")
         w2) in
  run_str rt (trace w3) Input = Raises e ->
  main_steps rt args w = (Raises e, emit (Called Input) w3).
Proof.
  intros Hs Hl w3 Hi. unfold main_steps.
  rewrite (bind_returns _ _ _ _ _ Hs), (bind_returns _ _ _ _ _ Hl).
  cbn [negb]. apply bind_raises.
  rewrite (bind_returns (logger _ _) _ w2 _ tt eq_refl).
  rewrite (bind_returns (print _) _ _ w3 tt eq_refl).
  apply bind_raises. unfold input, call_with. now rewrite Hi.
Qed.

Lemma main_stops_without_terminal_witness :
  fst (main no_terminal run_one_job not_started) = Returns tt
  /\ ~ In (Log INFO "Attempting to run job: Invoice Sync")
          (trace (snd (main no_terminal run_one_job not_started)))
  /\ fst (main_steps no_terminal run_one_job not_started)
     = Raises (Exception "EOF when reading a line").
Proof.
  split; [reflexivity |]. split.
  - vm_compute. intros H.
    repeat (destruct H as [H | H]; [discriminate H |]). exact H.
  - rewrite (main_stops_without_terminal no_terminal run_one_job not_started
               (snd (start_browser no_terminal not_started))
               (snd (login no_terminal (snd (start_browser no_terminal not_started))))
               (Exception "EOF when reading a line"));
      reflexivity.
Defined.
